(** * mdpopups: cache policy, entity sanitizer, visibility guard, render
      entry points and phantom reconciliation

    A shallow embedding of [st3/mdpopups/__init__.py].  Python values are
    embedded as follows: [int] as [Z], [str] as a list of code points where
    the characters matter and as [string] where only identity matters, the
    module-level [OrderedDict] caches as association lists in insertion
    order, timestamps of [time.time()] as exact rationals, Python objects
    that are shared and mutated (phantoms, the lists holding them) as cells
    of an explicit store.  Everything the module obtains from its host (the
    editor view, the settings file, the scheme converter, the Markdown
    library, the standard library's entity table) is an explicit argument. *)

From Stdlib Require Import ZArith QArith Bool Lia.
From stdpp Require Import base option list strings.

Local Open Scope Z_scope.

(** ** Python values read from the settings file *)

(** A value as [settings.get] returns it.  [PyOther] stands for a list or a
    dict, of which only the truth value is ever inspected. *)
Inductive pyval : Type :=
  | PyNone
  | PyBool (b : bool)
  | PyInt (z : Z)
  | PyFloat (q : Q)
  | PyStr (s : string)
  | PyOther (truth : bool).

(** [isinstance(v, int)], returning the integer: [bool] is a subclass of
    [int] in Python, so [True] and [False] pass as [1] and [0]. *)
Definition as_int (v : pyval) : option Z :=
  match v with
  | PyBool b => Some (if b then 1 else 0)
  | PyInt z => Some z
  | _ => None
  end.

(** The truth value Python gives [v] in [if v:] and [not v]. *)
Definition truthy (v : pyval) : bool :=
  match v with
  | PyNone => false
  | PyBool b => b
  | PyInt z => negb (z =? 0)
  | PyFloat q => negb (Qeq_bool q 0)
  | PyStr s => negb (String.eqb s "")
  | PyOther t => t
  end.

(** [v == b] for a Python [bool] [b]. *)
Definition py_eq_bool (v : pyval) (b : bool) : bool :=
  match v with
  | PyBool b' => Bool.eqb b' b
  | PyInt z => z =? (if b then 1 else 0)
  | PyFloat q => Qeq_bool q (inject_Z (if b then 1 else 0))
  | _ => false
  end.

(** The preferences file: a key is absent or bound to a value. *)
Definition settings : Type := string -> option pyval.

(** [_get_setting(name, default)] *)
Definition _get_setting (prefs : settings) (name : string) (default : pyval) : pyval :=
  match prefs name with
  | Some v => v
  | None => default
  end.

(** ** Regions and the view *)

(** [sublime.Region]: [a] is the anchor, [b] the active end. *)
Record Region : Type := mkRegion { a : Z; b : Z }.

Definition begin_ (r : Region) : Z := Z.min (a r) (b r).
Definition end_ (r : Region) : Z := Z.max (a r) (b r).

(** [Region.__eq__] compares the two ends. *)
Definition region_eqb (r s : Region) : bool := (a r =? a s) && (b r =? b s).

(** [sublime.Region(-1)]: what the editor reports for an erased phantom. *)
Definition region_deleted : Region := mkRegion (-1) (-1).

(** A point lies inside the region, both ends included. *)
Definition contains_point (r : Region) (pt : Z) : Prop := begin_ r <= pt <= end_ r.

(** What [_can_show] reads from the view. *)
Record ViewPort : Type := mkViewPort {
  visible_region : Region;
  sel : list Region
}.

(** [_can_show(view, location=-1)] *)
Definition _can_show (view : ViewPort) (location : Z) : bool :=
  let can_show := true in
  if location >=? 0 then
    let region := visible_region view in
    if (begin_ region >? location) || (end_ region <? location) then false else can_show
  else
    match sel view with
    | sel0 :: _ =>
        let region := visible_region view in
        if (begin_ region >? b sel0) || (end_ region <? b sel0) then false else can_show
    | [] => false
    end.

(** ** Theme and highlighter caches *)

(** [collections.OrderedDict]: the items in insertion order, oldest first. *)
Definition odict (V : Type) : Type := list (string * V).

Section OrderedDict.
Context {V : Type}.

(** [d[k]] *)
Fixpoint od_get (k : string) (d : odict V) : option V :=
  match d with
  | [] => None
  | (k', v) :: d' => if String.eqb k k' then Some v else od_get k d'
  end.

(** [d[k] = v]: an existing key keeps its place, a new one goes last. *)
Fixpoint od_set (k : string) (v : V) (d : odict V) : odict V :=
  match d with
  | [] => [(k, v)]
  | (k', v') :: d' =>
      if String.eqb k k' then (k, v) :: d' else (k', v') :: od_set k v d'
  end.

(** [d.popitem(last=True)]: removes and returns the item at the end of
    the order; [None] stands for the [KeyError] on an empty dict. *)
Fixpoint od_popitem_last (d : odict V) : option ((string * V) * odict V) :=
  match d with
  | [] => None
  | [kv] => Some (kv, [])
  | kv :: d' =>
      match od_popitem_last d' with
      | Some (x, rest) => Some (x, kv :: rest)
      | None => None
      end
  end.

(** [while len(d) >= limit: d.popitem(last=True)].  Every turn removes one
    item, so [fuel = len(d)] turns are enough; [None] is a [KeyError]. *)
Fixpoint prune_loop (fuel : nat) (limit : Z) (d : odict V) : option (odict V) :=
  if Z.of_nat (length d) >=? limit then
    match fuel with
    | O => None
    | S fuel' =>
        match od_popitem_last d with
        | Some (_, d') => prune_loop fuel' limit d'
        | None => None
        end
    end
  else Some d.
End OrderedDict.

(** The scheme converter's object ([Scheme2CSS], module [st_scheme_template],
    not part of this file): its [variables] dict and the CSS it holds. *)
Record Scheme2CSS : Type := mkScheme2CSS {
  variables : string -> option pyval;
  get_css : string
}.

(** The native highlighter object ([SublimeHighlight]), opaque here. *)
Record SublimeHighlight : Type := mkSublimeHighlight { hl_scheme : string }.

(** The two module-level caches. *)
Record Caches : Type := mkCaches {
  _scheme_cache : odict (Scheme2CSS * string * Q);
  _highlighter_cache : odict (SublimeHighlight * Q)
}.

(** What one call of [_get_scheme] or [_get_sublime_highlighter] obtains
    from outside: the preferences, the view's [color_scheme], the clock at
    the expiry check and at the store, and the outcome of the constructors
    and of [_get_user_css] ([None]: the call raises). *)
Record Host : Type := mkHost {
  prefs : settings;
  color_scheme : option string;
  time_at_check : Q;
  time_at_store : Q;
  new_Scheme2CSS : string -> option Scheme2CSS;
  new_SublimeHighlight : string -> option SublimeHighlight;
  user_css_loaded : option string
}.

(** [_clear_cache()], as far as the two caches go. *)
Definition _clear_cache : Caches := mkCaches [] [].

(** The refresh interval in minutes that [_is_cache_expired] works with. *)
Definition refresh_minutes (p : settings) : Z :=
  match as_int (_get_setting p "mdpopups.cache_refresh_time" (PyInt 30)) with
  | Some delta_time => if delta_time <? 0 then 30 else delta_time
  | None => 30
  end.

(** [_is_cache_expired(cache_time)] *)
Definition _is_cache_expired (h : Host) (cache_time : Q) : bool :=
  let delta_time := refresh_minutes (prefs h) in
  (delta_time =? 0) || Qle_bool (inject_Z (delta_time * 60)) (time_at_check h - cache_time).

(** The limit [_prune_cache] works with. *)
Definition cache_limit (p : settings) : Z :=
  match _get_setting p "mdpopups.cache_limit" (PyInt 10) with
  | PyNone => 10
  | limit =>
      match as_int limit with
      | Some n => if n <=? 0 then 10 else n
      | None => 10
      end
  end.

(** [_prune_cache()] *)
Definition _prune_cache (h : Host) (c : Caches) : option Caches :=
  let limit := cache_limit (prefs h) in
  match prune_loop (length (_scheme_cache c)) limit (_scheme_cache c) with
  | Some sc =>
      match prune_loop (length (_highlighter_cache c)) limit (_highlighter_cache c) with
      | Some hc => Some (mkCaches sc hc)
      | None => None
      end
  | None => None
  end.

(** What a lookup did, in the order it did it. *)
Inductive cache_event : Type :=
  | Built (scheme : string)
  | Pruned
  | Stored (scheme : string).

(** The test of [_get_scheme] on a cached object: has the user switched the
    highlighter since the object was built? *)
Definition pygments_changed (h : Host) (obj : Scheme2CSS) : bool :=
  let cached :=
    match variables obj "use_pygments" with Some v => v | None => PyBool true end in
  let use_sublime :=
    truthy (_get_setting (prefs h) "mdpopups.use_sublime_highlighter" (PyBool false)) in
  negb (py_eq_bool cached (negb use_sublime)).

(** [_get_scheme(view)]: the pair returned, the caches afterwards and the
    trace of what was done. *)
Definition _get_scheme (h : Host) (c : Caches)
  : (option Scheme2CSS * string) * Caches * list cache_event :=
  match color_scheme h with
  | None => ((None, ""%string), c, [])
  | Some scheme =>
      let '(obj, user_css) :=
        match od_get scheme (_scheme_cache c) with
        | Some (obj, user_css, t) =>
            if _is_cache_expired h t || pygments_changed h obj
            then (None, ""%string)
            else (Some obj, user_css)
        | None => (None, ""%string)
        end in
      match obj with
      | Some _ => ((obj, user_css), c, [])
      | None =>
          match new_Scheme2CSS h scheme with
          | None => ((None, user_css), c, [Built scheme])
          | Some obj =>
              match _prune_cache h c with
              | None => ((Some obj, user_css), c, [Built scheme])
              | Some c1 =>
                  match user_css_loaded h with
                  | None => ((Some obj, user_css), c1, [Built scheme; Pruned])
                  | Some user_css =>
                      ((Some obj, user_css),
                       mkCaches
                         (od_set scheme (obj, user_css, time_at_store h) (_scheme_cache c1))
                         (_highlighter_cache c1),
                       [Built scheme; Pruned; Stored scheme])
                  end
              end
          end
      end
  end.

(** [_get_sublime_highlighter(view)] *)
Definition _get_sublime_highlighter (h : Host) (c : Caches)
  : option SublimeHighlight * Caches * list cache_event :=
  match color_scheme h with
  | None => (None, c, [])
  | Some scheme =>
      let obj :=
        match od_get scheme (_highlighter_cache c) with
        | Some (obj, t) => if _is_cache_expired h t then None else Some obj
        | None => None
        end in
      match obj with
      | Some _ => (obj, c, [])
      | None =>
          match new_SublimeHighlight h scheme with
          | None => (None, c, [Built scheme])
          | Some obj =>
              match _prune_cache h c with
              | None => (Some obj, c, [Built scheme])
              | Some c1 =>
                  (Some obj,
                   mkCaches
                     (_scheme_cache c1)
                     (od_set scheme (obj, time_at_store h) (_highlighter_cache c1)),
                   [Built scheme; Pruned; Stored scheme])
              end
          end
      end
  end.

(** ** Text and the entity sanitizer *)

(** A Python [str]: its code points. *)
Definition text : Type := list N.

(** The code points of an ASCII literal. *)
Definition cp (s : string) : text := map Ascii.N_of_ascii (String.list_ascii_of_string s).

Definition AMP : N := 38%N.
Definition HASH : N := 35%N.
Definition SEMI : N := 59%N.

(** The longest prefix of [t] whose characters satisfy [p], and the rest. *)
Fixpoint span (p : N -> bool) (t : text) : text * text :=
  match t with
  | c :: t' => if p c then let '(w, r) := span p t' in (c :: w, r) else ([], t)
  | [] => ([], [])
  end.

(** [t] begins with [pre]. *)
Fixpoint starts_with (pre t : text) : bool :=
  match pre, t with
  | [], _ => true
  | x :: pre', y :: t' => (x =? y)%N && starts_with pre' t'
  | _ :: _, [] => false
  end.

Definition ascii_digit (c : N) : bool := ((48 <=? c) && (c <=? 57))%N.

Definition ascii_word (c : N) : bool :=
  (ascii_digit c || ((65 <=? c) && (c <=? 90)) || ((97 <=? c) && (c <=? 122)) || (c =? 95))%N.

(** What the pattern [RE_BAD_ENTITIES] and its replacement take from the
    standard library: the character classes of [re] outside ASCII, and
    [HTMLParser.unescape] ([None]: it raises). *)
Record Stdlib : Type := mkStdlib {
  unicode_alnum : N -> bool;
  unicode_decimal : N -> bool;
  unescape : text -> option text
}.

Section Sanitizer.
Variable lib : Stdlib.

(** [\w] and [\d] of a [str] pattern. *)
Definition re_word (c : N) : bool :=
  if (c <? 128)%N then ascii_word c else unicode_alnum lib c.
Definition re_digit (c : N) : bool :=
  if (c <? 128)%N then ascii_digit c else unicode_decimal lib c.

(** The negative lookahead [(?!amp;|lt;|gt;|nbsp;)] fails on [t]. *)
Definition excepted (t : text) : bool :=
  starts_with (cp "amp;") t || starts_with (cp "lt;") t ||
  starts_with (cp "gt;") t || starts_with (cp "nbsp;") t.

(** [RE_BAD_ENTITIES.match] at the head of [t]: the match and what
    follows it.  The pattern is [(&(?!amp;|lt;|gt;|nbsp;)(?:\w+;|#\d+;))].
    A greedy [\w+] (or [\d+]) takes the whole run; giving characters back
    cannot help, since the character then following is one of the run and
    not [;]. *)
Definition match_entity (t : text) : option (text * text) :=
  match t with
  | c :: t1 =>
      if (c =? AMP)%N && negb (excepted t1) then
        match span re_word t1 with
        | ((_ :: _) as w, s :: rest) =>
            if (s =? SEMI)%N then Some (AMP :: w ++ [SEMI], rest) else None
        | ([], h :: t2) =>
            if (h =? HASH)%N then
              match span re_digit t2 with
              | ((_ :: _) as d, s :: rest) =>
                  if (s =? SEMI)%N then Some (AMP :: HASH :: d ++ [SEMI], rest) else None
              | _ => None
              end
            else None
        | _ => None
        end
      else None
  | [] => None
  end.

(** [RE_BAD_ENTITIES.sub(repl, text)] with [repl(m) = unescape(m.group(1))]:
    one pass from the left; [skip] counts the characters of the current
    match still to be passed over. *)
Fixpoint sub_entities (skip : nat) (t : text) : option text :=
  match t with
  | [] => Some []
  | c :: t' =>
      match skip with
      | S k => sub_entities k t'
      | O =>
          match match_entity (c :: t') with
          | Some (m, _) =>
              match unescape lib m with
              | Some u =>
                  match sub_entities (length m - 1) t' with
                  | Some r => Some (u ++ r)
                  | None => None
                  end
              | None => None
              end
          | None =>
              match sub_entities 0 t' with
              | Some r => Some (c :: r)
              | None => None
              end
          end
      end
  end.

(** [_remove_entities(text)] *)
Definition _remove_entities (t : text) : option text := sub_entities 0 t.
End Sanitizer.

(** *** The interpreter's side, for concrete runs

    [HTMLParser.unescape] of Python 3.3 (the interpreter of Sublime Text 3)
    on a single reference, over a table of named entities: a decimal
    reference becomes [chr] of its number ([chr] raises [ValueError] above
    [0x10FFFF], which [unescape] answers with the reference itself, and
    [OverflowError] beyond a C [int], which it lets through), a name found
    in the table becomes its entry, anything else stays. *)
Definition int_of_digits (ds : text) : N :=
  fold_left (fun acc d => (acc * 10 + (d - 48))%N) ds 0%N.

Definition py33_unescape (html5 : text -> option text) (m : text) : option text :=
  match m with
  | c :: body =>
      if (c =? AMP)%N then
        match body with
        | h :: ds =>
            if (h =? HASH)%N then
              match span ascii_digit ds with
              | ((_ :: _) as d, [s]) =>
                  if (s =? SEMI)%N then
                    let n := int_of_digits d in
                    if (n <=? 1114111)%N then Some [n]
                    else if (n <=? 2147483647)%N then Some m
                    else None
                  else Some m
              | _ => Some m
              end
            else match html5 body with Some s => Some s | None => Some m end
        | [] => Some m
        end
      else Some m
  | [] => Some m
  end.

(** A few rows of [html.entities.html5]. *)
Definition html5_excerpt (name : text) : option text :=
  if decide (name = cp "amp;") then Some (cp "&")
  else if decide (name = cp "lt;") then Some (cp "<")
  else if decide (name = cp "gt;") then Some (cp ">")
  else if decide (name = cp "nbsp;") then Some [160%N]
  else if decide (name = cp "copy;") then Some [169%N]
  else if decide (name = cp "hellip;") then Some [8230%N]
  else None.

(** [\w] outside ASCII, for the code points below 256: the letters of
    Latin-1, the two ordinal indicators, the micro sign, and the
    superscript digits and fractions. *)
Definition latin1_alnum (c : N) : bool :=
  ((192 <=? c) && (c <=? 255) && negb (c =? 215) && negb (c =? 247)
   || (c =? 170) || (c =? 178) || (c =? 179) || (c =? 181) || (c =? 185)
   || (c =? 186) || (c =? 188) || (c =? 189) || (c =? 190))%N.

(** An interpreter for text in Latin-1 whose named references are among
    those rows: below 256 no code point outside ASCII is a decimal
    digit. *)
Definition py33 : Stdlib :=
  mkStdlib latin1_alnum (fun _ => false) (py33_unescape html5_excerpt).

(** [int(s)] on a [str] of ASCII characters: an optional sign and one or
    more decimal digits, with blanks allowed around them; [None] for the
    [ValueError] of anything else. *)
Definition ascii_blank (c : N) : bool := (((9 <=? c) && (c <=? 13)) || (c =? 32))%N.

Fixpoint drop_blanks (t : text) : text :=
  match t with
  | c :: t' => if ascii_blank c then drop_blanks t' else t
  | [] => []
  end.

Definition py33_int (s : string) : option Z :=
  let t := rev (drop_blanks (rev (drop_blanks (cp s)))) in
  let '(negative, digits) :=
    match t with
    | c :: t' =>
        if (c =? 45)%N then (true, t')
        else if (c =? 43)%N then (false, t')
        else (false, t)
    | [] => (false, t)
    end in
  match digits with
  | [] => None
  | _ :: _ =>
      if forallb ascii_digit digits then
        Some (if negative then - Z.of_N (int_of_digits digits) else Z.of_N (int_of_digits digits))
      else None
  end.

(** ** Exceptions and the world the public functions run in *)

Inductive exn : Type :=
  | AttributeError
  | IndexError
  | LibraryError.

Inductive Res (A : Type) : Type :=
  | Ok (x : A)
  | Raise (e : exn).
Arguments Ok {A} x.
Arguments Raise {A} e.

(** [POPUP] and [PHANTOM] of [st_scheme_template]. *)
Inductive css_kind : Type := POPUP | PHANTOM.

(** A Python callable, compared by identity; [None] for no callback. *)
Definition callback : Type := option nat.

(** A phantom id: the editor's number, or [None]. *)
Definition pid : Type := option Z.

(** A call received by the editor's display primitives; [AddPhantom]
    carries the id the editor answered with. *)
Inductive call : Type :=
  | ShowPopup (html : text) (flags location max_width max_height : Z)
              (on_navigate on_hide : callback)
  | UpdatePopup (html : text)
  | AddPhantom (key : string) (region : Region) (html : text) (layout : Z)
               (on_navigate : callback) (answer : Z)
  | ErasePhantomById (p : pid)
  | QueryPhantoms (pids : list pid).

(** Everything outside this file, over a state [V] of its own: the editor
    (settings, viewport, display primitives), the rest of the render
    pipeline ([_get_theme] with the scheme converter behind it, [md2html]
    with the Markdown library behind it) and the interpreter's library
    ([env_int] is [int] on a string, [None] for its [ValueError]).
    [_get_theme] and [md2html] may raise and may change the state.  The
    display primitives are taken not to raise. *)
Class Environment (V : Type) : Type := {
  env_prefs : V -> settings;
  env_viewport : V -> ViewPort;
  env_get_theme : text -> css_kind -> V -> Res text * V;
  env_md2html : text -> bool -> V -> Res text * V;
  env_stdlib : Stdlib;
  env_int : string -> option Z;
  env_show_popup : text -> Z -> Z -> Z -> Z -> callback -> callback -> V -> V;
  env_update_popup : text -> V -> V;
  env_add_phantom : string -> Region -> text -> Z -> callback -> V -> Z * V;
  env_erase_phantom_by_id : pid -> V -> V;
  env_query_phantoms : list pid -> V -> list Region
}.

(** A reference to a Python object in the store. *)
Definition loc : Type := nat.

(** The two phantom classes: the editor's and the subclass defined here. *)
Inductive pyclass : Type := sublime_Phantom | mdpopups_Phantom.

(** A phantom object.  An instance of the editor's class has no [md], [css]
    and [nl2br] attributes: there the three fields mean nothing, and reading
    them is an [AttributeError]. *)
Record Phantom : Type := mkPhantom {
  class_ : pyclass;
  region : Region;
  content : text;
  layout : Z;
  on_navigate : callback;
  md : bool;
  css : option text;
  nl2br : bool;
  id : pid
}.

(** [PhantomSet]: its key and the reference to its [phantoms] list (the
    view is the one of the world). *)
Record PhantomSet : Type := mkPhantomSet {
  key : string;
  phantoms : loc
}.

(** A computation over a state [S]: a result or an exception, and the state
    afterwards. *)
Definition M (S A : Type) : Type := S -> Res A * S.

Definition ret {S A : Type} (x : A) : M S A := fun s => (Ok x, s).

Definition raise {S A : Type} (e : exn) : M S A := fun s => (Raise e, s).

Definition bind {S A B : Type} (m : M S A) (k : A -> M S B) : M S B :=
  fun s =>
    match m s with
    | (Ok x, s') => k x s'
    | (Raise e, s') => (Raise e, s')
    end.

(** [try: m  except Exception: handler] *)
Definition try_except {S A : Type} (m : M S A) (handler : M S A) : M S A :=
  fun s =>
    match m s with
    | (Ok x, s') => (Ok x, s')
    | (Raise _, s') => handler s'
    end.

Notation "'do' x <- m ; k" := (bind m (fun x => k))
  (at level 10, x name, m at level 100, k at level 200,
   format "'[v' 'do'  x  <-  m ; '/' k ']'").
Notation "'run' m ; k" := (bind m (fun _ => k))
  (at level 10, m at level 100, k at level 200,
   format "'[v' 'run'  m ; '/' k ']'").

(** ** [_log] and [_debug]

    [_debug] reads its level with [int(_get_setting('mdpopups.debug',
    NODEBUG))], which raises for a value that [int] does not take. *)

(** What [_log] is given to print after its prefix: a fixed message, a
    document, or the text of [traceback.format_exc()]. *)
Inductive printed : Type :=
  | Line (s : string)
  | Dump (t : text)
  | Traceback.

(** A state together with the lines printed so far, oldest first. *)
Record Logged (S : Type) : Type := mkLogged {
  state : S;
  console : list printed
}.
Arguments mkLogged {S} state console.
Arguments state {S} l.
Arguments console {S} l.

Definition NODEBUG : Z := 0.
Definition ERROR : Z := 1.
Definition WARNING : Z := 2.
Definition INFO : Z := 3.

(** [_log(msg)] *)
Definition _log {S : Type} (msg : printed) : M (Logged S) unit :=
  fun x => (Ok tt, mkLogged (state x) (console x ++ [msg])).

Section Debug.
(** [int(s)] of a string, [None] for its [ValueError]. *)
Variable int_of_str : string -> option Z.

(** [int(v)] of a settings value: a float is cut towards zero, [None], a
    list or a dict is a [TypeError]. *)
Definition py_int (v : pyval) : Res Z :=
  match v with
  | PyBool b => Ok (if b then 1 else 0)
  | PyInt z => Ok z
  | PyFloat q => Ok (Z.quot (Qnum q) (Zpos (Qden q)))
  | PyStr s =>
      match int_of_str s with
      | Some z => Ok z
      | None => Raise LibraryError
      end
  | PyNone => Raise LibraryError
  | PyOther _ => Raise LibraryError
  end.

(** [int(_get_setting('mdpopups.debug', NODEBUG))] *)
Definition debug_level (p : settings) : Res Z :=
  py_int (_get_setting p "mdpopups.debug" (PyInt NODEBUG)).

(** [_debug(msg, level)], under the preferences [p]. *)
Definition _debug {S : Type} (p : settings) (msg : printed) (level : Z) : M (Logged S) unit :=
  match debug_level p with
  | Ok n => if n >=? level then _log msg else ret tt
  | Raise e => raise e
  end.
End Debug.

(** [_debug] can read its level: the setting is absent or a number, or a
    string that [int] accepts. *)
Definition debug_readable (int_of_str : string -> option Z) (p : settings) : Prop :=
  exists n, debug_level int_of_str p = Ok n.

(** A computation that prints, run with what it prints dropped. *)
Definition silent {S A : Type} (m : M (Logged S) A) : M S A :=
  fun s => let '(r, x) := m (mkLogged s []) in (r, state x).

(** The world of the public functions: the environment, the calls the
    display primitives have received so far (oldest first), and the store:
    phantom objects and list objects by reference, [next_loc] being the
    first reference not yet given out. *)
Record World (V : Type) : Type := mkWorld {
  env : V;
  calls : list call;
  objs : loc -> Phantom;
  lists : loc -> list loc;
  next_loc : loc
}.
Arguments mkWorld {V} env calls objs lists next_loc.
Arguments env {V} w.
Arguments calls {V} w.
Arguments objs {V} w p.
Arguments lists {V} w l.
Arguments next_loc {V} w.

(** The fallback document [IDK]. *)
Definition IDK : text :=
  [10%N] ++ cp "<style>html {background-color: #333; color: red}</style>" ++ [10%N] ++
  cp "<div><p>" ++ [175%N] ++ cp "\_(" ++ [12484%N] ++ cp ")_/" ++ [175%N] ++
  cp "'</p></div>" ++ [10%N].

Section Render.
Context {V : Type} `{Environment V}.

Definition with_env (v : V) (w : World V) : World V :=
  mkWorld v (calls w) (objs w) (lists w) (next_loc w).

Definition record_call (c : call) (w : World V) : World V :=
  mkWorld (env w) (calls w ++ [c]) (objs w) (lists w) (next_loc w).

(** A computation of the environment, run in the world. *)
Definition in_env {A : Type} (m : M V A) : M (World V) A :=
  fun w => let '(r, v) := m (env w) in (r, with_env v w).

(** [_get_setting(name, default)] on the preferences of the moment. *)
Definition get_setting (name : string) (default : pyval) : M V pyval :=
  fun v => (Ok (_get_setting (env_prefs v) name default), v).

(** The render functions follow without their console output: a call of
    [_log] or [_debug] is run [silent].  What [_debug] raises stays. *)

(** [_debug(msg, level)] under the preferences of the moment. *)
Definition debug_now (msg : printed) (level : Z) : M V unit :=
  silent (fun x => _debug env_int (env_prefs (state x)) msg level x).

(** [if debug: _debug(title, INFO); _debug(document, INFO)] *)
Definition debug_dump (debug : pyval) (title : string) (document : text) : M V unit :=
  if truthy debug then
    run debug_now (Line title) INFO;
    debug_now (Dump document) INFO
  else ret tt.

(** [_create_html(view, content, md, css, css_type=..., nl2br=...)] *)
Definition _create_html (content : text) (md : bool) (css : option text)
    (css_type : css_kind) (nl2br : bool) : M V text :=
  do debug <- get_setting "mdpopups.debug" (PyInt NODEBUG);
  run debug_dump debug "=====Content=====" content;
  let css := match css with Some s => s | None => [] end in
  do style <- env_get_theme css css_type;
  run debug_dump debug "=====CSS=====" style;
  do content <- (if md then env_md2html content nl2br else ret content);
  run debug_dump debug "=====HTML OUTPUT=====" content;
  let html := cp "<style>" ++ style ++ cp "</style>" in
  match _remove_entities env_stdlib content with
  | Some body => ret (html ++ body)
  | None => raise LibraryError
  end.

(** The document that reaches the display primitive: [try: html =
    _create_html(...)  except Exception: _log(traceback.format_exc());
    html = IDK]. *)
Definition html_or_IDK (content : text) (md : bool) (css : option text)
    (css_type : css_kind) (nl2br : bool) : M V text :=
  try_except (_create_html content md css css_type nl2br)
    (run silent (_log Traceback); ret IDK).

(** [update_popup(view, content, md, css, nl2br)] *)
Definition update_popup (content : text) (md : bool) (css : option text)
    (nl2br : bool) : M (World V) unit :=
  do disabled <- in_env (get_setting "mdpopups.disable" (PyBool false));
  if truthy disabled then in_env (debug_now (Line "Popups disabled") WARNING)
  else
    do html <- in_env (html_or_IDK content md css POPUP nl2br);
    fun w => (Ok tt, record_call (UpdatePopup html) (with_env (env_update_popup html (env w)) w)).

(** [show_popup(view, content, md, css, flags, location, max_width,
    max_height, on_navigate, on_hide, nl2br)] *)
Definition show_popup (content : text) (md : bool) (css : option text)
    (flags location max_width max_height : Z) (on_navigate on_hide : callback)
    (nl2br : bool) : M (World V) unit :=
  do disabled <- in_env (get_setting "mdpopups.disable" (PyBool false));
  if truthy disabled then in_env (debug_now (Line "Popups disabled") WARNING)
  else
    do view <- (fun w => (Ok (env_viewport (env w)), w));
    if negb (_can_show view location) then ret tt
    else
      do html <- in_env (html_or_IDK content md css POPUP nl2br);
      fun w =>
        (Ok tt,
         record_call
           (ShowPopup html flags location max_width max_height on_navigate on_hide)
           (with_env
              (env_show_popup html flags location max_width max_height on_navigate on_hide
                 (env w))
              w)).

(** [add_phantom(view, key, region, content, layout, md, css, on_navigate,
    nl2br)], returning the phantom id, or [None] when disabled. *)
Definition add_phantom (key : string) (region : Region) (content : text)
    (layout : Z) (md : bool) (css : option text) (on_navigate : callback)
    (nl2br : bool) : M (World V) pid :=
  do disabled <- in_env (get_setting "mdpopups.disable" (PyBool false));
  if truthy disabled then
    run in_env (debug_now (Line "Phantoms disabled") WARNING);
    ret None
  else
    do html <- in_env (html_or_IDK content md css PHANTOM nl2br);
    fun w =>
      let '(n, v) := env_add_phantom key region html layout on_navigate (env w) in
      (Ok (Some n),
       record_call (AddPhantom key region html layout on_navigate n) (with_env v w)).

(** [erase_phantom_by_id(view, pid)] *)
Definition erase_phantom_by_id (p : pid) : M (World V) unit :=
  fun w =>
    (Ok tt, record_call (ErasePhantomById p) (with_env (env_erase_phantom_by_id p (env w)) w)).

(** [query_phantoms(view, pids)] *)
Definition query_phantoms (pids : list pid) : M (World V) (list Region) :=
  fun w => (Ok (env_query_phantoms pids (env w)), record_call (QueryPhantoms pids) w).
End Render.

(** ** Phantoms and their reconciliation *)

(** [Phantom.__eq__(self, rhs)], the comparison Python settles on when at
    least one side is an instance of the subclass; between two instances of
    the editor's class it is the editor's own [__eq__] over the first four
    fields.  The conjunction is evaluated from the left and stops at the
    first difference, so the attributes of the subclass are only read once
    the first four fields agree. *)
Definition Phantom__eq__ (self rhs : Phantom) : Res bool :=
  if region_eqb (region self) (region rhs)
     && bool_decide (content self = content rhs)
     && (layout self =? layout rhs)
     && bool_decide (on_navigate self = on_navigate rhs)
  then
    match class_ self, class_ rhs with
    | mdpopups_Phantom, mdpopups_Phantom =>
        Ok (Bool.eqb (md self) (md rhs)
            && bool_decide (css self = css rhs)
            && Bool.eqb (nl2br self) (nl2br rhs))
    | sublime_Phantom, sublime_Phantom => Ok true
    | _, _ => Raise AttributeError
    end
  else Ok false.

(** [Phantom(region, content, layout, md, css, on_navigate, nl2br)] *)
Definition Phantom__init__ (region : Region) (content : text) (layout : Z)
    (md : bool) (css : option text) (on_navigate : callback) (nl2br : bool) : Phantom :=
  mkPhantom mdpopups_Phantom region content layout on_navigate md css nl2br None.

Definition set_region (r : Region) (o : Phantom) : Phantom :=
  mkPhantom (class_ o) r (content o) (layout o) (on_navigate o) (md o) (css o) (nl2br o) (id o).

Definition set_id (i : pid) (o : Phantom) : Phantom :=
  mkPhantom (class_ o) (region o) (content o) (layout o) (on_navigate o) (md o) (css o)
    (nl2br o) i.

Definition set_phantoms (l : loc) (s : PhantomSet) : PhantomSet := mkPhantomSet (key s) l.

Section Phantoms.
Context {V : Type} `{Environment V}.

(** The object behind a reference. *)
Definition get_obj (p : loc) : M (World V) Phantom := fun w => (Ok (objs w p), w).

(** An attribute assignment [p.x = ...]: the object behind [p] changes
    for every holder of the reference. *)
Definition modify_obj (p : loc) (f : Phantom -> Phantom) : M (World V) unit :=
  fun w =>
    (Ok tt,
     mkWorld (env w) (calls w)
       (fun q => if decide (q = p) then f (objs w p) else objs w q)
       (lists w) (next_loc w)).

(** A new object, behind a reference not used before. *)
Definition new_obj (o : Phantom) : M (World V) loc :=
  fun w =>
    (Ok (next_loc w),
     mkWorld (env w) (calls w)
       (fun q => if decide (q = next_loc w) then o else objs w q)
       (lists w) (S (next_loc w))).

(** The items of a list object. *)
Definition list_items (l : loc) : M (World V) (list loc) := fun w => (Ok (lists w l), w).

(** [l[i]] *)
Definition list_getitem (l : loc) (i : nat) : M (World V) loc :=
  fun w =>
    match lists w l !! i with
    | Some p => (Ok p, w)
    | None => (Raise IndexError, w)
    end.

(** [l[i] = p] *)
Definition list_setitem (l : loc) (i : nat) (p : loc) : M (World V) unit :=
  fun w =>
    if decide (i < length (lists w l))%nat then
      (Ok tt,
       mkWorld (env w) (calls w) (objs w)
         (fun k => if decide (k = l) then <[i:=p]> (lists w l) else lists w k)
         (next_loc w))
    else (Raise IndexError, w).

(** [item == p] as [list.index] and [in] evaluate it: identical objects
    are equal without further ado, others are compared by [__eq__]. *)
Definition same_or_equal (item p : loc) : M (World V) bool :=
  if decide (item = p) then ret true
  else
    fun w =>
      match Phantom__eq__ (objs w item) (objs w p) with
      | Ok r => (Ok r, w)
      | Raise e => (Raise e, w)
      end.

(** The scan shared by [list.index] and [in]: the position, counted from
    [i], of the first of [items] equal to [p]; [None] when there is none. *)
Fixpoint find_equal (items : list loc) (i : nat) (p : loc) : M (World V) (option nat) :=
  match items with
  | [] => ret None
  | item :: rest =>
      do e <- same_or_equal item p;
      if e then ret (Some i) else find_equal rest (S i) p
  end.

(** [l.index(p)], [None] standing for the [ValueError] that [update]
    catches. *)
Definition list_index (l : loc) (p : loc) : M (World V) (option nat) :=
  do items <- list_items l;
  find_equal items 0%nat p.

(** [p in l] *)
Definition list_contains (l : loc) (p : loc) : M (World V) bool :=
  do items <- list_items l;
  do r <- find_equal items 0%nat p;
  ret (match r with Some _ => true | None => false end).

(** [[p.id for p in self.phantoms]] *)
Fixpoint ids_of (items : list loc) : M (World V) (list pid) :=
  match items with
  | [] => ret []
  | p :: rest =>
      do o <- get_obj p;
      do r <- ids_of rest;
      ret (id o :: r)
  end.

(** [for i in range(len(regions)): self.phantoms[i].region = regions[i]],
    from index [i] on. *)
Fixpoint refresh_regions (self : PhantomSet) (i : nat) (regions : list Region)
    : M (World V) unit :=
  match regions with
  | [] => ret tt
  | r :: rest =>
      do p <- list_getitem (phantoms self) i;
      run modify_obj p (set_region r);
      refresh_regions self (S i) rest
  end.

(** The body of [for p in new_phantoms:], at position [count]. *)
Definition reconcile_entry (self : PhantomSet) (new_phantoms : loc) (count : nat)
    (p : loc) : M (World V) unit :=
  do o <- get_obj p;
  do p <- (match class_ o with
           | mdpopups_Phantom => ret p
           | sublime_Phantom =>
               do p <- new_obj (Phantom__init__ (region o) (content o) (layout o)
                                  false None (on_navigate o) false);
               run list_setitem new_phantoms count p;
               ret p
           end);
  do found <- list_index (phantoms self) p;
  match found with
  | Some idx =>
      do q <- list_getitem (phantoms self) idx;
      do old <- get_obj q;
      modify_obj p (set_id (id old))
  | None =>
      do o <- get_obj p;
      do i <- add_phantom (key self) (region o) (content o) (layout o) (md o) (css o)
                (on_navigate o) (nl2br o);
      modify_obj p (set_id i)
  end.

(** [for p in new_phantoms: ...; count += 1].  The iterator reads the
    list again at every turn; the list keeps its length throughout, so
    [fuel = len(new_phantoms)] turns are what the loop makes. *)
Fixpoint reconcile (self : PhantomSet) (new_phantoms : loc) (fuel count : nat)
    : M (World V) unit :=
  match fuel with
  | O => ret tt
  | S fuel' =>
      do items <- list_items new_phantoms;
      match items !! count with
      | None => ret tt
      | Some p =>
          run reconcile_entry self new_phantoms count p;
          reconcile self new_phantoms fuel' (S count)
      end
  end.

(** [for p in self.phantoms: if p not in new_phantoms and p.region !=
    sublime.Region(-1): erase_phantom_by_id(self.view, p.id)] *)
Fixpoint cleanup (new_phantoms : loc) (olds : list loc) : M (World V) unit :=
  match olds with
  | [] => ret tt
  | p :: rest =>
      do present <- list_contains new_phantoms p;
      do o <- get_obj p;
      run (if negb present && negb (region_eqb (region o) region_deleted)
           then erase_phantom_by_id (id o)
           else ret tt);
      cleanup new_phantoms rest
  end.

(** [PhantomSet.update(self, new_phantoms)]; the result is [self] after
    the assignment to [self.phantoms]. *)
Definition update (self : PhantomSet) (new_phantoms : loc) : M (World V) PhantomSet :=
  do olds <- list_items (phantoms self);
  do pids <- ids_of olds;
  do regions <- query_phantoms pids;
  run refresh_regions self 0%nat regions;
  do items <- list_items new_phantoms;
  run reconcile self new_phantoms (length items) 0%nat;
  do olds <- list_items (phantoms self);
  run cleanup new_phantoms olds;
  ret (set_phantoms new_phantoms self).
End Phantoms.

(** ** A small editor, for concrete runs

    The editor hands out phantom ids in increasing order, keeps the region
    of every phantom on display and reports [Region(-1)] for an id it does
    not display.  The theme is fixed in advance (a stylesheet, or the
    exception [_get_theme] ends in) and Markdown is passed through. *)
Record Editor : Type := mkEditor {
  ed_prefs : settings;
  ed_viewport : ViewPort;
  ed_theme : Res text;
  ed_next_pid : Z;
  ed_on_display : list (Z * Region)
}.

Definition ed_region_of (e : Editor) (p : pid) : Region :=
  match p with
  | Some n =>
      match list_find (fun x => fst x = n) (ed_on_display e) with
      | Some (_, (_, r)) => r
      | None => region_deleted
      end
  | None => region_deleted
  end.

Definition ed_add (r : Region) (e : Editor) : Z * Editor :=
  (ed_next_pid e,
   mkEditor (ed_prefs e) (ed_viewport e) (ed_theme e) (ed_next_pid e + 1)
     (ed_on_display e ++ [(ed_next_pid e, r)])).

Definition ed_erase (p : pid) (e : Editor) : Editor :=
  mkEditor (ed_prefs e) (ed_viewport e) (ed_theme e) (ed_next_pid e)
    (filter (fun x => Some (fst x) ≠ p) (ed_on_display e)).

#[export] Instance Editor_environment : Environment Editor := {|
  env_prefs := ed_prefs;
  env_viewport := ed_viewport;
  env_get_theme := fun _ _ e => (ed_theme e, e);
  env_md2html := fun markup _ e => (Ok markup, e);
  env_stdlib := py33;
  env_int := py33_int;
  env_show_popup := fun _ _ _ _ _ _ _ e => e;
  env_update_popup := fun _ e => e;
  env_add_phantom := fun _ r _ _ _ e => ed_add r e;
  env_erase_phantom_by_id := ed_erase;
  env_query_phantoms := fun pids e => map (ed_region_of e) pids
|}.

Definition no_prefs : settings := fun _ => None.

Definition one_pref (name : string) (v : pyval) : settings :=
  fun k => if String.eqb k name then Some v else None.

Definition viewport_10_100 (selection : list Region) : ViewPort :=
  mkViewPort (mkRegion 10 100) selection.

(** ** Vocabulary of the statements *)

(** Two phantoms agree on the seven fields that [__eq__] reads. *)
Definition same_description (p q : Phantom) : Prop :=
  region p = region q /\ content p = content q /\ layout p = layout q /\
  on_navigate p = on_navigate q /\ md p = md q /\ css p = css q /\ nl2br p = nl2br q.

(** The four references that the pattern's lookahead excludes. *)
Definition excepted_entities : list text :=
  [cp "&amp;"; cp "&lt;"; cp "&gt;"; cp "&nbsp;"].

(** No match of the pattern starts anywhere in [t]. *)
Definition no_reference (lib : Stdlib) (t : text) : Prop :=
  forall i, match_entity lib (drop i t) = None.

(** One lookup in one of the caches, with what the outside provides for it. *)
Inductive lookup : Type :=
  | SchemeLookup (h : Host)
  | HighlighterLookup (h : Host).

Definition lookup_host (op : lookup) : Host :=
  match op with SchemeLookup h => h | HighlighterLookup h => h end.

Definition do_lookup (c : Caches) (op : lookup) : Caches * list cache_event :=
  match op with
  | SchemeLookup h => let '(_, c', evs) := _get_scheme h c in (c', evs)
  | HighlighterLookup h => let '(_, c', evs) := _get_sublime_highlighter h c in (c', evs)
  end.

(** A sequence of lookups from the caches [c]: every lookup with the caches
    it leaves behind and what it did. *)
Fixpoint run_lookups (c : Caches) (ops : list lookup)
  : list (lookup * Caches * list cache_event) :=
  match ops with
  | [] => []
  | op :: rest =>
      let '(c', evs) := do_lookup c op in
      (op, c', evs) :: run_lookups c' rest
  end.

(** Neither cache holds more than [limit] entries. *)
Definition within_limit (limit : Z) (c : Caches) : Prop :=
  Z.of_nat (length (_scheme_cache c)) <= limit /\
  Z.of_nat (length (_highlighter_cache c)) <= limit.

(** The lookup put an entry into its cache. *)
Definition stored (evs : list cache_event) : Prop := exists s, In (Stored s) evs.

(** The caches of the eviction example: [A] was inserted before [B]. *)
Definition scheme_A : Scheme2CSS := mkScheme2CSS (fun _ => None) "a".
Definition scheme_B : Scheme2CSS := mkScheme2CSS (fun _ => None) "b".
Definition scheme_C : Scheme2CSS := mkScheme2CSS (fun _ => None) "c".

Definition caches_A_B : Caches :=
  mkCaches [("A"%string, (scheme_A, ""%string, 0%Q)); ("B"%string, (scheme_B, ""%string, 1%Q))] [].

(** A host whose view uses [scheme] at time [now], with the cache limit set
    to [limit]. *)
Definition host_at (scheme : string) (now : Q) (p : settings) : Host :=
  mkHost p (Some scheme) now now
    (fun _ => Some scheme_C) (fun s => Some (mkSublimeHighlight s)) (Some ""%string).

(** A world around the small editor, with nothing in the store yet. *)
Definition blank_phantom : Phantom :=
  mkPhantom sublime_Phantom region_deleted [] 0 None false None false None.

Definition world_of (e : Editor) : World Editor :=
  mkWorld e [] (fun _ => blank_phantom) (fun _ => []) 0%nat.

(** An editor in which [_get_theme] raises. *)
Definition editor_without_theme : Editor :=
  mkEditor no_prefs (viewport_10_100 []) (Raise LibraryError) 1 [].

(** Two objects that differ in their id at most, in their region at most. *)
Definition same_but_id (o o' : Phantom) : Prop := set_id None o = set_id None o'.

Definition same_but_region (o o' : Phantom) : Prop :=
  set_region region_deleted o = set_region region_deleted o'.

(** The scan of [list.index] and [in] as a function of the store: the
    position, counted from [i], of the first of [items] that is [p] itself
    or equal to it. *)
Fixpoint first_equal (st : loc -> Phantom) (items : list loc) (i : nat) (p : loc)
  : Res (option nat) :=
  match items with
  | [] => Ok None
  | item :: rest =>
      if decide (item = p) then Ok (Some i)
      else
        match Phantom__eq__ (st item) (st p) with
        | Ok true => Ok (Some i)
        | Ok false => first_equal st rest (S i) p
        | Raise e => Raise e
        end
  end.

(** None of [items] is equal to [p]. *)
Definition absent (st : loc -> Phantom) (items : list loc) (p : loc) : bool :=
  match first_equal st items 0%nat p with
  | Ok None => true
  | _ => false
  end.

(** The old record [o] is one whose removal [update] requests: it is not
    among the desired ones and its region is not [Region(-1)]. *)
Definition to_erase (st : loc -> Phantom) (news : list loc) (o : loc) : bool :=
  absent st news o && negb (region_eqb (region (st o)) region_deleted).

(** The record that stands in the desired list for [o] after the second
    loop: [o] itself, or its conversion to the subclass. *)
Definition wrapped (o : Phantom) : Phantom :=
  match class_ o with
  | mdpopups_Phantom => o
  | sublime_Phantom =>
      Phantom__init__ (region o) (content o) (layout o) false None (on_navigate o) false
  end.

(** The [mdpopups.disable] setting is on. *)
Definition disabled {V : Type} `{Environment V} (v : V) : bool :=
  truthy (_get_setting (env_prefs v) "mdpopups.disable" (PyBool false)).

Section Settled.
Context {V : Type} `{Environment V}.

(** What an entry of the desired list has received once its turn is over:
    the id of the first old record equal to it, without any call; or else
    what [add_phantom] returned, [None] and no call when disabled, the
    editor's answer to one [AddPhantom] call otherwise.  The id of the
    old record is the one it held when the turn began. *)
Definition entry_settled (self : PhantomSet) (q : loc) (w w' : World V) : Prop :=
  match first_equal (objs w') (lists w (phantoms self)) 0 q with
  | Ok (Some k) =>
      (exists o, lists w (phantoms self) !! k = Some o /\ id (objs w' q) = id (objs w o)) /\
      calls w' = calls w /\ env w' = env w
  | Ok None =>
      if disabled (env w) then
        id (objs w' q) = None /\ calls w' = calls w /\ env w' = env w
      else
        exists html v1 n,
          html_or_IDK (content (objs w' q)) (md (objs w' q)) (css (objs w' q)) PHANTOM
            (nl2br (objs w' q)) (env w) = (Ok html, v1) /\
          env_add_phantom (key self) (region (objs w' q)) html (layout (objs w' q))
            (on_navigate (objs w' q)) v1 = (n, env w') /\
          id (objs w' q) = Some n /\
          calls w' =
            calls w ++
            [AddPhantom (key self) (region (objs w' q)) html (layout (objs w' q))
               (on_navigate (objs w' q)) n]
  | Raise _ => False
  end.

End Settled.

(** *** The second loop, turn by turn *)

Definition is_add (c : call) : Prop :=
  match c with AddPhantom _ _ _ _ _ _ => True | _ => False end.

(** Where the id that a record holds can come from: none was given (creation
    is disabled), or it is one of [ids], or the answer to one of the
    [AddPhantom] calls in [cs]. *)
Definition id_known (ids : list pid) (cs : list call) (v : pid) : Prop :=
  v = None \/ In v ids \/
  exists key r html l nav n, In (AddPhantom key r html l nav n) cs /\ v = Some n.

(** The calls made between the world [w1] and the later world [w]. *)
Definition made {V : Type} (w1 w : World V) : list call :=
  drop (length (calls w1)) (calls w).

(** The theme, the Markdown conversion and the display primitive
    [add_phantom] leave the settings as they are. *)
Definition settings_kept (V : Type) `{Environment V} : Prop :=
  (forall css kind v, env_prefs (snd (env_get_theme css kind v)) = env_prefs v) /\
  (forall markup nl2br v, env_prefs (snd (env_md2html markup nl2br v)) = env_prefs v) /\
  (forall key r html l nav v,
     env_prefs (snd (env_add_phantom key r html l nav v)) = env_prefs v).

Section Turns.
Context {V : Type} `{Environment V}.

(** One turn of the second loop, told from its outcome: the entry [q] as
    it stands in the store [st], the old list [olds] with the ids its
    records held in [st0], the environment [v] of the moment.  The entry
    is given the id of the first old record equal to it, and nothing is
    asked of the editor; or, having no equal, it is given [None] when
    [mdpopups.disable] is on, and otherwise the editor's answer to one
    [AddPhantom] call that carries the document rendered from the entry
    (or [IDK]).  The result is that id, the calls made and the
    environment afterwards.  (A comparison that raises ends the loop, and
    [html_or_IDK] does not raise: the two cases are listed for
    completeness.) *)
Definition settle_entry (key : string) (st0 st : loc -> Phantom) (olds : list loc)
    (q : loc) (v : V) : pid * list call * V :=
  match first_equal st olds 0 q with
  | Ok (Some k) => (match olds !! k with Some o => id (st0 o) | None => None end, [], v)
  | Ok None =>
      if disabled v then (None, [], v)
      else
        match html_or_IDK (content (st q)) (md (st q)) (css (st q)) PHANTOM
                (nl2br (st q)) v with
        | (Ok html, v1) =>
            let '(n, v2) :=
              env_add_phantom key (region (st q)) html (layout (st q))
                (on_navigate (st q)) v1 in
            (Some n,
             [AddPhantom key (region (st q)) html (layout (st q)) (on_navigate (st q)) n],
             v2)
        | (Raise _, v1) => (None, [], v1)
        end
  | Raise _ => (None, [], v)
  end.

(** The turns for the entries [qs], one after the other: the ids given,
    by position, the calls made, in order, and the environment at the
    end. *)
Fixpoint settle (key : string) (st0 st : loc -> Phantom) (olds qs : list loc) (v : V)
  : list pid * list call * V :=
  match qs with
  | [] => ([], [], v)
  | q :: rest =>
      let '(i, cs, v1) := settle_entry key st0 st olds q v in
      let '(ids, cs', v') := settle key st0 st olds rest v1 in
      (i :: ids, cs ++ cs', v')
  end.

(** Where the second loop stands before turn [i], having started in [w1]:
    the old list, every list other than the desired one and the
    descriptions of all objects are as in [w1]; the
    desired list has its entries from [i] on as in [w1], and before [i]
    the records that stand for them; the only calls made are
    [AddPhantom] calls; the id of an old record, and of a record before
    [i], is none, an id that an old record held in [w1], or the answer to
    one of these calls; the settings are those of [w1] if nothing outside
    writes them. *)
Record reconciled (self : PhantomSet) (nl : loc) (w1 : World V) (i : nat) (w : World V)
  : Prop := mkReconciled {
  rc_next : (next_loc w1 <= next_loc w)%nat;
  rc_olds : lists w (phantoms self) = lists w1 (phantoms self);
  rc_lists : forall l, l <> nl -> lists w l = lists w1 l;
  rc_objs : forall r, (r < next_loc w1)%nat -> same_but_id (objs w r) (objs w1 r);
  rc_len : length (lists w nl) = length (lists w1 nl);
  rc_rest : forall j, (i <= j)%nat -> lists w nl !! j = lists w1 nl !! j;
  rc_done : forall j q, (j < i)%nat -> lists w nl !! j = Some q ->
    exists p,
      lists w1 nl !! j = Some p /\ (q < next_loc w)%nat /\
      same_but_id (objs w q) (wrapped (objs w1 p)) /\
      ((class_ (objs w1 p) = mdpopups_Phantom /\ q = p) \/
       (class_ (objs w1 p) = sublime_Phantom /\ (next_loc w1 <= q)%nat));
  rc_calls : exists adds, calls w = calls w1 ++ adds /\ Forall is_add adds;
  rc_ids : forall r adds,
    In r (lists w1 (phantoms self)) \/
    (exists j, (j < i)%nat /\ lists w nl !! j = Some r) ->
    calls w = calls w1 ++ adds ->
    id_known (map (fun o => id (objs w1 o)) (lists w1 (phantoms self))) adds
      (id (objs w r));
  rc_prefs : settings_kept V -> env_prefs (env w) = env_prefs (env w1)
}.

(** What the turns before [i] have assigned.  An old record that is the
    first of the old list equal to itself still holds the id it held in
    [w1].  The turns are those that [settle] tells: its calls are the
    calls made, its environment the present one, and the id it lists at a
    position is the one that the entry there holds, unless the same
    object stands at a later position before [i], whose turn has then
    assigned its id anew.  If the desired list held no object twice, the
    entries before [i] are all different. *)
Record assigned (self : PhantomSet) (nl : loc) (w1 : World V) (i : nat) (w : World V)
  : Prop := mkAssigned {
  as_firsts : forall k o,
    lists w1 (phantoms self) !! k = Some o ->
    first_equal (objs w) (lists w1 (phantoms self)) 0 o = Ok (Some k) ->
    id (objs w o) = id (objs w1 o);
  as_settle : exists ids,
    settle (key self) (objs w1) (objs w) (lists w1 (phantoms self))
      (take i (lists w nl)) (env w1) = (ids, made w1 w, env w) /\
    forall j q, (j < i)%nat -> lists w nl !! j = Some q ->
      (forall j', (j < j' < i)%nat -> lists w nl !! j' <> Some q) ->
      ids !! j = Some (id (objs w q));
  as_nodup : NoDup (lists w1 nl) -> NoDup (take i (lists w nl))
}.
End Turns.

(** [[p.id for p in self.phantoms]] in the world [w]. *)
Definition old_ids {V : Type} (self : PhantomSet) (w : World V) : list pid :=
  map (fun p => id (objs w p)) (lists w (phantoms self)).

(** Two objects that differ in region and id at most. *)
Definition same_but_region_and_id (o o' : Phantom) : Prop :=
  set_id None (set_region region_deleted o) = set_id None (set_region region_deleted o').

(** The removal requests of [update]: one for every old record to erase. *)
Definition removals (st : loc -> Phantom) (news olds : list loc) : list call :=
  map (fun o => ErasePhantomById (id (st o))) (List.filter (to_erase st news) olds).

(** *** Concrete worlds *)

Definition store_of (os : list Phantom) : loc -> Phantom :=
  fun p => default blank_phantom (os !! p).

Definition lists_of (ls : list (list loc)) : loc -> list loc :=
  fun l => default [] (ls !! l).

(** A world holding the objects [os] and the lists [ls], by position. *)
Definition world_with (e : Editor) (os : list Phantom) (ls : list (list loc)) : World Editor :=
  mkWorld e [] (store_of os) (lists_of ls) (length os).

(** An editor with a working theme that displays the phantoms [shown]. *)
Definition editor_showing (p : settings) (next : Z) (shown : list (Z * Region)) : Editor :=
  mkEditor p (viewport_10_100 []) (Ok []) next shown.

(** The record of the specification's example: region [0, 5], content "a". *)
Definition phantom_a (i : pid) : Phantom :=
  set_id i (Phantom__init__ (mkRegion 0 5) (cp "a") 0 true None None true).

Definition phantom_b : Phantom :=
  Phantom__init__ (mkRegion 0 5) (cp "b") 0 true None None true.

(** The same as an instance of the editor's own class. *)
Definition plain_a : Phantom :=
  mkPhantom sublime_Phantom (mkRegion 0 5) (cp "a") 0 None false None false None.

(** The set of the examples: its list is the list object 0. *)
Definition the_set : PhantomSet := mkPhantomSet "key" 0%nat.

(** Old set [{id=1, region=[0,5], content="a"}], desired [{region=[0,5],
    content="a"}] (list object 1). *)
Definition world_unchanged : World Editor :=
  world_with (editor_showing no_prefs 2 [(1, mkRegion 0 5)])
    [phantom_a (Some 1); phantom_a None] [[0%nat]; [1%nat]].

(** The same old set, desired [{region=[0,5], content="b"}]. *)
Definition world_changed : World Editor :=
  world_with (editor_showing no_prefs 2 [(1, mkRegion 0 5)])
    [phantom_a (Some 1); phantom_b] [[0%nat]; [1%nat]].

(** An empty set and one desired record, with [mdpopups.disable] on. *)
Definition world_disabled : World Editor :=
  world_with (editor_showing (one_pref "mdpopups.disable" (PyBool true)) 1 [])
    [phantom_a None] [[]; [0%nat]].

(** The settings [p] with [name] set to [v]. *)
Definition with_pref (name : string) (v : pyval) (p : settings) : settings :=
  fun k => if String.eqb k name then Some v else p k.

(** [mdpopups.disable] on and [mdpopups.debug] set to a word. *)
Definition prefs_unreadable : settings :=
  with_pref "mdpopups.debug" (PyStr "verbose") (one_pref "mdpopups.disable" (PyBool true)).

(** An empty set and one desired record of the editor's class, under these
    settings. *)
Definition world_unreadable : World Editor :=
  world_with (editor_showing prefs_unreadable 1 []) [plain_a] [[]; [0%nat]].


(** An environment unlike those the module meets: an editor whose theme,
    when asked for, sets the settings to [prefs_unreadable]. *)
Record Meddler : Type := mkMeddler { meddled : Editor }.

#[export] Instance Meddler_environment : Environment Meddler := {|
  env_prefs := fun m => ed_prefs (meddled m);
  env_viewport := fun m => ed_viewport (meddled m);
  env_get_theme := fun _ _ m =>
    (Ok [],
     mkMeddler
       (mkEditor prefs_unreadable (ed_viewport (meddled m)) (ed_theme (meddled m))
          (ed_next_pid (meddled m)) (ed_on_display (meddled m))));
  env_md2html := fun markup _ m => (Ok markup, m);
  env_stdlib := py33;
  env_int := py33_int;
  env_show_popup := fun _ _ _ _ _ _ _ m => m;
  env_update_popup := fun _ m => m;
  env_add_phantom := fun _ r _ _ _ m =>
    (fst (ed_add r (meddled m)), mkMeddler (snd (ed_add r (meddled m))));
  env_erase_phantom_by_id := fun p m => mkMeddler (ed_erase p (meddled m));
  env_query_phantoms := fun pids m => map (ed_region_of (meddled m)) pids
|}.

(** An empty set and two desired records, in that environment, with no
    setting made. *)
Definition world_meddled : World Meddler :=
  mkWorld (mkMeddler (editor_showing no_prefs 1 [])) []
    (store_of [phantom_a None; phantom_b]) (lists_of [[]; [0%nat; 1%nat]]) 2%nat.

(** An empty set and a desired list that holds one record twice. *)
Definition world_repeated : World Editor :=
  world_with (editor_showing no_prefs 1 []) [phantom_a None] [[]; [0%nat; 0%nat]].

(** An empty set and one desired record of the editor's class. *)
Definition world_plain : World Editor :=
  world_with (editor_showing no_prefs 1 []) [plain_a] [[]; [0%nat]].



(** * The console and the rest of the module

    What follows embeds the functions that the statements above leave out:
    the stylesheet functions [_get_user_css] and [_get_theme], [md2html],
    [_MdWrapper.registerExtensions], [tint], [tint_raw],
    [get_language_from_view], [syntax_highlight], [scope2style],
    [PhantomSet.__del__], and once more the cache lookups and the three
    render entry points, now with what they print.  Whatever lies outside
    the file (the resource loader, the Markdown library, the highlighters,
    [int] on a string) is a variable of the section that uses it. *)

(** ** The console *)

(** A computation that prints nothing. *)
Definition quietly {S A : Type} (m : M S A) : M (Logged S) A :=
  fun x => let '(r, s) := m (state x) in (r, mkLogged s (console x)).

(** What [_debug(msg, level)] adds to the console at debug level [n]. *)
Definition debug_line (n : Z) (msg : printed) (level : Z) : list printed :=
  if n >=? level then [msg] else [].

(** The outcome of a computation with the console left aside. *)
Definition forget {S A : Type} (r : Res A * Logged S) : Res A * S :=
  (fst r, state (snd r)).

(** A library whose [unescape] hands every reference back as it is. *)
Definition unescape_nothing : Stdlib :=
  mkStdlib (fun _ => false) (fun _ => false) (fun m => Some m).

(** Two phantoms agree on the four fields that both classes have. *)
Definition same_display (p q : Phantom) : Prop :=
  region p = region q /\ content p = content q /\ layout p = layout q /\
  on_navigate p = on_navigate q.

(** ** The module's globals *)

(** The two caches and [base_css]. *)
Record Globals : Type := mkGlobals {
  caches : Caches;
  base_css : option string
}.


(** The trace of a cache lookup shows whether its [except] branch was
    taken: the constructor was called and no entry was stored. *)
Definition handler_ran (evs : list cache_event) : bool :=
  match evs with
  | [] => false
  | _ => negb (existsb (fun e => match e with Stored _ => true | _ => false end) evs)
  end.

Module Console.

Section Lookups.
Variable int_of_str : string -> option Z.

(** The end of a lookup: the caches are as the lookup left them, and the
    [except] branch, where taken, has printed its message and called
    [_debug(traceback.format_exc(), ERROR)]. *)
Definition after_lookup {A : Type} (h : Host) (failure : string) (r : A) (c : Caches)
    (evs : list cache_event) : M (Logged Globals) A :=
  fun x =>
    let x' := mkLogged (mkGlobals c (base_css (state x))) (console x) in
    if handler_ran evs then
      (run _log (Line failure);
       run _debug int_of_str (prefs h) Traceback ERROR;
       ret r) x'
    else (Ok r, x').

(** [_get_sublime_highlighter(view)], with its console output. *)
Definition _get_sublime_highlighter (h : Host) : M (Logged Globals) (option SublimeHighlight) :=
  fun x =>
    let '(obj, c, evs) := _get_sublime_highlighter h (caches (state x)) in
    after_lookup h "Failed to get Sublime highlighter object!" obj c evs x.

(** [_get_scheme(view)], with its console output. *)
Definition _get_scheme (h : Host) : M (Logged Globals) (option Scheme2CSS * string) :=
  fun x =>
    let '(r, c, evs) := _get_scheme h (caches (state x)) in
    after_lookup h "Failed to convert/retrieve scheme to CSS!" r c evs x.
End Lookups.

Section Entry.
Context {V : Type} `{Environment V}.
Variable int_of_str : string -> option Z.

(** [_debug(msg, level)] under the preferences of the moment. *)
Definition debug_now (msg : printed) (level : Z) : M (Logged V) unit :=
  fun x => _debug int_of_str (env_prefs (state x)) msg level x.

(** [if debug: _debug(title, INFO); _debug(document, INFO)] *)
Definition debug_dump (debug : pyval) (title : string) (document : text)
    : M (Logged V) unit :=
  if truthy debug then
    run debug_now (Line title) INFO;
    debug_now (Dump document) INFO
  else ret tt.

(** [_create_html(view, content, md, css, css_type=..., nl2br=...)] *)
Definition _create_html (content : text) (md : bool) (css : option text)
    (css_type : css_kind) (nl2br : bool) : M (Logged V) text :=
  do debug <- quietly (get_setting "mdpopups.debug" (PyInt NODEBUG));
  run debug_dump debug "=====Content=====" content;
  let css := match css with Some s => s | None => [] end in
  do style <- quietly (env_get_theme css css_type);
  run debug_dump debug "=====CSS=====" style;
  do content <- (if md then quietly (env_md2html content nl2br) else ret content);
  run debug_dump debug "=====HTML OUTPUT=====" content;
  let html := cp "<style>" ++ style ++ cp "</style>" in
  match _remove_entities env_stdlib content with
  | Some body => ret (html ++ body)
  | None => raise LibraryError
  end.

(** [try: html = _create_html(...)  except Exception:
    _log(traceback.format_exc()); html = IDK] *)
Definition html_or_IDK (content : text) (md : bool) (css : option text)
    (css_type : css_kind) (nl2br : bool) : M (Logged V) text :=
  try_except (_create_html content md css css_type nl2br)
    (run _log Traceback; ret IDK).

(** A computation of the environment and the console, run in the world. *)
Definition in_world {A : Type} (m : M (Logged V) A) : M (Logged (World V)) A :=
  fun x =>
    let '(r, y) := m (mkLogged (env (state x)) (console x)) in
    (r, mkLogged (with_env (state y) (state x)) (console y)).

(** [update_popup(view, content, md, css, nl2br)] *)
Definition update_popup (content : text) (md : bool) (css : option text)
    (nl2br : bool) : M (Logged (World V)) unit :=
  do disabled <- quietly (in_env (get_setting "mdpopups.disable" (PyBool false)));
  if truthy disabled then in_world (debug_now (Line "Popups disabled") WARNING)
  else
    do html <- in_world (html_or_IDK content md css POPUP nl2br);
    quietly (fun w =>
      (Ok tt, record_call (UpdatePopup html) (with_env (env_update_popup html (env w)) w))).

(** [show_popup(view, content, md, css, flags, location, max_width,
    max_height, on_navigate, on_hide, nl2br)] *)
Definition show_popup (content : text) (md : bool) (css : option text)
    (flags location max_width max_height : Z) (on_navigate on_hide : callback)
    (nl2br : bool) : M (Logged (World V)) unit :=
  do disabled <- quietly (in_env (get_setting "mdpopups.disable" (PyBool false)));
  if truthy disabled then in_world (debug_now (Line "Popups disabled") WARNING)
  else
    do view <- quietly (fun w => (Ok (env_viewport (env w)), w));
    if negb (_can_show view location) then ret tt
    else
      do html <- in_world (html_or_IDK content md css POPUP nl2br);
      quietly (fun w =>
        (Ok tt,
         record_call
           (ShowPopup html flags location max_width max_height on_navigate on_hide)
           (with_env
              (env_show_popup html flags location max_width max_height on_navigate on_hide
                 (env w))
              w))).

(** [add_phantom(view, key, region, content, layout, md, css, on_navigate,
    nl2br)] *)
Definition add_phantom (key : string) (region : Region) (content : text)
    (layout : Z) (md : bool) (css : option text) (on_navigate : callback)
    (nl2br : bool) : M (Logged (World V)) pid :=
  do disabled <- quietly (in_env (get_setting "mdpopups.disable" (PyBool false)));
  if truthy disabled then
    run in_world (debug_now (Line "Phantoms disabled") WARNING);
    ret None
  else
    do html <- in_world (html_or_IDK content md css PHANTOM nl2br);
    quietly (fun w =>
      let '(n, v) := env_add_phantom key region html layout on_navigate (env w) in
      (Ok (Some n),
       record_call (AddPhantom key region html layout on_navigate n) (with_env v w))).
End Entry.

End Console.

(** ** Stylesheets *)

Definition BASE_CSS : string := "Packages/mdpopups/css/base.css".
Definition DEFAULT_CSS : string := "Packages/mdpopups/css/default.css".
Definition DEFAULT_USER_CSS : string := "Packages/User/mdpopups.css".

Section Stylesheets.
Variable int_of_str : string -> option Z.
(** [sublime.load_resource] and [clean_css] of [st_clean_css], [None]
    where they raise. *)
Variable load_resource : string -> option string.
Variable clean_css : string -> option string.
(** [obj.apply_template(css, css_type, font_size)], [None] where it raises. *)
Variable apply_template : Scheme2CSS -> string -> css_kind -> pyval -> option string.

(** [clean_css(sublime.load_resource(name))]; a name that is no string
    makes the loader raise. *)
Definition load_clean (name : pyval) : option string :=
  match name with
  | PyStr path =>
      match load_resource path with
      | Some css => clean_css css
      | None => None
      end
  | _ => None
  end.

(** [_get_user_css()] *)
Definition _get_user_css (p : settings) : Res string :=
  let user_css := _get_setting p "mdpopups.user_css" (PyStr DEFAULT_USER_CSS) in
  match load_clean user_css with
  | Some css => Ok css
  | None =>
      match load_clean (PyStr DEFAULT_CSS) with
      | Some css => Ok css
      | None => Raise LibraryError
      end
  end.

(** [if base_css is None: base_css = clean_css(sublime.load_resource(BASE_CSS))] *)
Definition load_base_css : M (Logged Globals) string :=
  fun x =>
    match base_css (state x) with
    | Some css => (Ok css, x)
    | None =>
        match load_clean (PyStr BASE_CSS) with
        | Some css => (Ok css, mkLogged (mkGlobals (caches (state x)) (Some css)) (console x))
        | None => (Raise LibraryError, x)
        end
    end.

(** The base stylesheet as [_get_theme] will have it: the one kept in
    [base_css], or else the one loaded now. *)
Definition base_css_now (x : Logged Globals) : option string :=
  match base_css (state x) with
  | Some css => Some css
  | None => load_clean (PyStr BASE_CSS)
  end.

(** [_get_theme(view, css, css_type)]; [font_size] is what
    [view.settings().get('font_size', 12)] returns. *)
Definition _get_theme (h : Host) (font_size : pyval) (css : option string)
    (css_type : css_kind) : M (Logged Globals) string :=
  do base <- load_base_css;
  do found <- Console._get_scheme int_of_str h;
  let '(obj, user_css) := found in
  match obj with
  | None => ret ""%string
  | Some obj =>
      let css := match css with Some s => s | None => ""%string end in
      match apply_template obj (base ++ get_css obj ++ css ++ user_css)%string css_type
              font_size with
      | Some style => ret style
      | None =>
          run _log (Line "Failed to retrieve scheme CSS!");
          run _debug int_of_str (prefs h) Traceback ERROR;
          ret ""%string
      end
  end.
End Stylesheets.

(** A loader that knows the two stylesheets of the package and nothing
    else, and a [clean_css] that changes nothing. *)
Definition package_resources (path : string) : option string :=
  if String.eqb path BASE_CSS then Some "html {}"%string
  else if String.eqb path DEFAULT_CSS then Some "div {}"%string
  else None.

Definition clean_nothing (css : string) : option string := Some css.

(** ** Markdown *)

(** [str.replace(old, new)]: the occurrences of [old] are taken from the
    left and do not overlap; [skip] counts the characters of the current
    occurrence still to be passed over.  An empty [old] occurs before
    every character and at the end. *)
Fixpoint replace_from (old new : text) (skip : nat) (t : text) : text :=
  match t with
  | [] => []
  | c :: t' =>
      match skip with
      | S k => replace_from old new k t'
      | O =>
          if starts_with old t then new ++ replace_from old new (length old - 1) t'
          else c :: replace_from old new 0 t'
      end
  end.

Definition str_replace (old new t : text) : text :=
  match old with
  | [] => new ++ concat (map (fun c => c :: new) t)
  | _ => replace_from old new 0 t
  end.

(** The extensions [md2html] asks for. *)
Definition md_extensions (nl2br : bool) : list string :=
  ["markdown.extensions.attr_list";
   "markdown.extensions.codehilite";
   "mdpopups.mdx.superfences";
   "mdpopups.mdx.betterem";
   "mdpopups.mdx.magiclink";
   "mdpopups.mdx.inlinehilite";
   "markdown.extensions.admonition";
   "markdown.extensions.def_list"]%string
  ++ (if nl2br then ["markdown.extensions.nl2br"%string] else []).

Section Markdown.
Variable int_of_str : string -> option Z.
(** [_MdWrapper(extensions=..., extension_configs=...).convert(markup)]:
    of the configuration only [sublime_hl] varies; [None] where the
    library raises. *)
Variable convert :
  list string -> bool * option SublimeHighlight -> text -> option text.

(** [md2html(view, markup, nl2br)] *)
Definition md2html (h : Host) (markup : text) (nl2br : bool) : M (Logged Globals) text :=
  do sublime_hl <-
    (if truthy (_get_setting (prefs h) "mdpopups.use_sublime_highlighter" PyNone) then
       do highlighter <- Console._get_sublime_highlighter int_of_str h;
       ret (true, highlighter)
     else ret (false, None));
  match convert (md_extensions nl2br) sublime_hl markup with
  | Some html => ret (str_replace [10%N] [] (str_replace (cp "&quot;") [34%N] html))
  | None => raise LibraryError
  end.
End Markdown.

Section Extensions.
Variable int_of_str : string -> option Z.
(** The Markdown instance, an extension object and an extension's
    configuration, as the Markdown library has them. *)
Variables (Md Extension Config : Type).
Variable no_config : Config.

(** What [build_extension] may return, or the caller may list: an
    instance of [Extension], [None], or something else. *)
Inductive built : Type :=
  | AnExtension (e : Extension)
  | NoExtension
  | NotAnExtension.

(** An item of [extensions]: a name to build from, or an object. *)
Inductive listed_extension : Type :=
  | ByName (name : string)
  | Given (o : built).

(** [self.build_extension(name, config)] and [ext.extendMarkdown(self,
    globals())]; either may raise and may have changed the instance by
    then. *)
Variable build_extension : string -> Config -> M Md built.
Variable extendMarkdown : Extension -> M Md unit.

(** The body of the loop of [registerExtensions], under the preferences
    [p]. *)
Definition register (p : settings) (configs : string -> option Config)
    (ext : listed_extension) : M (Logged Md) unit :=
  try_except
    (do ext <- match ext with
               | ByName name =>
                   quietly (build_extension name
                              (match configs name with Some c => c | None => no_config end))
               | Given o => ret o
               end;
     match ext with
     | AnExtension e => quietly (extendMarkdown e)
     | NoExtension => ret tt
     | NotAnExtension => raise LibraryError
     end)
    (run _log (Line "Failed to load markdown module!");
     _debug int_of_str p Traceback ERROR).

(** [_MdWrapper.registerExtensions(self, extensions, configs)]; the
    instance returned is the state. *)
Fixpoint registerExtensions (p : settings) (configs : string -> option Config)
    (extensions : list listed_extension) : M (Logged Md) unit :=
  match extensions with
  | [] => ret tt
  | ext :: rest =>
      run register p configs ext;
      registerExtensions p configs rest
  end.
End Extensions.
Arguments AnExtension {Extension} e.
Arguments NoExtension {Extension}.
Arguments NotAnExtension {Extension}.
Arguments ByName {Extension} name.
Arguments Given {Extension} o.
Arguments register int_of_str {Md Extension Config} no_config build_extension
  extendMarkdown p configs ext.
Arguments registerExtensions int_of_str {Md Extension Config} no_config build_extension
  extendMarkdown p configs extensions.

(** What the [except] branch of [registerExtensions] makes of a failed
    attempt that left the instance [s], the console standing at [out]: the
    message, and the traceback if the debug level asks for it; or the
    exception of [_debug]. *)
Definition load_failed {Md : Type} (int_of_str : string -> option Z) (p : settings)
    (s : Md) (out : list printed) : Res unit * Logged Md :=
  match debug_level int_of_str p with
  | Ok n =>
      (Ok tt,
       mkLogged s (out ++ Line "Failed to load markdown module!" :: debug_line n Traceback ERROR))
  | Raise e => (Raise e, mkLogged s (out ++ [Line "Failed to load markdown module!"]))
  end.

(** A Markdown instance that counts the extensions registered with it;
    the extension [false] raises in [extendMarkdown], and nothing can be
    built from a name. *)
Definition counting_extend (e : bool) : M nat unit :=
  fun md => if e then (Ok tt, S md) else (Raise LibraryError, md).

Definition no_builder (name : string) (config : unit) : M nat (built bool) :=
  raise LibraryError.

(** ** Images *)

Section Images.
Variable int_of_str : string -> option Z.
Variable load_binary_resource : string -> option (list Byte.byte).
(** [imagetint.tint] and [imagetint.tint_raw], [None] where they raise. *)
Variable imagetint_tint :
  list Byte.byte -> string -> Z -> option Z -> option Z -> option text.
Variable imagetint_tint_raw : list Byte.byte -> string -> Z -> option (list Byte.byte).

(** [if isinstance(img, str): try: img = sublime.load_binary_resource(img)
    except Exception: ...]: the bytes, or [None] after the handler. *)
Definition open_image {S : Type} (p : settings) (img : string + list Byte.byte)
    : M (Logged S) (option (list Byte.byte)) :=
  match img with
  | inl path =>
      match load_binary_resource path with
      | Some data => ret (Some data)
      | None =>
          run _log (Line "Could not open binary file!");
          run _debug int_of_str p Traceback ERROR;
          ret None
      end
  | inr data => ret (Some data)
  end.

(** [tint(img, color, opacity, height, width)] *)
Definition tint {S : Type} (p : settings) (img : string + list Byte.byte) (color : string)
    (opacity : Z) (height width : option Z) : M (Logged S) text :=
  do img <- open_image p img;
  match img with
  | None => ret []
  | Some data =>
      match imagetint_tint data color opacity height width with
      | Some r => ret r
      | None => raise LibraryError
      end
  end.

(** [tint_raw(img, color, opacity)]: the bytes, or [inl] the empty string. *)
Definition tint_raw {S : Type} (p : settings) (img : string + list Byte.byte)
    (color : string) (opacity : Z) : M (Logged S) (text + list Byte.byte) :=
  do img <- open_image p img;
  match img with
  | None => ret (inl [])
  | Some data =>
      match imagetint_tint_raw data color opacity with
      | Some r => ret (inr r)
      | None => raise LibraryError
      end
  end.
End Images.

(** ** Languages and highlighting *)

Section Language.
(** [lang_map] of [st_mapping]: a language key, its names and its syntax
    files. *)
Variable lang_map : list (string * (list string * list string)).
(** [os.path.splitext(s.replace('Packages/', '', 1))[0]] *)
Variable syntax_name : string -> string.

(** [syntax in l] *)
Definition listed (syntax : string) (l : list string) : bool :=
  existsb (String.eqb syntax) l.

(** The loop [for key in keys: ...], over the keys in the order the set
    yields them.  An entry of the user's map is a list whose second item
    lists syntax files. *)
Fixpoint first_language (user_map : list (string * list (list string))) (syntax : string)
    (keys : list string) : Res (option string) :=
  match keys with
  | [] => Ok None
  | key :: rest =>
      let v1 := match od_get key lang_map with Some (_, v1) => v1 | None => [] end in
      match (match od_get key user_map with
             | Some entry => entry !! 1%nat
             | None => Some []
             end) with
      | Some v2 =>
          if listed syntax (v2 ++ v1) then Ok (Some key)
          else first_language user_map syntax rest
      | None => Raise IndexError
      end
  end.

(** [get_language_from_view(view)]: [user_map] is the value of
    [mdpopups.sublime_user_lang_map] (empty when unset), [syntax] the
    view's setting, [keys] the keys of both maps in the order in which the
    set of them is gone through. *)
Definition get_language_from_view (user_map : list (string * list (list string)))
    (syntax : option string) (keys : list string) : Res (option string) :=
  match syntax with
  | None => Raise AttributeError
  | Some s => first_language user_map (syntax_name s) keys
  end.
End Language.

(** The language [key] lists the syntax file: in the built-in map, or in
    the second item of the user's entry for it. *)
Definition lists_syntax (lang_map : list (string * (list string * list string)))
    (user_map : list (string * list (list string))) (key syntax : string) : Prop :=
  (exists names v1, od_get key lang_map = Some (names, v1) /\ In syntax v1) \/
  (exists entry v2,
     od_get key user_map = Some entry /\ entry !! 1%nat = Some v2 /\ In syntax v2).

(** Every entry of the user's map has a second item. *)
Definition user_map_complete (user_map : list (string * list (list string))) : Prop :=
  forall key entry, od_get key user_map = Some entry -> exists v2, entry !! 1%nat = Some v2.

(** A built-in map of two languages, and a user's map that adds a syntax
    file to the first. *)
Definition two_languages : list (string * (list string * list string)) :=
  [("python", (["python"; "py"], ["Python/Python"]));
   ("css", (["css"], ["CSS/CSS"]))]%string.

Definition user_adds_python : list (string * list (list string)) :=
  [("python", [["python"]; ["MagicPython/grammars/MagicPython"]])]%string.

Section Highlight.
Variable int_of_str : string -> option Z.
(** [highlighter.syntax_highlight(src, language, inline=...)] and
    [pyg_syntax_hl] of [st_pygments_highlight], [None] where they raise. *)
Variable highlighter_syntax_highlight :
  SublimeHighlight -> text -> option string -> bool -> option text.
Variable pyg_syntax_hl : text -> option string -> bool -> option text.

(** [syntax_highlight(view, src, language, inline)] *)
Definition syntax_highlight (h : Host) (src : text) (language : option string)
    (inline : bool) : M (Logged Globals) text :=
  try_except
    (if truthy (_get_setting (prefs h) "mdpopups.use_sublime_highlighter" PyNone) then
       do highlighter <- Console._get_sublime_highlighter int_of_str h;
       match highlighter with
       | Some hl =>
           match highlighter_syntax_highlight hl src language inline with
           | Some code => ret code
           | None => raise LibraryError
           end
       | None => raise AttributeError
       end
     else
       match pyg_syntax_hl src language inline with
       | Some code => ret code
       | None => raise LibraryError
       end)
    (run _log (Line "Failed to highlight code!");
     run _debug int_of_str (prefs h) Traceback ERROR;
     ret src).

(** What [guess_style] returns, and the dict [scope2style] makes of it. *)
Record StyleObject : Type := mkStyleObject {
  fg_simulated : option string;
  bg_simulated : option string;
  style : string
}.

Record StyleDict : Type := mkStyleDict {
  sd_color : option string;
  sd_background : option string;
  sd_style : string
}.

(** [obj.guess_style(scope, selected, explicit_background)], [None] where
    it raises. *)
Variable guess_style : Scheme2CSS -> string -> bool -> bool -> option StyleObject.

(** [scope2style(view, scope, selected, explicit_background)] *)
Definition scope2style (h : Host) (scope : string) (selected explicit_background : bool)
    : M (Logged Globals) StyleDict :=
  do found <- Console._get_scheme int_of_str h;
  match fst found with
  | None => raise AttributeError
  | Some obj =>
      match guess_style obj scope selected explicit_background with
      | Some style_obj =>
          ret (mkStyleDict (fg_simulated style_obj) (bg_simulated style_obj)
                 (style style_obj))
      | None => raise LibraryError
      end
  end.
End Highlight.

(** ** [PhantomSet.__del__] *)

Section Delete.
Context {V : Type} `{Environment V}.

(** [for p in items: erase_phantom_by_id(self.view, p.id)] *)
Fixpoint erase_all (items : list loc) : M (World V) unit :=
  match items with
  | [] => ret tt
  | p :: rest =>
      do o <- get_obj p;
      run erase_phantom_by_id (id o);
      erase_all rest
  end.

(** [PhantomSet.__del__(self)] *)
Definition PhantomSet__del__ (self : PhantomSet) : M (World V) unit :=
  do items <- list_items (phantoms self);
  erase_all items.
End Delete.

(** * Proofs *)

(** * Visibility guard *)

Lemma can_show_at_location (view : ViewPort) (location : Z) :
  0 <= location ->
  _can_show view location = true <-> contains_point (visible_region view) location.
Proof.
  intros Hloc. unfold _can_show, contains_point.
  destruct (Z.geb_spec location 0) as [_|Hneg]; [|lia].
  destruct (Z.gtb_spec (begin_ (visible_region view)) location),
           (Z.ltb_spec (end_ (visible_region view)) location); simpl;
    split; intros; try discriminate; try lia; reflexivity.
Qed.

Lemma can_show_at_selection (view : ViewPort) (location : Z) (s : Region) (rest : list Region) :
  location < 0 -> sel view = s :: rest ->
  _can_show view location = true <-> contains_point (visible_region view) (b s).
Proof.
  intros Hloc Hsel. unfold _can_show, contains_point. rewrite Hsel.
  destruct (Z.geb_spec location 0) as [Hpos|_]; [lia|].
  destruct (Z.gtb_spec (begin_ (visible_region view)) (b s)),
           (Z.ltb_spec (end_ (visible_region view)) (b s)); simpl;
    split; intros; try discriminate; try lia; reflexivity.
Qed.

Lemma can_show_nothing_to_anchor (view : ViewPort) (location : Z) :
  location < 0 -> sel view = [] -> _can_show view location = false.
Proof.
  intros Hloc Hsel. unfold _can_show. rewrite Hsel.
  destruct (Z.geb_spec location 0); [lia | reflexivity].
Qed.

(** C5. [_can_show] answers true for a location [>= 0] exactly when the
    visible region contains the location; for a negative location and a
    non-empty selection exactly when the visible region contains the active
    end [b] of the first selection; and false when there is neither.  With
    the viewport [10, 100]: location 50 can be shown, location 150 cannot,
    and neither can a first selection ending at 5 with no location given. *)
Theorem can_show_spec (view : ViewPort) (location : Z) :
  (0 <= location ->
     (_can_show view location = true <-> contains_point (visible_region view) location)) /\
  (location < 0 -> forall s rest, sel view = s :: rest ->
     (_can_show view location = true <-> contains_point (visible_region view) (b s))) /\
  (location < 0 -> sel view = [] -> _can_show view location = false) /\
  (forall selection, _can_show (viewport_10_100 selection) 50 = true) /\
  (forall selection, _can_show (viewport_10_100 selection) 150 = false) /\
  (forall anchor rest, _can_show (viewport_10_100 (mkRegion anchor 5 :: rest)) (-1) = false).
Proof.
  split; [apply can_show_at_location|].
  split; [intros Hloc s rest Hsel; exact (can_show_at_selection view location s rest Hloc Hsel)|].
  split; [apply can_show_nothing_to_anchor|].
  repeat split; reflexivity.
Qed.

Lemma can_show_spec_witness :
  (_can_show (viewport_10_100 []) 50 = true <->
     contains_point (visible_region (viewport_10_100 [])) 50) /\
  (_can_show (viewport_10_100 [mkRegion 3 5]) (-1) = true <->
     contains_point (visible_region (viewport_10_100 [mkRegion 3 5])) 5) /\
  _can_show (viewport_10_100 []) (-1) = false.
Proof.
  split; [|split].
  - apply (proj1 (can_show_spec (viewport_10_100 []) 50)). lia.
  - apply (proj1 (proj2 (can_show_spec (viewport_10_100 [mkRegion 3 5]) (-1)))
             ltac:(lia) (mkRegion 3 5) []). reflexivity.
  - apply (proj1 (proj2 (proj2 (can_show_spec (viewport_10_100 []) (-1))))); [lia | reflexivity].
Defined.

(** * Phantom equality *)

Lemma region_eqb_eq (r s : Region) : region_eqb r s = true <-> r = s.
Proof.
  destruct r as [ra rb], s as [sa sb]. unfold region_eqb. simpl.
  rewrite andb_true_iff, !Z.eqb_eq. split.
  - intros [-> ->]. reflexivity.
  - intros [= -> ->]. split; reflexivity.
Qed.

Lemma region_eqb_neq (r s : Region) : region_eqb r s = false <-> r <> s.
Proof.
  rewrite <- region_eqb_eq. destruct (region_eqb r s); split; congruence.
Qed.

(** Turns the outcome of every test of [__eq__] into the (in)equation it
    decides. *)
Ltac reflect_tests :=
  repeat match goal with
  | H : region_eqb _ _ = true |- _ => apply region_eqb_eq in H
  | H : region_eqb _ _ = false |- _ => apply region_eqb_neq in H
  | H : bool_decide _ = true |- _ => apply bool_decide_eq_true in H
  | H : bool_decide _ = false |- _ => apply bool_decide_eq_false in H
  | H : (_ =? _) = true |- _ => apply Z.eqb_eq in H
  | H : (_ =? _) = false |- _ => apply Z.eqb_neq in H
  | H : Bool.eqb _ _ = true |- _ => apply eqb_prop in H
  | H : Bool.eqb _ _ = false |- _ => apply eqb_false_iff in H
  end.

Lemma Phantom__eq__decides (p q : Phantom) :
  class_ p = mdpopups_Phantom -> class_ q = mdpopups_Phantom ->
  (Phantom__eq__ p q = Ok true /\ same_description p q) \/
  (Phantom__eq__ p q = Ok false /\ ~ same_description p q).
Proof.
  intros Hp Hq. unfold Phantom__eq__, same_description. rewrite Hp, Hq.
  destruct (region_eqb (region p) (region q)) eqn:E1;
  destruct (bool_decide (content p = content q)) eqn:E2;
  destruct (layout p =? layout q) eqn:E3;
  destruct (bool_decide (on_navigate p = on_navigate q)) eqn:E4; simpl;
  try (right; split; [reflexivity|]; reflect_tests; intros (?&?&?&?&_); congruence).
  destruct (Bool.eqb (md p) (md q)) eqn:E5;
  destruct (bool_decide (css p = css q)) eqn:E6;
  destruct (Bool.eqb (nl2br p) (nl2br q)) eqn:E7; simpl;
  try (right; split; [reflexivity|]; reflect_tests; intros (_&_&_&_&?&?&?); congruence).
  left. reflect_tests. repeat split; assumption.
Qed.

Lemma Phantom__eq__ignores_id (p q : Phantom) (i j : pid) :
  Phantom__eq__ (set_id i p) (set_id j q) = Phantom__eq__ p q.
Proof. reflexivity. Qed.

(** C6. Two [mdpopups.Phantom] records are equal exactly when they agree on
    region, content, layout, navigation callback, Markdown flag, css and
    line-break mode; the id plays no part, so whatever ids the two records
    are given the comparison comes out the same. *)
Theorem phantom_equality_fields (p q : Phantom) :
  class_ p = mdpopups_Phantom -> class_ q = mdpopups_Phantom ->
  (Phantom__eq__ p q = Ok true <-> same_description p q) /\
  (Phantom__eq__ p q = Ok false <-> ~ same_description p q) /\
  (forall i j, Phantom__eq__ (set_id i p) (set_id j q) = Phantom__eq__ p q) /\
  (forall i j, same_description p q -> Phantom__eq__ (set_id i p) (set_id j q) = Ok true).
Proof.
  intros Hp Hq.
  destruct (Phantom__eq__decides p q Hp Hq) as [[E D]|[E D]]; rewrite E.
  - split; [tauto|]. split; [split; [discriminate | contradiction]|].
    split; intros; rewrite Phantom__eq__ignores_id; assumption.
  - split; [split; [discriminate | contradiction]|]. split; [tauto|].
    split; intros; rewrite Phantom__eq__ignores_id; [assumption | contradiction].
Qed.

Lemma phantom_equality_fields_witness :
  Phantom__eq__
    (set_id (Some 1) (Phantom__init__ (mkRegion 0 5) (cp "a") 0 true None None true))
    (set_id (Some 2) (Phantom__init__ (mkRegion 0 5) (cp "a") 0 true None None true))
  = Ok true.
Proof.
  apply (proj2 (proj2 (proj2
    (phantom_equality_fields
       (Phantom__init__ (mkRegion 0 5) (cp "a") 0 true None None true)
       (Phantom__init__ (mkRegion 0 5) (cp "a") 0 true None None true)
       eq_refl eq_refl)))).
  repeat split; reflexivity.
Defined.

(** * Caches *)

Section OrderedDictFacts.
Context {V : Type}.
Implicit Types (d : odict V) (kv : string * V).

Lemma od_popitem_last_snoc d kv : od_popitem_last (d ++ [kv]) = Some (kv, d).
Proof.
  induction d as [|x d IH]; [reflexivity|].
  change ((x :: d) ++ [kv]) with (x :: (d ++ [kv])).
  simpl. rewrite IH. destruct (d ++ [kv]) eqn:E; [|reflexivity].
  destruct d; discriminate.
Qed.

(** The loop keeps the [limit - 1] oldest items and drops every newer one. *)
Lemma prune_loop_keeps_oldest (fuel : nat) (limit : Z) d :
  1 <= limit -> (length d <= fuel)%nat ->
  prune_loop fuel limit d = Some (take (Z.to_nat (limit - 1)) d).
Proof.
  intros Hlimit. revert d. induction fuel as [|fuel IH]; intros d Hfuel.
  - destruct d; [|simpl in Hfuel; lia]. cbn [prune_loop].
    destruct (Z.geb_spec (Z.of_nat (length (@nil (string * V)))) limit) as [Hge|Hlt];
      [simpl in Hge; lia|]. now rewrite take_nil.
  - cbn [prune_loop]. destruct (Z.geb_spec (Z.of_nat (length d)) limit) as [Hge|Hlt].
    + destruct (exists_last (l := d)) as (d' & kv & ->).
      { intros ->. simpl in Hge. lia. }
      rewrite od_popitem_last_snoc. rewrite length_app in Hge, Hfuel. simpl in Hge, Hfuel.
      rewrite IH by lia. f_equal. symmetry. apply take_app_le. lia.
    + f_equal. symmetry. apply take_ge. lia.
Qed.

Lemma od_set_length (k : string) (v : V) d :
  (length (od_set k v d) <= S (length d))%nat.
Proof.
  induction d as [|[k' v'] d IH]; simpl; [lia|].
  destruct (String.eqb k k'); simpl; lia.
Qed.

Lemma od_get_set (k : string) (v : V) d : od_get k (od_set k v d) = Some v.
Proof.
  induction d as [|[k' v'] d IH]; simpl.
  - now rewrite String.eqb_refl.
  - destruct (String.eqb k k') eqn:E; simpl; [now rewrite String.eqb_refl | now rewrite E].
Qed.
End OrderedDictFacts.

Lemma cache_limit_positive (p : settings) : 1 <= cache_limit p.
Proof.
  unfold cache_limit.
  destruct (_get_setting p "mdpopups.cache_limit" (PyInt 10)) as [| [] | z | | |]; simpl; try lia.
  destruct (Z.leb_spec z 0); lia.
Qed.

(** [_prune_cache] never raises; of either cache it keeps the
    [limit - 1] oldest entries. *)
Lemma _prune_cache_keeps_oldest (h : Host) (c : Caches) :
  _prune_cache h c =
    Some (mkCaches (take (Z.to_nat (cache_limit (prefs h) - 1)) (_scheme_cache c))
                   (take (Z.to_nat (cache_limit (prefs h) - 1)) (_highlighter_cache c))).
Proof.
  unfold _prune_cache. pose proof (cache_limit_positive (prefs h)).
  rewrite !prune_loop_keeps_oldest by lia. reflexivity.
Qed.

Lemma _prune_cache_below_limit (h : Host) (c c1 : Caches) :
  _prune_cache h c = Some c1 ->
  Z.of_nat (length (_scheme_cache c1)) <= cache_limit (prefs h) - 1 /\
  Z.of_nat (length (_highlighter_cache c1)) <= cache_limit (prefs h) - 1 /\
  (length (_scheme_cache c1) <= length (_scheme_cache c))%nat /\
  (length (_highlighter_cache c1) <= length (_highlighter_cache c))%nat.
Proof.
  rewrite _prune_cache_keeps_oldest. intros [= <-]. simpl.
  pose proof (cache_limit_positive (prefs h)). rewrite !length_take. lia.
Qed.

(** C1 (evaluated on the code). Pruning keeps the oldest entries of either
    cache and evicts from the newest end: with a limit of 2 and the scheme
    cache holding [A] (inserted first) and [B], [_prune_cache] evicts [B],
    and a lookup of a third scheme [C] leaves [A] and [C] in the cache. *)
Theorem prune_evicts_newest :
  (forall h c,
     _prune_cache h c =
       Some (mkCaches (take (Z.to_nat (cache_limit (prefs h) - 1)) (_scheme_cache c))
                      (take (Z.to_nat (cache_limit (prefs h) - 1)) (_highlighter_cache c)))) /\
  (let h := host_at "C" 2 (one_pref "mdpopups.cache_limit" (PyInt 2)) in
   (_scheme_cache <$> _prune_cache h caches_A_B) =
     Some [("A"%string, (scheme_A, ""%string, 0%Q))] /\
   _scheme_cache (snd (fst (_get_scheme h caches_A_B))) =
     [("A"%string, (scheme_A, ""%string, 0%Q)); ("C"%string, (scheme_C, ""%string, 2%Q))]).
Proof.
  split; [exact _prune_cache_keeps_oldest|]. split; reflexivity.
Qed.

(** A lookup that stores leaves both caches within the limit in force. *)
Lemma do_lookup_stored (c : Caches) (op : lookup) :
  stored (snd (do_lookup c op)) ->
  within_limit (cache_limit (prefs (lookup_host op))) (fst (do_lookup c op)).
Proof.
  intros [s Hs]. destruct op as [h|h]; simpl in *.
  - unfold _get_scheme in *. destruct (color_scheme h) as [scheme|]; [|destruct Hs].
    destruct (match od_get scheme (_scheme_cache c) with
              | Some (obj, user_css, t) =>
                  if _is_cache_expired h t || pygments_changed h obj
                  then (None, ""%string) else (Some obj, user_css)
              | None => (None, ""%string)
              end) as [[obj|] user_css]; [destruct Hs|].
    destruct (new_Scheme2CSS h scheme) as [obj|]; [|simpl in Hs; intuition discriminate].
    destruct (_prune_cache h c) as [c1|] eqn:Ep; [|simpl in Hs; intuition discriminate].
    destruct (user_css_loaded h) as [css|]; [|simpl in Hs; intuition discriminate].
    apply _prune_cache_below_limit in Ep as (H1 & H2 & _). simpl. split; simpl; [|lia].
    pose proof (od_set_length scheme (obj, css, time_at_store h) (_scheme_cache c1)). lia.
  - unfold _get_sublime_highlighter in *. destruct (color_scheme h) as [scheme|]; [|destruct Hs].
    destruct (match od_get scheme (_highlighter_cache c) with
              | Some (obj, t) => if _is_cache_expired h t then None else Some obj
              | None => None
              end) as [obj|]; [destruct Hs|].
    destruct (new_SublimeHighlight h scheme) as [obj|]; [|simpl in Hs; intuition discriminate].
    destruct (_prune_cache h c) as [c1|] eqn:Ep; [|simpl in Hs; intuition discriminate].
    apply _prune_cache_below_limit in Ep as (H1 & H2 & _). simpl. split; simpl; [lia|].
    pose proof (od_set_length scheme (obj, time_at_store h) (_highlighter_cache c1)). lia.
Qed.

(** Under a limit that stays the same, no lookup takes a cache beyond it. *)
Lemma do_lookup_within (c : Caches) (op : lookup) :
  within_limit (cache_limit (prefs (lookup_host op))) c ->
  within_limit (cache_limit (prefs (lookup_host op))) (fst (do_lookup c op)).
Proof.
  intros [Hs Hh]. destruct op as [h|h]; simpl in *.
  - unfold _get_scheme. destruct (color_scheme h) as [scheme|]; [|split; assumption].
    destruct (match od_get scheme (_scheme_cache c) with
              | Some (obj, user_css, t) =>
                  if _is_cache_expired h t || pygments_changed h obj
                  then (None, ""%string) else (Some obj, user_css)
              | None => (None, ""%string)
              end) as [[obj|] user_css]; [split; assumption|].
    destruct (new_Scheme2CSS h scheme) as [obj|]; [|split; assumption].
    destruct (_prune_cache h c) as [c1|] eqn:Ep; [|split; assumption].
    apply _prune_cache_below_limit in Ep as (H1 & H2 & H3 & H4).
    destruct (user_css_loaded h) as [css|]; simpl; split; simpl; try lia.
    pose proof (od_set_length scheme (obj, css, time_at_store h) (_scheme_cache c1)). lia.
  - unfold _get_sublime_highlighter. destruct (color_scheme h) as [scheme|]; [|split; assumption].
    destruct (match od_get scheme (_highlighter_cache c) with
              | Some (obj, t) => if _is_cache_expired h t then None else Some obj
              | None => None
              end) as [obj|]; [split; assumption|].
    destruct (new_SublimeHighlight h scheme) as [obj|]; [|split; assumption].
    destruct (_prune_cache h c) as [c1|] eqn:Ep; [|split; assumption].
    apply _prune_cache_below_limit in Ep as (H1 & H2 & H3 & H4). simpl. split; simpl; [lia|].
    pose proof (od_set_length scheme (obj, time_at_store h) (_highlighter_cache c1)). lia.
Qed.

Lemma run_lookups_stored (c : Caches) (ops : list lookup) :
  Forall (fun '(op, c', evs) =>
            stored evs -> within_limit (cache_limit (prefs (lookup_host op))) c')
         (run_lookups c ops).
Proof.
  revert c. induction ops as [|op ops IH]; intros c; simpl; [constructor|].
  pose proof (do_lookup_stored c op) as Hst.
  destruct (do_lookup c op) as [c' evs]. constructor; [exact Hst | apply IH].
Qed.

Lemma run_lookups_within (limit : Z) (c : Caches) (ops : list lookup) :
  within_limit limit c ->
  Forall (fun op => cache_limit (prefs (lookup_host op)) = limit) ops ->
  Forall (fun '(_, c', _) => within_limit limit c') (run_lookups c ops).
Proof.
  revert c. induction ops as [|op ops IH]; intros c Hc Hops; simpl; [constructor|].
  inversion Hops as [|? ? Hop Hrest]; subst.
  pose proof (do_lookup_within c op Hc) as Hin.
  destruct (do_lookup c op) as [c' evs]. constructor; [exact Hin | apply IH; assumption].
Qed.

Lemma cache_limit_cases (p : settings) :
  (p "mdpopups.cache_limit"%string = None -> cache_limit p = 10) /\
  (forall v, p "mdpopups.cache_limit"%string = Some v -> as_int v = None -> cache_limit p = 10) /\
  (forall v n, p "mdpopups.cache_limit"%string = Some v -> as_int v = Some n -> n <= 0 ->
     cache_limit p = 10) /\
  (forall v n, p "mdpopups.cache_limit"%string = Some v -> as_int v = Some n -> 0 < n ->
     cache_limit p = n).
Proof.
  unfold cache_limit, _get_setting. repeat split.
  - intros ->. reflexivity.
  - intros v -> Hv. destruct v; simpl in *; try discriminate; reflexivity.
  - intros v n -> Hv Hn. destruct v as [| [] | z | | |]; simpl in *; try discriminate;
      injection Hv as <-; try lia; try reflexivity.
    destruct (Z.leb_spec z 0); [reflexivity | lia].
  - intros v n -> Hv Hn. destruct v as [| [] | z | | |]; simpl in *; try discriminate;
      injection Hv as <-; try lia; try reflexivity.
    destruct (Z.leb_spec z 0); [lia | reflexivity].
Qed.

(** C2. In every sequence of lookups, from whatever caches it starts, each
    lookup that inserts an entry (a scheme built by [_get_scheme] or a
    highlighter built by [_get_sublime_highlighter]) leaves both caches with
    at most [limit] entries, [limit] being the limit configured at that
    lookup; while the configured limit stays the same, caches within it stay
    within it at every step.  The limit is 10 when the setting is absent,
    when its value is not an [int], or when it is zero or negative, and the
    configured value otherwise. *)
Theorem cache_size_within_limit (c : Caches) (ops : list lookup) :
  Forall (fun '(op, c', evs) =>
            stored evs -> within_limit (cache_limit (prefs (lookup_host op))) c')
         (run_lookups c ops) /\
  (forall limit,
     within_limit limit c ->
     Forall (fun op => cache_limit (prefs (lookup_host op)) = limit) ops ->
     Forall (fun '(_, c', _) => within_limit limit c') (run_lookups c ops)) /\
  (forall p,
     (p "mdpopups.cache_limit"%string = None -> cache_limit p = 10) /\
     (forall v, p "mdpopups.cache_limit"%string = Some v -> as_int v = None ->
        cache_limit p = 10) /\
     (forall v n, p "mdpopups.cache_limit"%string = Some v -> as_int v = Some n -> n <= 0 ->
        cache_limit p = 10) /\
     (forall v n, p "mdpopups.cache_limit"%string = Some v -> as_int v = Some n -> 0 < n ->
        cache_limit p = n)).
Proof.
  split; [apply run_lookups_stored|].
  split; [intros limit; apply run_lookups_within | apply cache_limit_cases].
Qed.

(** Three schemes looked up under a limit of 2, from the caches holding
    [A] and [B]. *)
Lemma cache_size_within_limit_witness :
  let p := one_pref "mdpopups.cache_limit" (PyInt 2) in
  let ops := [SchemeLookup (host_at "C" 2 p); HighlighterLookup (host_at "C" 3 p);
              SchemeLookup (host_at "D" 4 p)] in
  Forall (fun '(_, c', _) => within_limit 2 c') (run_lookups caches_A_B ops).
Proof.
  intros p ops.
  apply (proj1 (proj2 (cache_size_within_limit caches_A_B ops)) 2).
  - split; simpl; lia.
  - repeat constructor.
Defined.

Lemma refresh_minutes_cases (p : settings) :
  (p "mdpopups.cache_refresh_time"%string = None -> refresh_minutes p = 30) /\
  (forall v, p "mdpopups.cache_refresh_time"%string = Some v -> as_int v = None ->
     refresh_minutes p = 30) /\
  (forall v n, p "mdpopups.cache_refresh_time"%string = Some v -> as_int v = Some n -> n < 0 ->
     refresh_minutes p = 30) /\
  (forall v n, p "mdpopups.cache_refresh_time"%string = Some v -> as_int v = Some n -> 0 <= n ->
     refresh_minutes p = n).
Proof.
  unfold refresh_minutes, _get_setting. repeat split.
  - intros ->. reflexivity.
  - intros v -> ->. reflexivity.
  - intros v n -> -> Hn. destruct (Z.ltb_spec n 0); [reflexivity | lia].
  - intros v n -> -> Hn. destruct (Z.ltb_spec n 0); [lia | reflexivity].
Qed.

Lemma _is_cache_expired_iff (h : Host) (t : Q) :
  _is_cache_expired h t = true <->
  refresh_minutes (prefs h) = 0 \/
  (inject_Z (refresh_minutes (prefs h) * 60) <= time_at_check h - t)%Q.
Proof.
  unfold _is_cache_expired. rewrite orb_true_iff, Z.eqb_eq, Qle_bool_iff. reflexivity.
Qed.

Lemma pygments_changed_iff (h : Host) (obj : Scheme2CSS) :
  let use_sublime :=
    truthy (_get_setting (prefs h) "mdpopups.use_sublime_highlighter" (PyBool false)) in
  (forall u, variables obj "use_pygments"%string = Some (PyBool u) ->
     (pygments_changed h obj = true <-> negb u <> use_sublime)) /\
  (variables obj "use_pygments"%string = None ->
     (pygments_changed h obj = true <-> use_sublime = true)).
Proof.
  intros use_sublime. unfold pygments_changed. fold use_sublime. split.
  - intros u ->. simpl. destruct u, use_sublime; simpl; split; congruence.
  - intros ->. simpl. destruct use_sublime; simpl; split; congruence.
Qed.

Lemma _get_scheme_on_hit (h : Host) (c : Caches) (scheme : string)
    (obj : Scheme2CSS) (user_css : string) (t : Q) :
  color_scheme h = Some scheme ->
  od_get scheme (_scheme_cache c) = Some (obj, user_css, t) ->
  (In (Built scheme) (snd (_get_scheme h c)) <->
     _is_cache_expired h t = true \/ pygments_changed h obj = true) /\
  (_is_cache_expired h t = false -> pygments_changed h obj = false ->
     _get_scheme h c = ((Some obj, user_css), c, [])).
Proof.
  intros Hs Hc. unfold _get_scheme. rewrite Hs, Hc.
  destruct (_is_cache_expired h t) eqn:Ee; simpl.
  - split; [|discriminate]. split; [auto|]. intros _.
    destruct (new_Scheme2CSS h scheme); [|now left].
    destruct (_prune_cache h c); [|now left].
    destruct (user_css_loaded h); now left.
  - destruct (pygments_changed h obj) eqn:Ep; simpl.
    + split; [|discriminate]. split; [auto|]. intros _.
      destruct (new_Scheme2CSS h scheme); [|now left].
      destruct (_prune_cache h c); [|now left].
      destruct (user_css_loaded h); now left.
    + split; [|reflexivity]. split; [intros [] | intros [|]; discriminate].
Qed.

(** A cached entry that is expired, or built for the other highlighter,
    counts for nothing: the lookup does what it does for a scheme that is
    not in the cache. *)
Lemma _get_scheme_on_miss (h : Host) (c : Caches) (scheme : string)
    (obj : Scheme2CSS) (user_css : string) (t : Q) :
  color_scheme h = Some scheme ->
  od_get scheme (_scheme_cache c) = Some (obj, user_css, t) ->
  _is_cache_expired h t = true \/ pygments_changed h obj = true ->
  _get_scheme h c =
    match new_Scheme2CSS h scheme with
    | None => ((None, ""%string), c, [Built scheme])
    | Some new =>
        match user_css_loaded h with
        | None =>
            ((Some new, ""%string),
             mkCaches (take (Z.to_nat (cache_limit (prefs h) - 1)) (_scheme_cache c))
                      (take (Z.to_nat (cache_limit (prefs h) - 1)) (_highlighter_cache c)),
             [Built scheme; Pruned])
        | Some css =>
            ((Some new, css),
             mkCaches
               (od_set scheme (new, css, time_at_store h)
                  (take (Z.to_nat (cache_limit (prefs h) - 1)) (_scheme_cache c)))
               (take (Z.to_nat (cache_limit (prefs h) - 1)) (_highlighter_cache c)),
             [Built scheme; Pruned; Stored scheme])
        end
    end.
Proof.
  intros Hs Hc Hmiss. unfold _get_scheme. rewrite Hs, Hc.
  assert (_is_cache_expired h t || pygments_changed h obj = true) as ->.
  { apply orb_true_iff. exact Hmiss. }
  rewrite _prune_cache_keeps_oldest.
  destruct (new_Scheme2CSS h scheme); [|reflexivity].
  destruct (user_css_loaded h); reflexivity.
Qed.

(** The same with the console: when the converter or the loading of the
    stylesheet raises, the [except] branch prints its message and calls
    [_debug], whose exception, if [int] rejects the debug level, is the
    outcome of the lookup. *)
Lemma _get_scheme_on_failure (int_of_str : string -> option Z) (h : Host)
    (scheme : string) (obj : Scheme2CSS) (user_css : string) (t : Q) (x : Logged Globals) :
  color_scheme h = Some scheme ->
  od_get scheme (_scheme_cache (caches (state x))) = Some (obj, user_css, t) ->
  _is_cache_expired h t = true \/ pygments_changed h obj = true ->
  new_Scheme2CSS h scheme = None \/ user_css_loaded h = None ->
  let kept :=
    match new_Scheme2CSS h scheme with
    | None => caches (state x)
    | Some _ =>
        mkCaches
          (take (Z.to_nat (cache_limit (prefs h) - 1)) (_scheme_cache (caches (state x))))
          (take (Z.to_nat (cache_limit (prefs h) - 1)) (_highlighter_cache (caches (state x))))
    end in
  Console._get_scheme int_of_str h x =
    match debug_level int_of_str (prefs h) with
    | Ok n =>
        (Ok (new_Scheme2CSS h scheme, ""%string),
         mkLogged (mkGlobals kept (base_css (state x)))
           (console x ++
            Line "Failed to convert/retrieve scheme to CSS!" :: debug_line n Traceback ERROR))
    | Raise e =>
        (Raise e,
         mkLogged (mkGlobals kept (base_css (state x)))
           (console x ++ [Line "Failed to convert/retrieve scheme to CSS!"]))
    end.
Proof.
  intros Hs Hc Hmiss Hfail kept. unfold Console._get_scheme.
  rewrite (_get_scheme_on_miss h (caches (state x)) scheme obj user_css t Hs Hc Hmiss).
  assert (forall (r : option Scheme2CSS * string) (c : Caches) (evs : list cache_event),
            handler_ran evs = true ->
            Console.after_lookup int_of_str h "Failed to convert/retrieve scheme to CSS!"
              r c evs x =
              match debug_level int_of_str (prefs h) with
              | Ok n =>
                  (Ok r,
                   mkLogged (mkGlobals c (base_css (state x)))
                     (console x ++
                      Line "Failed to convert/retrieve scheme to CSS!"
                        :: debug_line n Traceback ERROR))
              | Raise e =>
                  (Raise e,
                   mkLogged (mkGlobals c (base_css (state x)))
                     (console x ++ [Line "Failed to convert/retrieve scheme to CSS!"]))
              end) as Hafter.
  { intros r c evs Hran. unfold Console.after_lookup. rewrite Hran.
    unfold bind, _log, _debug, debug_line. cbn [state console].
    destruct (debug_level int_of_str (prefs h)) as [n|e]; [|reflexivity].
    destruct (n >=? ERROR); unfold _log, ret; cbn [state console].
    - rewrite <- app_assoc. reflexivity.
    - reflexivity. }
  subst kept. destruct (new_Scheme2CSS h scheme) as [new|]; [|now apply Hafter].
  destruct Hfail as [Hfail|Hfail]; [discriminate|]. rewrite Hfail. now apply Hafter.
Qed.

(** C3. When [_get_scheme] finds the view's scheme in the cache, it goes on
    to build the scheme anew exactly when the entry is expired or the
    highlighter recorded in the cached object is no longer the one the
    [use_sublime_highlighter] setting selects.  Otherwise it returns the
    cached pair and leaves the caches alone.  If it does build anew, the
    cached entry counts for nothing.  When the converter returns and the
    stylesheet loads, the result is the converter's new object with that
    stylesheet, both caches are pruned, and the new object is stored under
    the scheme with the time of storing, so that the next lookup finds it in
    place of the old entry.  When the converter or the loading raises, the
    [except] branch prints its message and calls [_debug]: the lookup
    returns what the converter made, if anything, with an empty
    stylesheet, and stores nothing; or it ends in the exception of [_debug]
    if [int] rejects the debug level.  An entry is expired when the refresh
    time is 0, or when the time since it was stored is at least the refresh
    time in minutes; the refresh time is 30 when the setting is absent, not
    an [int] or negative, and the configured value otherwise. *)
Theorem cached_scheme_rebuilt_iff (h : Host) (c : Caches) (scheme : string)
    (obj : Scheme2CSS) (user_css : string) (t : Q) :
  color_scheme h = Some scheme ->
  od_get scheme (_scheme_cache c) = Some (obj, user_css, t) ->
  (In (Built scheme) (snd (_get_scheme h c)) <->
     _is_cache_expired h t = true \/ pygments_changed h obj = true) /\
  (_is_cache_expired h t = false -> pygments_changed h obj = false ->
     _get_scheme h c = ((Some obj, user_css), c, [])) /\
  (forall new css,
     _is_cache_expired h t = true \/ pygments_changed h obj = true ->
     new_Scheme2CSS h scheme = Some new -> user_css_loaded h = Some css ->
     _get_scheme h c =
       ((Some new, css),
        mkCaches
          (od_set scheme (new, css, time_at_store h)
             (take (Z.to_nat (cache_limit (prefs h) - 1)) (_scheme_cache c)))
          (take (Z.to_nat (cache_limit (prefs h) - 1)) (_highlighter_cache c)),
        [Built scheme; Pruned; Stored scheme]) /\
     od_get scheme (_scheme_cache (snd (fst (_get_scheme h c))))
       = Some (new, css, time_at_store h)) /\
  (forall int_of_str out css0,
     _is_cache_expired h t = true \/ pygments_changed h obj = true ->
     new_Scheme2CSS h scheme = None \/ user_css_loaded h = None ->
     let kept :=
       match new_Scheme2CSS h scheme with
       | None => c
       | Some _ =>
           mkCaches (take (Z.to_nat (cache_limit (prefs h) - 1)) (_scheme_cache c))
                    (take (Z.to_nat (cache_limit (prefs h) - 1)) (_highlighter_cache c))
       end in
     Console._get_scheme int_of_str h (mkLogged (mkGlobals c css0) out) =
       match debug_level int_of_str (prefs h) with
       | Ok n =>
           (Ok (new_Scheme2CSS h scheme, ""%string),
            mkLogged (mkGlobals kept css0)
              (out ++
               Line "Failed to convert/retrieve scheme to CSS!"
                 :: debug_line n Traceback ERROR))
       | Raise e =>
           (Raise e,
            mkLogged (mkGlobals kept css0)
              (out ++ [Line "Failed to convert/retrieve scheme to CSS!"]))
       end) /\
  (_is_cache_expired h t = true <->
     refresh_minutes (prefs h) = 0 \/
     (inject_Z (refresh_minutes (prefs h) * 60) <= time_at_check h - t)%Q) /\
  ((prefs h "mdpopups.cache_refresh_time"%string = None -> refresh_minutes (prefs h) = 30) /\
   (forall v, prefs h "mdpopups.cache_refresh_time"%string = Some v -> as_int v = None ->
      refresh_minutes (prefs h) = 30) /\
   (forall v n, prefs h "mdpopups.cache_refresh_time"%string = Some v -> as_int v = Some n ->
      n < 0 -> refresh_minutes (prefs h) = 30) /\
   (forall v n, prefs h "mdpopups.cache_refresh_time"%string = Some v -> as_int v = Some n ->
      0 <= n -> refresh_minutes (prefs h) = n)) /\
  (let use_sublime :=
     truthy (_get_setting (prefs h) "mdpopups.use_sublime_highlighter" (PyBool false)) in
   (forall u, variables obj "use_pygments"%string = Some (PyBool u) ->
      (pygments_changed h obj = true <-> negb u <> use_sublime)) /\
   (variables obj "use_pygments"%string = None ->
      (pygments_changed h obj = true <-> use_sublime = true))).
Proof.
  intros Hs Hc. destruct (_get_scheme_on_hit h c scheme obj user_css t Hs Hc) as [H1 H2].
  split; [exact H1|]. split; [exact H2|].
  split.
  { intros new css Hmiss Hnew Hcss.
    rewrite (_get_scheme_on_miss h c scheme obj user_css t Hs Hc Hmiss), Hnew, Hcss.
    cbn [fst snd _scheme_cache]. split; [reflexivity | apply od_get_set]. }
  split.
  { intros int_of_str out css0 Hmiss Hfail.
    exact (_get_scheme_on_failure int_of_str h scheme obj user_css t
             (mkLogged (mkGlobals c css0) out) Hs Hc Hmiss Hfail). }
  split; [apply _is_cache_expired_iff|].
  split; [apply refresh_minutes_cases | apply pygments_changed_iff].
Qed.

(** The entry [B] of the example caches, stored at time 1, looked up at time
    1801 with no setting changed: 30 minutes have passed, and the lookup
    returns and stores the converter's new object. *)
Lemma cached_scheme_rebuilt_iff_witness :
  fst (fst (_get_scheme (host_at "B" 1801 no_prefs) caches_A_B)) = (Some scheme_C, ""%string) /\
  od_get "B" (_scheme_cache (snd (fst (_get_scheme (host_at "B" 1801 no_prefs) caches_A_B))))
    = Some (scheme_C, ""%string, 1801%Q).
Proof.
  destruct (cached_scheme_rebuilt_iff (host_at "B" 1801 no_prefs) caches_A_B
              "B" scheme_B "" 1%Q eq_refl eq_refl) as (_ & _ & Hnew & _).
  destruct (Hnew scheme_C ""%string) as [Hrun Hstored]; [left|..]; try reflexivity.
  split; [rewrite Hrun; reflexivity | exact Hstored].
Defined.

(** * Entity sanitizer *)

Lemma span_app (p : N -> bool) (t w r : text) : span p t = (w, r) -> t = w ++ r.
Proof.
  revert w r. induction t as [|c t IH]; intros w r; simpl.
  - intros [= <- <-]. reflexivity.
  - destruct (p c).
    + destruct (span p t) as [w' r'] eqn:E. intros [= <- <-].
      simpl. f_equal. apply IH. reflexivity.
    + intros [= <- <-]. reflexivity.
Qed.

Lemma span_run (p : N -> bool) (w : text) (s : N) (rest : text) :
  Forall (fun c => p c = true) w -> p s = false -> span p (w ++ s :: rest) = (w, s :: rest).
Proof.
  intros Hw Hs. induction Hw as [|c w Hc _ IH]; simpl.
  - now rewrite Hs.
  - now rewrite Hc, IH.
Qed.

Lemma span_all (p : N -> bool) (t w r : text) :
  span p t = (w, r) -> Forall (fun c => p c = true) w.
Proof.
  revert w r. induction t as [|c t IH]; intros w r; simpl.
  - intros [= <- <-]. constructor.
  - destruct (p c) eqn:Ec.
    + destruct (span p t) as [w' r'] eqn:E. intros [= <- <-].
      constructor; [assumption | eapply IH; reflexivity].
    + intros [= <- <-]. constructor.
Qed.

Section SanitizerFacts.
Variable lib : Stdlib.

Lemma sub_entities_skip (m rest : text) :
  sub_entities lib (length m) (m ++ rest) = sub_entities lib 0 rest.
Proof. induction m as [|c m IH]; [reflexivity | exact IH]. Qed.

(** A match is a prefix of the text: [&], a body, [;]. *)
Lemma match_entity_prefix (t m rest : text) :
  match_entity lib t = Some (m, rest) ->
  t = m ++ rest /\ exists body, m = AMP :: body ++ [SEMI].
Proof.
  destruct t as [|c t1]; [discriminate|]. unfold match_entity.
  destruct (N.eqb_spec c AMP) as [->|]; [|discriminate].
  destruct (excepted t1); [discriminate|]. simpl.
  destruct (span (re_word lib) t1) as [w r] eqn:Ew. apply span_app in Ew as ->.
  destruct w as [|x w].
  - destruct r as [|h t2]; [discriminate|].
    destruct (N.eqb_spec h HASH) as [->|]; [|discriminate].
    destruct (span (re_digit lib) t2) as [d r] eqn:Ed. apply span_app in Ed as ->.
    destruct d as [|y d]; [discriminate|]. destruct r as [|s r]; [discriminate|].
    destruct (N.eqb_spec s SEMI) as [->|]; [|discriminate].
    intros [= <- <-]. split.
    + simpl. rewrite <- !app_assoc. reflexivity.
    + exists (HASH :: y :: d). reflexivity.
  - destruct r as [|s r]; [discriminate|].
    destruct (N.eqb_spec s SEMI) as [->|]; [|discriminate].
    intros [= <- <-]. split.
    + simpl. rewrite <- !app_assoc. reflexivity.
    + exists (x :: w). reflexivity.
Qed.

Lemma _remove_entities_at_match (t m rest : text) :
  match_entity lib t = Some (m, rest) ->
  _remove_entities lib t =
    match unescape lib m with
    | Some u =>
        match _remove_entities lib rest with
        | Some r => Some (u ++ r)
        | None => None
        end
    | None => None
    end.
Proof.
  intros Hm. destruct (match_entity_prefix t m rest Hm) as [-> [body ->]].
  unfold _remove_entities. cbn [app sub_entities]. cbn [app] in Hm. rewrite Hm.
  destruct (unescape lib (AMP :: body ++ [SEMI])); [|reflexivity].
  replace (length (AMP :: body ++ [SEMI]) - 1)%nat with (length (body ++ [SEMI]))
    by (cbn [length]; lia).
  rewrite sub_entities_skip. reflexivity.
Qed.

Lemma _remove_entities_no_match (c : N) (t : text) :
  match_entity lib (c :: t) = None ->
  _remove_entities lib (c :: t) = cons c <$> _remove_entities lib t.
Proof.
  intros Hm. unfold _remove_entities. cbn [sub_entities]. rewrite Hm.
  destruct (sub_entities lib 0 t); reflexivity.
Qed.

Lemma match_entity_not_amp (c : N) (t : text) : c <> AMP -> match_entity lib (c :: t) = None.
Proof.
  intros Hc. unfold match_entity. destruct (N.eqb_spec c AMP); [contradiction | reflexivity].
Qed.
End SanitizerFacts.

Section SanitizerSpec.
Variable lib : Stdlib.

Lemma _remove_entities_excepted (e rest : text) :
  In e excepted_entities ->
  _remove_entities lib (e ++ rest) = app e <$> _remove_entities lib rest.
Proof.
  unfold _remove_entities.
  intros [<-|[<-|[<-|[<-|[]]]]]; cbn; destruct (sub_entities lib 0 rest); reflexivity.
Qed.

Lemma _remove_entities_copy (rest : text) :
  unescape lib (cp "&copy;") = Some [169%N] ->
  _remove_entities lib (cp "&copy;" ++ rest) = app [169%N] <$> _remove_entities lib rest.
Proof.
  intros Hu. rewrite (_remove_entities_at_match lib _ (cp "&copy;") rest) by reflexivity.
  rewrite Hu. destruct (_remove_entities lib rest); reflexivity.
Qed.

Lemma _remove_entities_65 (rest : text) :
  unescape lib (cp "&#65;") = Some (cp "A") ->
  _remove_entities lib (cp "&#65;" ++ rest) = app (cp "A") <$> _remove_entities lib rest.
Proof.
  intros Hu. rewrite (_remove_entities_at_match lib _ (cp "&#65;") rest) by reflexivity.
  rewrite Hu. destruct (_remove_entities lib rest); reflexivity.
Qed.

Lemma _remove_entities_no_reference (t : text) :
  no_reference lib t -> _remove_entities lib t = Some t.
Proof.
  induction t as [|c t IH]; intros Hno; [reflexivity|].
  rewrite _remove_entities_no_match by exact (Hno 0%nat).
  rewrite IH; [reflexivity|]. intros i. exact (Hno (S i)).
Qed.

Lemma no_amp_no_reference (t : text) : ~ In AMP t -> no_reference lib t.
Proof.
  intros Hno i. destruct (drop i t) as [|c t'] eqn:E; [reflexivity|].
  apply match_entity_not_amp. intros ->. apply Hno.
  apply list_elem_of_In. apply (subseteq_drop i t). rewrite E. left.
Qed.
End SanitizerSpec.

Section SanitizerTheorem.
Variable lib : Stdlib.

Lemma re_word_SEMI : re_word lib SEMI = false. Proof. reflexivity. Qed.
Lemma re_word_HASH : re_word lib HASH = false. Proof. reflexivity. Qed.
Lemma re_digit_SEMI : re_digit lib SEMI = false. Proof. reflexivity. Qed.

(** What the pattern matches at the head of a text: [&], then a run of
    word characters or [#] and a run of digits, then [;], unless the text
    goes on after [&] with [amp;], [lt;], [gt;] or [nbsp;]. *)
Lemma match_entity_iff (t m rest : text) :
  match_entity lib t = Some (m, rest) <->
  exists body,
    m = AMP :: body ++ [SEMI] /\ t = m ++ rest /\
    excepted (body ++ SEMI :: rest) = false /\
    ((body <> [] /\ Forall (fun c => re_word lib c = true) body) \/
     (exists d, body = HASH :: d /\ d <> [] /\ Forall (fun c => re_digit lib c = true) d)).
Proof.
  split.
  - destruct t as [|c t1]; [discriminate|]. unfold match_entity.
    destruct (N.eqb_spec c AMP) as [->|]; [|discriminate].
    destruct (excepted t1) eqn:Ex; [discriminate|]. simpl.
    destruct (span (re_word lib) t1) as [w r] eqn:Ew.
    pose proof (span_all _ _ _ _ Ew) as Hall. apply span_app in Ew as ->.
    destruct w as [|x w].
    + destruct r as [|h t2]; [discriminate|].
      destruct (N.eqb_spec h HASH) as [->|]; [|discriminate].
      destruct (span (re_digit lib) t2) as [d r] eqn:Ed.
      pose proof (span_all _ _ _ _ Ed) as Hd. apply span_app in Ed as ->.
      destruct d as [|y d]; [discriminate|]. destruct r as [|s r]; [discriminate|].
      destruct (N.eqb_spec s SEMI) as [->|]; [|discriminate].
      intros [= <- <-]. exists (HASH :: y :: d). split; [reflexivity|].
      split; [simpl; rewrite <- !app_assoc; reflexivity|].
      split; [exact Ex|].
      right. exists (y :: d). repeat split; [discriminate | exact Hd].
    + destruct r as [|s r]; [discriminate|].
      destruct (N.eqb_spec s SEMI) as [->|]; [|discriminate].
      intros [= <- <-]. exists (x :: w). split; [reflexivity|].
      split; [simpl; rewrite <- !app_assoc; reflexivity|].
      split; [exact Ex|]. left. split; [discriminate | exact Hall].
  - intros (body & -> & -> & Hex & Hbody).
    cbn [app match_entity]. rewrite N.eqb_refl. rewrite <- app_assoc. cbn [app].
    rewrite Hex. cbn [negb andb].
    destruct Hbody as [[Hne Hw] | (d & -> & Hne & Hd)].
    + rewrite (span_run _ body SEMI rest Hw re_word_SEMI).
      destruct body; [contradiction|]. rewrite N.eqb_refl. reflexivity.
    + cbn [app span]. rewrite re_word_HASH, N.eqb_refl.
      rewrite (span_run _ d SEMI rest Hd re_digit_SEMI).
      destruct d; [contradiction|]. rewrite N.eqb_refl. reflexivity.
Qed.
End SanitizerTheorem.

(** C4, amended. For every library and every text, the sanitizer makes one
    pass from the left.  Where the pattern matches (an ampersand, then one
    or more word characters or a hash and one or more decimal digits, then a
    semicolon, the four references [&amp;], [&lt;], [&gt;], [&nbsp;]
    excluded) the match is replaced by what [unescape] returns for it and
    the pass goes on behind the match; any other character is copied.  So
    the four excepted references stay as they are, [&copy;] becomes the
    copyright sign and [&#65;] becomes [A] as soon as [unescape] decodes
    them so, and a text in which no match starts anywhere (in particular a
    text without an ampersand) comes back unchanged. *)
Theorem sanitizer_single_pass (lib : Stdlib) :
  (forall t m rest,
     match_entity lib t = Some (m, rest) <->
     exists body,
       m = AMP :: body ++ [SEMI] /\ t = m ++ rest /\
       excepted (body ++ SEMI :: rest) = false /\
       ((body <> [] /\ Forall (fun c => re_word lib c = true) body) \/
        (exists d, body = HASH :: d /\ d <> [] /\
                   Forall (fun c => re_digit lib c = true) d))) /\
  (forall t m rest,
     match_entity lib t = Some (m, rest) ->
     _remove_entities lib t =
       match unescape lib m with
       | Some u =>
           match _remove_entities lib rest with
           | Some r => Some (u ++ r)
           | None => None
           end
       | None => None
       end) /\
  (forall c t,
     match_entity lib (c :: t) = None ->
     _remove_entities lib (c :: t) = cons c <$> _remove_entities lib t) /\
  (forall e rest,
     In e excepted_entities ->
     _remove_entities lib (e ++ rest) = app e <$> _remove_entities lib rest) /\
  (forall rest,
     unescape lib (cp "&copy;") = Some [169%N] ->
     _remove_entities lib (cp "&copy;" ++ rest) = app [169%N] <$> _remove_entities lib rest) /\
  (forall rest,
     unescape lib (cp "&#65;") = Some (cp "A") ->
     _remove_entities lib (cp "&#65;" ++ rest) = app (cp "A") <$> _remove_entities lib rest) /\
  (forall t, no_reference lib t -> _remove_entities lib t = Some t) /\
  (forall t, ~ In AMP t -> _remove_entities lib t = Some t).
Proof.
  split; [apply match_entity_iff|].
  split; [apply _remove_entities_at_match|].
  split; [apply _remove_entities_no_match|].
  split; [apply _remove_entities_excepted|].
  split; [apply _remove_entities_copy|].
  split; [apply _remove_entities_65|].
  split; [apply _remove_entities_no_reference|].
  intros t Ht. apply _remove_entities_no_reference, no_amp_no_reference, Ht.
Qed.

(** With the interpreter's [unescape]: the two references of the
    specification are decoded, the four excepted ones are kept. *)
Lemma sanitizer_single_pass_witness :
  _remove_entities py33 (cp "&copy;" ++ cp "&amp;&lt;&gt;&nbsp;") =
    Some ([169%N] ++ cp "&amp;&lt;&gt;&nbsp;") /\
  _remove_entities py33 (cp "&#65;" ++ []) = Some (cp "A").
Proof.
  split.
  - rewrite (proj1 (proj2 (proj2 (proj2 (proj2 (sanitizer_single_pass py33)))))
               (cp "&amp;&lt;&gt;&nbsp;") eq_refl).
    reflexivity.
  - rewrite (proj1 (proj2 (proj2 (proj2 (proj2 (proj2 (sanitizer_single_pass py33))))))
               [] eq_refl).
    reflexivity.
Defined.

(** C4 as stated fails: the sanitizer is not idempotent.  It turns
    [&#38;copy;] into [&copy;], and a second pass turns that into the
    copyright sign.  Nor is every numeric reference decoded: a hexadecimal
    one is not matched and stays. *)
Lemma sanitizer_not_idempotent :
  _remove_entities py33 (cp "&#38;copy;") = Some (cp "&copy;") /\
  _remove_entities py33 (cp "&copy;") = Some [169%N] /\
  (_remove_entities py33 (cp "&#38;copy;") ≫= _remove_entities py33)
    <> _remove_entities py33 (cp "&#38;copy;") /\
  _remove_entities py33 (cp "&#x41;") = Some (cp "&#x41;").
Proof.
  split; [reflexivity|]. split; [reflexivity|]. split; [|reflexivity].
  vm_compute. discriminate.
Qed.

(** * Render entry points *)

Section MonadFacts.
Context {S A B : Type}.

Lemma bind_inv (m : M S A) (k : A -> M S B) (s s2 : S) (r : Res B) :
  bind m k s = (r, s2) ->
  (exists x s1, m s = (Ok x, s1) /\ k x s1 = (r, s2)) \/
  (exists e, m s = (Raise e, s2) /\ r = Raise e).
Proof.
  unfold bind. destruct (m s) as [[x|e] s1].
  - intros Hk. left. eauto.
  - intros [= <- <-]. right. eauto.
Qed.

Lemma bind_ok (m : M S A) (k : A -> M S B) (s s1 : S) (x : A) :
  m s = (Ok x, s1) -> bind m k s = k x s1.
Proof. unfold bind. now intros ->. Qed.
End MonadFacts.

Section RenderFacts.
Context {V : Type} `{Environment V}.

(** Without the console, [_debug] returns or raises as [int] does, and
    changes nothing. *)
Lemma debug_now_spec (msg : printed) (level : Z) (v : V) :
  debug_now msg level v =
    match debug_level env_int (env_prefs v) with
    | Ok _ => (Ok tt, v)
    | Raise e => (Raise e, v)
    end.
Proof.
  unfold debug_now, silent, _debug. cbn [state].
  destruct (debug_level env_int (env_prefs v)) as [n|e]; [|reflexivity].
  destruct (n >=? level); reflexivity.
Qed.

Lemma debug_dump_keeps (debug : pyval) (title : string) (document : text) (v v1 : V)
    (r : Res unit) :
  debug_dump debug title document v = (r, v1) -> v1 = v.
Proof.
  unfold debug_dump. destruct (truthy debug); [|now intros [= _ <-]].
  unfold bind. rewrite debug_now_spec.
  destruct (debug_level env_int (env_prefs v)) eqn:E; [|now intros [= _ <-]].
  rewrite debug_now_spec, E. now intros [= _ <-].
Qed.

(** [_create_html] leaves the settings as the theme and the Markdown
    conversion leave them. *)
Lemma _create_html_prefs (content : text) (md : bool) (css : option text)
    (kind : css_kind) (nl2br : bool) (v v1 : V) (r : Res text) :
  settings_kept V ->
  _create_html content md css kind nl2br v = (r, v1) -> env_prefs v1 = env_prefs v.
Proof.
  intros (Htheme & Hmd & _). unfold _create_html.
  intros Hrun. apply bind_inv in Hrun as [(debug & va & Hg & Hrun)|(e & Hg & _)].
  2:{ unfold get_setting in Hg. discriminate. }
  unfold get_setting in Hg. injection Hg as _ <-.
  apply bind_inv in Hrun as [([] & va & Hd & Hrun)|(e & Hd & _)].
  2:{ apply debug_dump_keeps in Hd. now subst. }
  apply debug_dump_keeps in Hd. subst va.
  apply bind_inv in Hrun as [(style & va & Ht & Hrun)|(e & Ht & _)].
  2:{ rewrite <- (Htheme (match css with Some s => s | None => [] end) kind v), Ht.
      reflexivity. }
  assert (env_prefs va = env_prefs v) as Ha.
  { rewrite <- (Htheme (match css with Some s => s | None => [] end) kind v), Ht.
    reflexivity. }
  apply bind_inv in Hrun as [([] & vb & Hd & Hrun)|(e & Hd & _)].
  2:{ apply debug_dump_keeps in Hd. now subst. }
  apply debug_dump_keeps in Hd. subst vb.
  assert (forall rc vc,
            (if md then env_md2html content nl2br else ret content) va = (rc, vc) ->
            env_prefs vc = env_prefs v) as Hconv.
  { intros rc vc Hc. rewrite <- Ha. destruct md.
    - rewrite <- (Hmd content nl2br va), Hc. reflexivity.
    - unfold ret in Hc. now injection Hc as _ <-. }
  apply bind_inv in Hrun as [(content' & vb & Hc & Hrun)|(e & Hc & _)].
  2:{ exact (Hconv _ _ Hc). }
  apply Hconv in Hc.
  apply bind_inv in Hrun as [([] & vc & Hd & Hrun)|(e & Hd & _)].
  2:{ apply debug_dump_keeps in Hd. now subst. }
  apply debug_dump_keeps in Hd. subst vc.
  destruct (_remove_entities env_stdlib content');
    unfold ret, raise in Hrun; now injection Hrun as _ <-.
Qed.

(** The fallback never raises. *)
Lemma html_or_IDK_returns (content : text) (md : bool) (css : option text)
    (kind : css_kind) (nl2br : bool) (v : V) :
  exists html v1, html_or_IDK content md css kind nl2br v = (Ok html, v1).
Proof.
  unfold html_or_IDK, try_except.
  destruct (_create_html content md css kind nl2br v) as [[html|e] v1]; eauto.
Qed.

Lemma html_or_IDK_on_error (content : text) (md : bool) (css : option text)
    (kind : css_kind) (nl2br : bool) (v v1 : V) (e : exn) :
  _create_html content md css kind nl2br v = (Raise e, v1) ->
  html_or_IDK content md css kind nl2br v = (Ok IDK, v1).
Proof. unfold html_or_IDK, try_except. now intros ->. Qed.

Lemma html_or_IDK_prefs (content : text) (md : bool) (css : option text)
    (kind : css_kind) (nl2br : bool) (v v1 : V) (r : Res text) :
  settings_kept V ->
  html_or_IDK content md css kind nl2br v = (r, v1) -> env_prefs v1 = env_prefs v.
Proof.
  intros Hkept. unfold html_or_IDK, try_except.
  destruct (_create_html content md css kind nl2br v) as [[html|e] va] eqn:Hc.
  - intros [= _ <-]. exact (_create_html_prefs _ _ _ _ _ _ _ _ Hkept Hc).
  - unfold bind, silent, _log, ret. cbn [state]. intros [= _ <-].
    exact (_create_html_prefs _ _ _ _ _ _ _ _ Hkept Hc).
Qed.

(** What [add_phantom] does.  When disabled: nothing but [_debug], whose
    exception, if [int] rejects the debug level, is the outcome.
    Otherwise one call of the display primitive with the document, whose
    answer it returns.  The store is not touched. *)
Lemma add_phantom_spec (key : string) (region : Region) (content : text) (layout : Z)
    (md : bool) (css : option text) (on_navigate : callback) (nl2br : bool) (w : World V) :
  if disabled (env w)
  then
    add_phantom key region content layout md css on_navigate nl2br w =
      match debug_level env_int (env_prefs (env w)) with
      | Ok _ => (Ok None, w)
      | Raise e => (Raise e, w)
      end
  else
    exists html v1 n v2,
      html_or_IDK content md css PHANTOM nl2br (env w) = (Ok html, v1) /\
      env_add_phantom key region html layout on_navigate v1 = (n, v2) /\
      add_phantom key region content layout md css on_navigate nl2br w =
        (Ok (Some n),
         mkWorld v2 (calls w ++ [AddPhantom key region html layout on_navigate n])
           (objs w) (lists w) (next_loc w)).
Proof.
  unfold disabled, add_phantom, bind, in_env, get_setting, ret. cbn [env with_env].
  destruct (truthy _).
  - rewrite debug_now_spec. destruct w as [v cs os ls nx]. cbn [env with_env].
    destruct (debug_level env_int (env_prefs v)); reflexivity.
  - destruct (html_or_IDK_returns content md css PHANTOM nl2br (env w)) as (html & v1 & Hh).
    destruct (env_add_phantom key region html layout on_navigate v1) as [n v2] eqn:Ea.
    exists html, v1, n, v2. split; [exact Hh|]. split; [exact Ea|].
    cbn [env with_env]. rewrite Hh. cbn [env with_env]. rewrite Ea. reflexivity.
Qed.

Lemma update_popup_spec (content : text) (md : bool) (css : option text) (nl2br : bool)
    (w : World V) :
  disabled (env w) = false ->
  exists html v1,
    html_or_IDK content md css POPUP nl2br (env w) = (Ok html, v1) /\
    update_popup content md css nl2br w =
      (Ok tt, record_call (UpdatePopup html) (with_env (env_update_popup html v1) w)).
Proof.
  unfold disabled, update_popup, bind, in_env, get_setting, ret. cbn [env with_env].
  intros ->. cbn [env with_env].
  destruct (html_or_IDK_returns content md css POPUP nl2br (env w)) as (html & v1 & Hh).
  exists html, v1. split; [exact Hh|]. rewrite Hh. destruct w; reflexivity.
Qed.

Lemma show_popup_spec (content : text) (md : bool) (css : option text)
    (flags location max_width max_height : Z) (on_navigate on_hide : callback)
    (nl2br : bool) (w : World V) :
  disabled (env w) = false ->
  if _can_show (env_viewport (env w)) location then
    exists html v1,
      html_or_IDK content md css POPUP nl2br (env w) = (Ok html, v1) /\
      show_popup content md css flags location max_width max_height on_navigate on_hide
        nl2br w =
        (Ok tt,
         record_call
           (ShowPopup html flags location max_width max_height on_navigate on_hide)
           (with_env
              (env_show_popup html flags location max_width max_height on_navigate on_hide
                 v1)
              w))
  else
    show_popup content md css flags location max_width max_height on_navigate on_hide
      nl2br w = (Ok tt, w).
Proof.
  destruct w as [v cs os ls nx].
  unfold disabled, show_popup, bind, in_env, get_setting, ret. cbn [env with_env].
  intros ->. destruct (_can_show _ location); cbn [negb]; [|reflexivity].
  cbn [env with_env].
  destruct (html_or_IDK_returns content md css POPUP nl2br v) as (html & v1 & Hh).
  exists html, v1. split; [exact Hh|]. rewrite Hh. reflexivity.
Qed.

(** C9. Let [mdpopups.disable] be off, so that the document is assembled
    at all.  Then none of [update_popup], [show_popup] and [add_phantom]
    ends in an exception, whatever [_create_html] does; and when
    [_create_html] raises, the display primitive is called all the same
    (for [show_popup]: if the popup can be shown) and receives the fixed
    document [IDK], in the environment that the failed attempt left. *)
Theorem render_error_falls_back (content : text) (md : bool) (css : option text)
    (nl2br : bool) (w : World V) :
  disabled (env w) = false ->
  (exists w2, update_popup content md css nl2br w = (Ok tt, w2)) /\
  (forall flags location max_width max_height on_navigate on_hide,
     exists w2,
       show_popup content md css flags location max_width max_height on_navigate on_hide
         nl2br w = (Ok tt, w2)) /\
  (forall key region layout on_navigate,
     exists n w2,
       add_phantom key region content layout md css on_navigate nl2br w
         = (Ok (Some n), w2)) /\
  (forall e v1,
     _create_html content md css POPUP nl2br (env w) = (Raise e, v1) ->
     update_popup content md css nl2br w =
       (Ok tt, record_call (UpdatePopup IDK) (with_env (env_update_popup IDK v1) w)) /\
     (forall flags location max_width max_height on_navigate on_hide,
        _can_show (env_viewport (env w)) location = true ->
        show_popup content md css flags location max_width max_height on_navigate
          on_hide nl2br w =
          (Ok tt,
           record_call
             (ShowPopup IDK flags location max_width max_height on_navigate on_hide)
             (with_env
                (env_show_popup IDK flags location max_width max_height on_navigate
                   on_hide v1)
                w)))) /\
  (forall e v1,
     _create_html content md css PHANTOM nl2br (env w) = (Raise e, v1) ->
     forall key region layout on_navigate,
       add_phantom key region content layout md css on_navigate nl2br w =
         (Ok (Some (fst (env_add_phantom key region IDK layout on_navigate v1))),
          record_call
            (AddPhantom key region IDK layout on_navigate
               (fst (env_add_phantom key region IDK layout on_navigate v1)))
            (with_env (snd (env_add_phantom key region IDK layout on_navigate v1)) w))).
Proof.
  intros Hen. split; [|split; [|split; [|split]]].
  - destruct (update_popup_spec content md css nl2br w Hen) as (html & v1 & _ & ->). eauto.
  - intros flags location max_width max_height on_navigate on_hide.
    pose proof (show_popup_spec content md css flags location max_width max_height
                  on_navigate on_hide nl2br w Hen) as Hs.
    destruct (_can_show _ location); [destruct Hs as (html & v1 & _ & ->)|]; eauto.
  - intros key region layout on_navigate.
    pose proof (add_phantom_spec key region content layout md css on_navigate nl2br w) as Hs.
    rewrite Hen in Hs. destruct Hs as (html & v1 & n & v2 & _ & _ & ->). eauto.
  - intros e v1 Hc. apply html_or_IDK_on_error in Hc. split.
    + destruct (update_popup_spec content md css nl2br w Hen) as (html & v1' & Hh & ->).
      rewrite Hc in Hh. injection Hh as <- <-. reflexivity.
    + intros flags location max_width max_height on_navigate on_hide Hshow.
      pose proof (show_popup_spec content md css flags location max_width max_height
                    on_navigate on_hide nl2br w Hen) as Hs.
      rewrite Hshow in Hs. destruct Hs as (html & v1' & Hh & ->).
      rewrite Hc in Hh. injection Hh as <- <-. reflexivity.
  - intros e v1 Hc key region layout on_navigate. apply html_or_IDK_on_error in Hc.
    pose proof (add_phantom_spec key region content layout md css on_navigate nl2br w) as Hs.
    rewrite Hen in Hs. destruct Hs as (html & v1' & n & v2 & Hh & Ha & ->).
    rewrite Hc in Hh. injection Hh as <- <-. rewrite Ha. reflexivity.
Qed.
End RenderFacts.

(** In the editor whose theme cannot be had, [update_popup] hands [IDK] to
    the display primitive. *)
Lemma render_error_falls_back_witness :
  update_popup (cp "hello") true None true (world_of editor_without_theme) =
    (Ok tt,
     record_call (UpdatePopup IDK)
       (with_env (env_update_popup IDK editor_without_theme) (world_of editor_without_theme))).
Proof.
  pose proof (render_error_falls_back (cp "hello") true None true
                (world_of editor_without_theme) eq_refl) as (_ & _ & _ & Hfb & _).
  apply (Hfb LibraryError editor_without_theme). reflexivity.
Defined.

(** * Phantom reconciliation *)

Lemma same_but_id_refl (o : Phantom) : same_but_id o o.
Proof. reflexivity. Qed.

Lemma same_but_id_sym (o o' : Phantom) : same_but_id o o' -> same_but_id o' o.
Proof. unfold same_but_id. congruence. Qed.

Lemma same_but_id_trans (o1 o2 o3 : Phantom) :
  same_but_id o1 o2 -> same_but_id o2 o3 -> same_but_id o1 o3.
Proof. unfold same_but_id. congruence. Qed.

Lemma same_but_id_set_id (i : pid) (o : Phantom) : same_but_id (set_id i o) o.
Proof. reflexivity. Qed.

Lemma same_but_id_fields (o o' : Phantom) :
  same_but_id o o' ->
  class_ o = class_ o' /\ region o = region o' /\ content o = content o' /\
  layout o = layout o' /\ on_navigate o = on_navigate o' /\ md o = md o' /\
  css o = css o' /\ nl2br o = nl2br o'.
Proof. destruct o, o'. unfold same_but_id, set_id. simpl. intros [=]. subst. repeat split. Qed.

Lemma same_but_region_fields (o o' : Phantom) :
  same_but_region o o' ->
  class_ o = class_ o' /\ content o = content o' /\
  layout o = layout o' /\ on_navigate o = on_navigate o' /\ md o = md o' /\
  css o = css o' /\ nl2br o = nl2br o' /\ id o = id o'.
Proof.
  destruct o, o'. unfold same_but_region, set_region. simpl. intros [=]. subst. repeat split.
Qed.

Lemma same_but_region_trans (o1 o2 o3 : Phantom) :
  same_but_region o1 o2 -> same_but_region o2 o3 -> same_but_region o1 o3.
Proof. unfold same_but_region. congruence. Qed.

(** [__eq__] does not look at the ids. *)
Lemma Phantom__eq__same_but_id (o1 o1' o2 o2' : Phantom) :
  same_but_id o1 o1' -> same_but_id o2 o2' -> Phantom__eq__ o1 o2 = Phantom__eq__ o1' o2'.
Proof.
  intros H1 H2.
  change (Phantom__eq__ o1 o2) with (Phantom__eq__ (set_id None o1) (set_id None o2)).
  rewrite H1, H2. reflexivity.
Qed.

Lemma first_equal_same_but_id (st st' : loc -> Phantom) (items : list loc) (i : nat) (p : loc) :
  (forall q, In q (p :: items) -> same_but_id (st' q) (st q)) ->
  first_equal st' items i p = first_equal st items i p.
Proof.
  revert i. induction items as [|item rest IH]; intros i Hsame; [reflexivity|].
  cbn [first_equal]. destruct (decide (item = p)); [reflexivity|].
  rewrite (Phantom__eq__same_but_id (st' item) (st item) (st' p) (st p)).
  - destruct (Phantom__eq__ (st item) (st p)) as [[|]|e]; try reflexivity.
    apply IH. intros q [->|Hq]; apply Hsame; [now left | now right; right].
  - apply Hsame. right. now left.
  - apply Hsame. now left.
Qed.

Section PhantomReads.
Context {V : Type} `{Environment V}.
Implicit Types (w : World V) (items : list loc) (p q : loc).

Lemma ids_of_pure items w : ids_of items w = (Ok (map (fun p => id (objs w p)) items), w).
Proof.
  induction items as [|p rest IH]; [reflexivity|].
  cbn [ids_of]. unfold bind, get_obj. rewrite IH. reflexivity.
Qed.

Lemma find_equal_pure items (i : nat) p w :
  find_equal items i p w = (first_equal (objs w) items i p, w).
Proof.
  revert i. induction items as [|item rest IH]; intros i; [reflexivity|].
  cbn [find_equal first_equal]. unfold bind, same_or_equal.
  destruct (decide (item = p)); [reflexivity|].
  destruct (Phantom__eq__ (objs w item) (objs w p)) as [[|]|e]; try reflexivity.
  apply IH.
Qed.

Lemma list_index_pure (l : loc) p w :
  list_index l p w = (first_equal (objs w) (lists w l) 0 p, w).
Proof. unfold list_index, bind, list_items. apply find_equal_pure. Qed.

Lemma list_contains_pure (l : loc) p w :
  list_contains l p w =
    (match first_equal (objs w) (lists w l) 0 p with
     | Ok r => Ok (match r with Some _ => true | None => false end)
     | Raise e => Raise e
     end, w).
Proof.
  unfold list_contains, bind, list_items. rewrite find_equal_pure.
  destruct (first_equal (objs w) (lists w l) 0 p); reflexivity.
Qed.
End PhantomReads.

(** *** What the scan finds *)

Lemma first_equal_Some (st : loc -> Phantom) (items : list loc) (i k : nat) (p : loc) :
  first_equal st items i p = Ok (Some k) ->
  exists j o,
    k = (i + j)%nat /\ items !! j = Some o /\
    (o = p \/ Phantom__eq__ (st o) (st p) = Ok true) /\
    (forall j' o', (j' < j)%nat -> items !! j' = Some o' ->
       o' <> p /\ Phantom__eq__ (st o') (st p) = Ok false).
Proof.
  revert i. induction items as [|item rest IH]; intros i; [discriminate|].
  cbn [first_equal]. destruct (decide (item = p)) as [->|Hne].
  - intros [= <-]. exists 0%nat, p. split; [lia|]. split; [reflexivity|].
    split; [now left|]. intros j' o' Hlt. lia.
  - destruct (Phantom__eq__ (st item) (st p)) as [[|]|e] eqn:E; [| |discriminate].
    + intros [= <-]. exists 0%nat, item. split; [lia|]. split; [reflexivity|].
      split; [now right|]. intros j' o' Hlt. lia.
    + intros Hr. destruct (IH _ Hr) as (j & o & -> & Hj & Ho & Hbefore).
      exists (S j), o. split; [lia|]. split; [exact Hj|]. split; [exact Ho|].
      intros j' o' Hlt Hj'. destruct j' as [|j']; simpl in Hj'.
      * injection Hj' as <-. split; assumption.
      * apply (Hbefore j' o'); [lia | assumption].
Qed.

Lemma first_equal_None (st : loc -> Phantom) (items : list loc) (i : nat) (p : loc) :
  first_equal st items i p = Ok None ->
  forall o, In o items -> o <> p /\ Phantom__eq__ (st o) (st p) = Ok false.
Proof.
  revert i. induction items as [|item rest IH]; intros i; [intros _ o []|].
  cbn [first_equal]. destruct (decide (item = p)) as [->|Hne]; [discriminate|].
  destruct (Phantom__eq__ (st item) (st p)) as [[|]|e] eqn:E; try discriminate.
  intros Hr o [<-|Ho]; [split; assumption | exact (IH _ Hr o Ho)].
Qed.

Lemma first_equal_returns (st : loc -> Phantom) (items : list loc) (i : nat) (p : loc) :
  class_ (st p) = mdpopups_Phantom ->
  (forall o, In o items -> class_ (st o) = mdpopups_Phantom) ->
  exists r, first_equal st items i p = Ok r.
Proof.
  intros Hp. revert i. induction items as [|item rest IH]; intros i Hitems; [simpl; eauto|].
  cbn [first_equal]. destruct (decide (item = p)); [eauto|].
  destruct (Phantom__eq__decides (st item) (st p)) as [[-> _]|[-> _]];
    [apply Hitems; now left | exact Hp | eauto |].
  apply IH. intros o Ho. apply Hitems. now right.
Qed.

Section PhantomLoops.
Context {V : Type} `{Environment V}.
Implicit Types (w : World V) (items : list loc) (p q : loc) (self : PhantomSet).

(** *** The first loop: regions are refreshed, nothing else changes *)

Lemma refresh_regions_spec self (regions : list Region) (i : nat) w :
  (i + length regions <= length (lists w (phantoms self)))%nat ->
  exists w1,
    refresh_regions self i regions w = (Ok tt, w1) /\
    env w1 = env w /\ calls w1 = calls w /\ lists w1 = lists w /\
    next_loc w1 = next_loc w /\
    (forall q, same_but_region (objs w1 q) (objs w q)) /\
    (forall q,
       (forall k, (i <= k < i + length regions)%nat ->
                  lists w (phantoms self) !! k <> Some q) ->
       objs w1 q = objs w q) /\
    (NoDup (lists w (phantoms self)) ->
     forall k o r,
       lists w (phantoms self) !! (i + k)%nat = Some o -> regions !! k = Some r ->
       region (objs w1 o) = r).
Proof.
  revert i w. induction regions as [|r rest IH]; intros i w Hlen.
  - exists w. repeat split; try reflexivity. intros _ k o r' _ Hk. discriminate.
  - cbn [refresh_regions length] in *. unfold bind at 1. unfold list_getitem.
    destruct (lists w (phantoms self) !! i) as [p|] eqn:Ep.
    2:{ apply lookup_ge_None in Ep. lia. }
    unfold bind at 1, modify_obj at 1.
    set (wa := mkWorld (env w) (calls w)
                 (fun q => if decide (q = p) then set_region r (objs w p) else objs w q)
                 (lists w) (next_loc w)).
    destruct (IH (S i) wa) as (w1 & Hrun & He & Hc & Hl & Hn & Hsame & Hout & Hreg).
    { simpl. lia. }
    exists w1. split; [exact Hrun|]. simpl in He, Hc, Hl, Hn.
    split; [exact He|]. split; [exact Hc|]. split; [exact Hl|]. split; [exact Hn|].
    split; [|split].
    + intros q. eapply same_but_region_trans; [apply Hsame|]. simpl.
      destruct (decide (q = p)) as [->|]; reflexivity.
    + intros q Hq. rewrite Hout.
      * simpl. destruct (decide (q = p)) as [->|]; [|reflexivity].
        exfalso. apply (Hq i); [lia | exact Ep].
      * intros k Hk. simpl. apply Hq. lia.
    + intros Hnd k o r' Ho Hr'. destruct k as [|k]; simpl in Hr'.
      * injection Hr' as <-. rewrite Nat.add_0_r, Ep in Ho. injection Ho as <-.
        rewrite Hout.
        -- simpl. destruct (decide (p = p)); [reflexivity | contradiction].
        -- intros k Hk Hk'. simpl in Hk'.
           pose proof (NoDup_lookup _ _ _ _ Hnd Ep Hk'). lia.
      * apply (Hreg Hnd k o r'); [|exact Hr'].
        replace (S i + k)%nat with (i + S k)%nat by lia. exact Ho.
Qed.

(** *** The third loop: one removal request per old record that is
    neither among the desired ones nor already gone *)

Lemma cleanup_spec (new_phantoms : loc) (olds : list loc) w :
  (forall o, In o olds ->
     exists r, first_equal (objs w) (lists w new_phantoms) 0 o = Ok r) ->
  exists w',
    cleanup new_phantoms olds w = (Ok tt, w') /\
    objs w' = objs w /\ lists w' = lists w /\ next_loc w' = next_loc w /\
    calls w' =
      calls w ++
      map (fun o => ErasePhantomById (id (objs w o)))
          (List.filter (to_erase (objs w) (lists w new_phantoms)) olds).
Proof.
  revert w. induction olds as [|o rest IH]; intros w Hok.
  - exists w. simpl. rewrite app_nil_r. repeat split.
  - cbn [cleanup List.filter]. unfold bind at 1. rewrite list_contains_pure.
    destruct (Hok o) as [r Hr]; [now left|]. unfold to_erase at 1, absent. rewrite Hr.
    unfold bind at 1, get_obj at 1. unfold bind at 1.
    destruct r as [k|]; cbn [negb andb].
    + destruct (IH w) as (w' & Hrun & Ho & Hl & Hn & Hc).
      { intros o' Ho'. apply Hok. now right. }
      exists w'. unfold ret at 1. repeat split; assumption.
    + destruct (region_eqb (region (objs w o)) region_deleted); cbn [negb].
      * destruct (IH w) as (w' & Hrun & Ho & Hl & Hn & Hc).
        { intros o' Ho'. apply Hok. now right. }
        exists w'. unfold ret at 1. repeat split; assumption.
      * unfold erase_phantom_by_id at 1.
        set (wa := record_call _ _).
        destruct (IH wa) as (w' & Hrun & Ho & Hl & Hn & Hc).
        { intros o' Ho'. apply Hok. now right. }
        exists w'. split; [exact Hrun|]. simpl in Ho, Hl, Hn, Hc.
        repeat split; try assumption. rewrite Hc. cbn [map]. now rewrite <- app_assoc.
Qed.
End PhantomLoops.

Section PhantomEntry.
Context {V : Type} `{Environment V}.
Implicit Types (w : World V) (items : list loc) (p q : loc) (self : PhantomSet).

(** The second half of the loop body: [try: idx = self.phantoms.index(p);
    p.id = self.phantoms[idx].id  except ValueError: p.id = add_phantom(...)]. *)
Lemma assign_id_spec self q w :
  class_ (objs w q) = mdpopups_Phantom ->
  (forall o, In o (lists w (phantoms self)) -> class_ (objs w o) = mdpopups_Phantom) ->
  In q (lists w (phantoms self)) \/
  (disabled (env w) = true -> debug_readable env_int (env_prefs (env w))) ->
  exists w',
    (do found <- list_index (phantoms self) q;
     match found with
     | Some idx =>
         do q' <- list_getitem (phantoms self) idx;
         do old <- get_obj q';
         modify_obj q (set_id (id old))
     | None =>
         do o <- get_obj q;
         do i <- add_phantom (key self) (region o) (content o) (layout o) (md o) (css o)
                   (on_navigate o) (nl2br o);
         modify_obj q (set_id i)
     end) w = (Ok tt, w') /\
    lists w' = lists w /\ next_loc w' = next_loc w /\
    (forall r, r <> q -> objs w' r = objs w r) /\
    same_but_id (objs w' q) (objs w q) /\
    entry_settled self q w w'.
Proof.
  intros Hq Holds Hsafe. unfold bind at 1. rewrite list_index_pure.
  destruct (first_equal_returns (objs w) (lists w (phantoms self)) 0 q Hq Holds) as [r Hr].
  rewrite Hr.
  assert (forall (i : pid) (st : loc -> Phantom),
            st = (fun r => if decide (r = q) then set_id i (objs w q) else objs w r) ->
            first_equal st (lists w (phantoms self)) 0 q = Ok r) as Hstable.
  { intros i st ->. rewrite <- Hr. apply first_equal_same_but_id.
    intros x _. destruct (decide (x = q)) as [->|]; reflexivity. }
  destruct r as [k|].
  - destruct (first_equal_Some _ _ _ _ _ Hr) as (j & o & -> & Hj & _ & _).
    simpl in Hj |- *. unfold bind at 1, list_getitem at 1. rewrite Hj.
    unfold bind at 1, get_obj at 1, modify_obj.
    eexists. split; [reflexivity|]. cbn [lists next_loc objs calls env].
    split; [reflexivity|]. split; [reflexivity|].
    split; [intros x Hx; destruct (decide (x = q)); [contradiction | reflexivity]|].
    split; [destruct (decide (q = q)); [reflexivity | contradiction]|].
    unfold entry_settled. cbn [lists next_loc objs calls env].
    rewrite (Hstable (id (objs w o)) _ eq_refl).
    split; [|split; reflexivity]. exists o. split; [exact Hj|].
    destruct (decide (q = q)); [reflexivity | contradiction].
  - unfold bind at 1, get_obj at 1. unfold bind at 1.
    pose proof (add_phantom_spec (key self) (region (objs w q)) (content (objs w q))
                  (layout (objs w q)) (md (objs w q)) (css (objs w q))
                  (on_navigate (objs w q)) (nl2br (objs w q)) w) as Hadd.
    destruct (disabled (env w)) eqn:Hd.
    + destruct Hsafe as [Hin|Hread].
      { exfalso. destruct (first_equal_None _ _ _ _ Hr q Hin) as [Hne _]. now apply Hne. }
      destruct (Hread eq_refl) as [lvl Hlvl]. rewrite Hlvl in Hadd.
      rewrite Hadd. unfold modify_obj.
      eexists. split; [reflexivity|]. cbn [lists next_loc objs calls env].
      split; [reflexivity|]. split; [reflexivity|].
      split; [intros x Hx; destruct (decide (x = q)); [contradiction | reflexivity]|].
      split; [destruct (decide (q = q)); [reflexivity | contradiction]|].
      unfold entry_settled. cbn [lists next_loc objs calls env].
      rewrite (Hstable None _ eq_refl), Hd.
      destruct (decide (q = q)); [|contradiction]. repeat split.
    + destruct Hadd as (html & v1 & n & v2 & Hh & Ha & ->). unfold modify_obj.
      eexists. split; [reflexivity|]. cbn [lists next_loc objs calls env].
      split; [reflexivity|]. split; [reflexivity|].
      split; [intros x Hx; destruct (decide (x = q)); [contradiction | reflexivity]|].
      split; [destruct (decide (q = q)); [reflexivity | contradiction]|].
      unfold entry_settled. cbn [lists next_loc objs calls env].
      rewrite (Hstable (Some n) _ eq_refl), Hd.
      destruct (decide (q = q)); [|contradiction].
      exists html, v1, n. repeat split; assumption.
Qed.
End PhantomEntry.

Section PhantomBody.
Context {V : Type} `{Environment V}.
Implicit Types (w : World V) (items : list loc) (p q : loc) (self : PhantomSet).

(** One turn of the second loop, on the entry [p] at position [count]:
    the entry is replaced by its conversion [q] if it is not of the
    subclass ([q] is [p] itself otherwise), and [q] receives its id; no
    other object and no other list changes. *)
Lemma reconcile_entry_spec self (new_phantoms : loc) (count : nat) p w :
  lists w new_phantoms !! count = Some p ->
  (forall o, In o (lists w (phantoms self)) -> class_ (objs w o) = mdpopups_Phantom) ->
  (forall o, In o (lists w (phantoms self)) -> (o < next_loc w)%nat) ->
  In p (lists w (phantoms self)) \/
  (disabled (env w) = true -> debug_readable env_int (env_prefs (env w))) ->
  exists w' q,
    reconcile_entry self new_phantoms count p w = (Ok tt, w') /\
    (forall l, lists w' l =
               if decide (l = new_phantoms) then <[count:=q]> (lists w new_phantoms)
               else lists w l) /\
    ((class_ (objs w p) = mdpopups_Phantom /\ q = p /\ next_loc w' = next_loc w) \/
     (class_ (objs w p) = sublime_Phantom /\ q = next_loc w /\
      next_loc w' = S (next_loc w))) /\
    (forall r, r <> q -> objs w' r = objs w r) /\
    same_but_id (objs w' q) (wrapped (objs w p)) /\
    entry_settled self q w w'.
Proof.
  intros Hp Holds Hwf Hsafe. unfold reconcile_entry.
  unfold bind at 1, get_obj at 1. unfold wrapped.
  destruct (class_ (objs w p)) eqn:Hc.
  - (* an instance of the editor's class: converted and put in place; the
       desired list is then not the old list, which holds no such instance *)
    assert (phantoms self <> new_phantoms) as Hlists.
    { intros Heq. rewrite <- Heq in Hp.
      assert (In p (lists w (phantoms self))) as Hin.
      { apply list_elem_of_In. eapply list_elem_of_lookup_2, Hp. }
      apply Holds in Hin. congruence. }
    unfold bind at 1. unfold bind at 1, new_obj at 1.
    unfold bind at 1, list_setitem at 1. cbn [lists next_loc objs calls env].
    destruct (decide (count < length (lists w new_phantoms))%nat) as [Hlt|Hge].
    2:{ apply lookup_lt_Some in Hp. contradiction. }
    unfold ret at 1.
    set (o' := Phantom__init__ (region (objs w p)) (content (objs w p)) (layout (objs w p))
                 false None (on_navigate (objs w p)) false).
    set (wb := mkWorld (env w) (calls w)
                 (fun q => if decide (q = next_loc w) then o' else objs w q)
                 (fun k => if decide (k = new_phantoms)
                           then <[count:=next_loc w]> (lists w new_phantoms)
                           else lists w k)
                 (S (next_loc w))).
    assert (lists wb (phantoms self) = lists w (phantoms self)) as Hold.
    { simpl. destruct (decide (phantoms self = new_phantoms)); [contradiction | reflexivity]. }
    destruct (assign_id_spec self (next_loc w) wb)
      as (w' & Hrun & Hl & Hn & Hothers & Hsame & Hset).
    { simpl. destruct (decide (next_loc w = next_loc w)); [reflexivity | contradiction]. }
    { rewrite Hold. intros o Ho. simpl. destruct (decide (o = next_loc w)); [reflexivity|].
      apply Holds, Ho. }
    { right. destruct Hsafe as [Hin|Hread]; [|exact Hread].
      apply Holds in Hin. congruence. }
    exists w', (next_loc w). split; [exact Hrun|].
    split; [intros l; rewrite Hl; reflexivity|].
    split; [right; repeat split; rewrite Hn; reflexivity|].
    split.
    { intros r Hr. rewrite (Hothers r Hr). simpl.
      destruct (decide (r = next_loc w)); [contradiction | reflexivity]. }
    split.
    { eapply same_but_id_trans; [exact Hsame|]. simpl.
      destruct (decide (next_loc w = next_loc w)); [reflexivity | contradiction]. }
    unfold entry_settled in *. rewrite Hold in Hset.
    destruct (first_equal (objs w') (lists w (phantoms self)) 0 (next_loc w))
      as [[k|]|e]; [|exact Hset|exact Hset].
    destruct Hset as ((o & Ho & Hid) & Hrest). split; [|exact Hrest].
    exists o. split; [exact Ho|]. rewrite Hid. simpl.
    destruct (decide (o = next_loc w)) as [->|]; [|reflexivity].
    assert (In (next_loc w) (lists w (phantoms self))) as Hin.
    { apply list_elem_of_In. eapply list_elem_of_lookup_2, Ho. }
    apply Hwf in Hin. lia.
  - (* already of the subclass *)
    unfold bind at 1, ret at 1.
    destruct (assign_id_spec self p w) as (w' & Hrun & Hl & Hn & Hothers & Hsame & Hset);
      [exact Hc | exact Holds | exact Hsafe |].
    exists w', p. split; [exact Hrun|].
    split.
    { intros l. rewrite Hl. destruct (decide (l = new_phantoms)) as [->|]; [|reflexivity].
      symmetry. apply list_insert_id, Hp. }
    split; [left; repeat split; assumption|].
    split; [exact Hothers|]. split; [exact Hsame | exact Hset].
Qed.
End PhantomBody.

Lemma wrapped_same_but_id (o o' : Phantom) :
  same_but_id o o' -> same_but_id (wrapped o) (wrapped o').
Proof.
  intros Hs. destruct (same_but_id_fields o o' Hs) as (Hc & Hr & Hco & Hl & Hn & _).
  unfold wrapped. rewrite <- Hc. destruct (class_ o); [|exact Hs].
  rewrite Hr, Hco, Hl, Hn. reflexivity.
Qed.

Lemma wrapped_class (o : Phantom) : class_ (wrapped o) = mdpopups_Phantom.
Proof. unfold wrapped. destruct (class_ o) eqn:E; [reflexivity | exact E]. Qed.

Lemma id_known_more (ids : list pid) (cs more : list call) (v : pid) :
  id_known ids cs v -> id_known ids (cs ++ more) v.
Proof.
  intros [Hv|[Hv|(key & r & html & l & nav & n & Hin & Hv)]]; [now left | right; now left|].
  right. right. exists key, r, html, l, nav, n. split; [|exact Hv].
  apply in_or_app. now left.
Qed.

(** *** Equality of records of the subclass is an equivalence *)

Lemma same_description_sym (p q : Phantom) : same_description p q -> same_description q p.
Proof. unfold same_description. intuition congruence. Qed.

Lemma same_description_trans (p q r : Phantom) :
  same_description p q -> same_description q r -> same_description p r.
Proof. unfold same_description. intuition congruence. Qed.


Lemma Phantom__eq__sym (p q : Phantom) :
  class_ p = mdpopups_Phantom -> class_ q = mdpopups_Phantom ->
  Phantom__eq__ p q = Ok true -> Phantom__eq__ q p = Ok true.
Proof.
  intros Hp Hq Heq.
  destruct (Phantom__eq__decides p q Hp Hq) as [[_ Hd]|[E _]]; [|congruence].
  destruct (Phantom__eq__decides q p Hq Hp) as [[E _]|[_ Hn]]; [exact E|].
  exfalso. apply Hn, same_description_sym, Hd.
Qed.

Lemma Phantom__eq__trans (p q r : Phantom) :
  class_ p = mdpopups_Phantom -> class_ q = mdpopups_Phantom ->
  class_ r = mdpopups_Phantom ->
  Phantom__eq__ p q = Ok true -> Phantom__eq__ q r = Ok true -> Phantom__eq__ p r = Ok true.
Proof.
  intros Hp Hq Hr H1 H2.
  destruct (Phantom__eq__decides p q Hp Hq) as [[_ D1]|[E _]]; [|congruence].
  destruct (Phantom__eq__decides q r Hq Hr) as [[_ D2]|[E _]]; [|congruence].
  destruct (Phantom__eq__decides p r Hp Hr) as [[E _]|[_ Hn]]; [exact E|].
  exfalso. apply Hn. eapply same_description_trans; eassumption.
Qed.

(** *** More on what the scan finds *)

Lemma first_equal_at (st : loc -> Phantom) (items : list loc) (i k : nat) (o p : loc) :
  items !! k = Some o ->
  (o = p \/ Phantom__eq__ (st o) (st p) = Ok true) ->
  (forall j o', (j < k)%nat -> items !! j = Some o' ->
     o' <> p /\ Phantom__eq__ (st o') (st p) = Ok false) ->
  first_equal st items i p = Ok (Some (i + k)%nat).
Proof.
  revert i k. induction items as [|item rest IH]; intros i k Hk Heq Hbefore; [discriminate|].
  cbn [first_equal]. destruct k as [|k].
  - simpl in Hk. injection Hk as ->. rewrite Nat.add_0_r.
    destruct (decide (o = p)); [reflexivity|].
    destruct Heq as [Heq | Heq]; [contradiction | rewrite Heq; reflexivity].
  - destruct (Hbefore 0%nat item ltac:(lia) eq_refl) as [Hne Hf].
    destruct (decide (item = p)); [contradiction|]. rewrite Hf.
    rewrite (IH (S i) k Hk Heq).
    + do 2 f_equal. lia.
    + intros j o' Hj Ho'. apply (Hbefore (S j) o'); [lia | exact Ho'].
Qed.

(** The old record that the scan finds for [q] is the one it finds for that
    record itself: it is the first of its kind in the old list. *)
Lemma first_equal_first (st : loc -> Phantom) (olds : list loc) (q o : loc) (k : nat) :
  (forall x, In x olds -> class_ (st x) = mdpopups_Phantom) ->
  class_ (st q) = mdpopups_Phantom ->
  first_equal st olds 0 q = Ok (Some k) -> olds !! k = Some o ->
  first_equal st olds 0 o = Ok (Some k).
Proof.
  intros Holds Hq Hf Ho.
  destruct (first_equal_Some _ _ _ _ _ Hf) as (j & o' & -> & Hj & Heq & Hbefore).
  simpl in Ho. assert (o' = o) as -> by congruence.
  assert (In o olds) as Ho_in by (apply list_elem_of_In; eapply list_elem_of_lookup_2, Hj).
  apply (first_equal_at st olds 0 j o o Hj); [now left|].
  intros j' o' Hlt Hj'. destruct (Hbefore j' o' Hlt Hj') as [Hne Hfalse].
  assert (In o' olds) as Ho'_in by (apply list_elem_of_In; eapply list_elem_of_lookup_2, Hj').
  destruct Heq as [->|Heq]; [split; assumption|].
  split; [intros ->; congruence|].
  destruct (Phantom__eq__decides (st o') (st o) (Holds o' Ho'_in) (Holds o Ho_in))
    as [[E _]|[E _]]; [|exact E].
  rewrite (Phantom__eq__trans _ _ _ (Holds o' Ho'_in) (Holds o Ho_in) Hq E Heq) in Hfalse.
  discriminate.
Qed.

Lemma last_occurrence (l : list loc) (q : loc) :
  In q l ->
  exists j, l !! j = Some q /\ forall j', (j < j')%nat -> l !! j' <> Some q.
Proof.
  induction l as [|x l IH]; intros Hin; [destruct Hin|].
  destruct (decide (q ∈ l)) as [Hl|Hl].
  - apply list_elem_of_In in Hl. destruct (IH Hl) as (j & Hj & Hlast). exists (S j).
    split; [exact Hj|].
    intros j' Hlt. destruct j' as [|j']; [lia|]. simpl. apply Hlast. lia.
  - destruct Hin as [->|Hin]; [|apply list_elem_of_In in Hin; contradiction]. exists 0%nat.
    split; [reflexivity|].
    intros j' Hlt Hj'. destruct j' as [|j']; [lia|]. simpl in Hj'.
    apply Hl. eapply list_elem_of_lookup_2, Hj'.
Qed.

Lemma made_app {V : Type} (w1 w w' : World V) (adds cs : list call) :
  calls w = calls w1 ++ adds -> calls w' = calls w ++ cs ->
  made w1 w = adds /\ made w w' = cs /\ made w1 w' = adds ++ cs.
Proof.
  intros Hc Hc'. unfold made. rewrite Hc', drop_app_length.
  rewrite Hc, <- app_assoc, !drop_app_length. repeat split.
Qed.

(** *** The turns that [settle] tells *)

Section Settle.
Context {V : Type} `{Environment V}.
Implicit Types (olds qs : list loc) (v : V).

Lemma settle_entry_same_but_id (key : string) (st0 st st' : loc -> Phantom) olds (q : loc) v :
  (forall x, In x (q :: olds) -> same_but_id (st' x) (st x)) ->
  settle_entry key st0 st' olds q v = settle_entry key st0 st olds q v.
Proof.
  intros Hsame. unfold settle_entry.
  rewrite (first_equal_same_but_id st st' olds 0 q Hsame).
  destruct (same_but_id_fields _ _ (Hsame q (or_introl eq_refl)))
    as (_ & -> & -> & -> & -> & -> & -> & ->).
  reflexivity.
Qed.

Lemma settle_same_but_id (key : string) (st0 st st' : loc -> Phantom) olds qs v :
  (forall x, In x qs \/ In x olds -> same_but_id (st' x) (st x)) ->
  settle key st0 st' olds qs v = settle key st0 st olds qs v.
Proof.
  revert v. induction qs as [|q rest IH]; intros v Hsame; [reflexivity|].
  cbn [settle]. rewrite (settle_entry_same_but_id key st0 st st' olds q v).
  - destruct (settle_entry key st0 st olds q v) as [[x cs] v1].
    rewrite IH; [reflexivity|].
    intros y [Hy|Hy]; apply Hsame; [left; now right | now right].
  - intros y [<-|Hy]; apply Hsame; [left; now left | now right].
Qed.

Lemma settle_app (key : string) (st0 st : loc -> Phantom) olds qs qs' v :
  settle key st0 st olds (qs ++ qs') v =
    let '(ids, cs, v1) := settle key st0 st olds qs v in
    let '(ids', cs', v2) := settle key st0 st olds qs' v1 in
    (ids ++ ids', cs ++ cs', v2).
Proof.
  revert v. induction qs as [|q rest IH]; intros v.
  - cbn [settle app]. destruct (settle key st0 st olds qs' v) as [[ids' cs'] v2]. reflexivity.
  - cbn [settle app]. destruct (settle_entry key st0 st olds q v) as [[x cs] v1].
    rewrite IH. destruct (settle key st0 st olds rest v1) as [[ids cs1] v2].
    destruct (settle key st0 st olds qs' v2) as [[ids' cs'] v3].
    rewrite <- app_assoc. reflexivity.
Qed.

Lemma settle_length (key : string) (st0 st : loc -> Phantom) olds qs v (ids : list pid)
    (cs : list call) v' :
  settle key st0 st olds qs v = (ids, cs, v') -> length ids = length qs.
Proof.
  revert v ids cs v'. induction qs as [|q rest IH]; intros v ids cs v'.
  - intros [= <- _ _]. reflexivity.
  - cbn [settle]. destruct (settle_entry key st0 st olds q v) as [[x cs0] v1].
    destruct (settle key st0 st olds rest v1) as [[ids1 cs1] v2] eqn:E.
    intros [= <- _ _]. simpl. f_equal. exact (IH _ _ _ _ E).
Qed.

(** What a turn gives the entry, and what it asks of the editor. *)
Lemma settle_entry_cases (key : string) (st0 st : loc -> Phantom) olds (q : loc) v (x : pid)
    (cs : list call) v' :
  settle_entry key st0 st olds q v = (x, cs, v') ->
  match first_equal st olds 0 q with
  | Ok (Some k) =>
      x = match olds !! k with Some o => id (st0 o) | None => None end /\
      cs = [] /\ v' = v
  | Ok None =>
      if disabled v then x = None /\ cs = [] /\ v' = v
      else
        exists html v1 n,
          html_or_IDK (content (st q)) (md (st q)) (css (st q)) PHANTOM (nl2br (st q)) v
            = (Ok html, v1) /\
          env_add_phantom key (region (st q)) html (layout (st q)) (on_navigate (st q)) v1
            = (n, v') /\
          x = Some n /\
          cs = [AddPhantom key (region (st q)) html (layout (st q)) (on_navigate (st q)) n]
  | Raise _ => x = None /\ cs = [] /\ v' = v
  end.
Proof.
  unfold settle_entry. destruct (first_equal st olds 0 q) as [[k|]|e].
  - intros [= <- <- <-]. repeat split.
  - destruct (disabled v); [intros [= <- <- <-]; repeat split|].
    destruct (html_or_IDK_returns (content (st q)) (md (st q)) (css (st q)) PHANTOM
                (nl2br (st q)) v) as (html & v1 & Hh).
    rewrite Hh.
    destruct (env_add_phantom key (region (st q)) html (layout (st q))
                (on_navigate (st q)) v1) as [n v2] eqn:Ea.
    intros [= <- <- <-]. exists html, v1, n. repeat split. exact Ea.
  - intros [= <- <- <-]. repeat split.
Qed.

Lemma settle_entry_prefs (key : string) (st0 st : loc -> Phantom) olds (q : loc) v (x : pid)
    (cs : list call) v' :
  settings_kept V ->
  settle_entry key st0 st olds q v = (x, cs, v') -> env_prefs v' = env_prefs v.
Proof.
  intros Hkept Hrun. apply settle_entry_cases in Hrun.
  destruct (first_equal st olds 0 q) as [[k|]|e].
  - destruct Hrun as (_ & _ & ->). reflexivity.
  - destruct (disabled v); [destruct Hrun as (_ & _ & ->); reflexivity|].
    destruct Hrun as (html & v1 & n & Hh & Ha & _).
    apply (html_or_IDK_prefs _ _ _ _ _ _ _ _ Hkept) in Hh.
    destruct Hkept as (_ & _ & Hadd). rewrite <- Hh.
    rewrite <- (Hadd key (region (st q)) html (layout (st q)) (on_navigate (st q)) v1), Ha.
    reflexivity.
  - destruct Hrun as (_ & _ & ->). reflexivity.
Qed.

Lemma disabled_prefs v v' : env_prefs v' = env_prefs v -> disabled v' = disabled v.
Proof. unfold disabled. now intros ->. Qed.

(** The id that [settle] lists at a position, and the call behind it. *)
Lemma settle_lookup (key : string) (st0 st : loc -> Phantom) olds qs v (ids : list pid)
    (cs : list call) v'
    (j : nat) (q : loc) :
  settings_kept V ->
  settle key st0 st olds qs v = (ids, cs, v') ->
  qs !! j = Some q ->
  exists x,
    ids !! j = Some x /\
    match first_equal st olds 0 q with
    | Ok (Some k) => x = match olds !! k with Some o => id (st0 o) | None => None end
    | Ok None =>
        if disabled v then x = None
        else
          exists html n,
            In (AddPhantom key (region (st q)) html (layout (st q)) (on_navigate (st q)) n)
               cs /\
            x = Some n
    | Raise _ => x = None
    end.
Proof.
  intros Hkept. revert v ids cs v' j. induction qs as [|p rest IH]; intros v ids cs v' j;
    [discriminate|].
  cbn [settle]. destruct (settle_entry key st0 st olds p v) as [[x cs0] v1] eqn:E.
  destruct (settle key st0 st olds rest v1) as [[ids1 cs1] v2] eqn:E1.
  intros [= <- <- <-] Hj. destruct j as [|j]; simpl in Hj.
  - injection Hj as ->. exists x. split; [reflexivity|].
    apply settle_entry_cases in E.
    destruct (first_equal st olds 0 q) as [[k|]|e].
    + exact (proj1 E).
    + destruct (disabled v); [exact (proj1 E)|].
      destruct E as (html & va & n & _ & _ & -> & ->). exists html, n.
      split; [now left | reflexivity].
    + exact (proj1 E).
  - destruct (IH v1 ids1 cs1 v2 j E1 Hj) as (y & Hy & Hcase). exists y. split; [exact Hy|].
    rewrite (disabled_prefs v v1 (settle_entry_prefs _ _ _ _ _ _ _ _ _ Hkept E)) in Hcase.
    destruct (first_equal st olds 0 q) as [[k|]|e]; [exact Hcase| |exact Hcase].
    destruct (disabled v); [exact Hcase|].
    destruct Hcase as (html & n & Hin & ->). exists html, n.
    split; [apply in_or_app; now right | reflexivity].
Qed.

(** Every call that [settle] tells has its answer among the ids. *)
Lemma settle_call_held (key : string) (st0 st : loc -> Phantom) olds qs v (ids : list pid)
    (cs : list call)
    v' (k : string) (r : Region) (html : text) (l : Z) (nav : callback) (n : Z) :
  settle key st0 st olds qs v = (ids, cs, v') ->
  In (AddPhantom k r html l nav n) cs ->
  exists j, ids !! j = Some (Some n).
Proof.
  revert v ids cs v'. induction qs as [|p rest IH]; intros v ids cs v'.
  - intros [= <- <- _] [].
  - cbn [settle]. destruct (settle_entry key st0 st olds p v) as [[x cs0] v1] eqn:E.
    destruct (settle key st0 st olds rest v1) as [[ids1 cs1] v2] eqn:E1.
    intros [= <- <- <-] Hin. apply in_app_or in Hin as [Hin|Hin].
    + exists 0%nat. apply settle_entry_cases in E.
      destruct (first_equal st olds 0 p) as [[i|]|e].
      * destruct E as (_ & -> & _). destruct Hin.
      * destruct (disabled v); [destruct E as (_ & -> & _); destruct Hin|].
        destruct E as (html' & va & n' & _ & _ & -> & ->).
        destruct Hin as [[= _ _ _ _ _ ->]|[]]. reflexivity.
      * destruct E as (_ & -> & _). destruct Hin.
    + destruct (IH v1 ids1 cs1 v2 E1 Hin) as [j Hj]. exists (S j). exact Hj.
Qed.

Lemma settle_calls_are_adds (key : string) (st0 st : loc -> Phantom) olds qs v (ids : list pid)
    (cs : list call) v' :
  settle key st0 st olds qs v = (ids, cs, v') -> Forall is_add cs.
Proof.
  revert v ids cs v'. induction qs as [|p rest IH]; intros v ids cs v'.
  - intros [= _ <- _]. constructor.
  - cbn [settle]. destruct (settle_entry key st0 st olds p v) as [[x cs0] v1] eqn:E.
    destruct (settle key st0 st olds rest v1) as [[ids1 cs1] v2] eqn:E1.
    intros [= _ <- _]. apply Forall_app. split; [|exact (IH _ _ _ _ E1)].
    apply settle_entry_cases in E.
    destruct (first_equal st olds 0 p) as [[i|]|e].
    + destruct E as (_ & -> & _). constructor.
    + destruct (disabled v); [destruct E as (_ & -> & _); constructor|].
      destruct E as (html' & va & n' & _ & _ & _ & ->). repeat constructor.
    + destruct E as (_ & -> & _). constructor.
Qed.

(** With [mdpopups.disable] on, [settle] tells no call. *)
Lemma settle_disabled (key : string) (st0 st : loc -> Phantom) olds qs v (ids : list pid)
    (cs : list call) v' :
  disabled v = true ->
  settle key st0 st olds qs v = (ids, cs, v') -> cs = [] /\ v' = v.
Proof.
  intros Hd. revert ids cs v'. induction qs as [|p rest IH]; intros ids cs v'.
  - intros [= _ <- <-]. now split.
  - cbn [settle]. destruct (settle_entry key st0 st olds p v) as [[x cs0] v1] eqn:E.
    apply settle_entry_cases in E. rewrite Hd in E.
    assert (cs0 = [] /\ v1 = v) as [-> ->].
    { destruct (first_equal st olds 0 p) as [[i|]|e]; destruct E as (_ & -> & ->);
        now split. }
    destruct (settle key st0 st olds rest v) as [[ids1 cs1] v2] eqn:E1.
    intros [= _ <- <-]. exact (IH _ _ _ eq_refl).
Qed.
End Settle.

Section SecondLoop.
Context {V : Type} `{Environment V}.
Implicit Types (w : World V) (p q : loc) (self : PhantomSet).

Lemma entry_settled_calls self q w w' :
  entry_settled self q w w' ->
  calls w' = calls w \/ exists c, is_add c /\ calls w' = calls w ++ [c].
Proof.
  unfold entry_settled.
  destruct (first_equal (objs w') (lists w (phantoms self)) 0 q) as [[k|]|e]; [| |intros []].
  - intros (_ & Hc & _). now left.
  - destruct (disabled (env w)).
    + intros (_ & Hc & _). now left.
    + intros (html & v1 & n & _ & _ & _ & Hc). right. eexists. split; [|exact Hc]. exact I.
Qed.

Lemma entry_settled_prefs self q w w' :
  settings_kept V -> entry_settled self q w w' -> env_prefs (env w') = env_prefs (env w).
Proof.
  intros Hkept. unfold entry_settled.
  destruct (first_equal (objs w') (lists w (phantoms self)) 0 q) as [[k|]|e]; [| |intros []].
  - intros (_ & _ & ->). reflexivity.
  - destruct (disabled (env w)).
    + intros (_ & _ & ->). reflexivity.
    + intros (html & v1 & n & Hh & Ha & _).
      apply (html_or_IDK_prefs _ _ _ _ _ _ _ _ Hkept) in Hh.
      destruct Hkept as (_ & _ & Hadd). rewrite <- Hh.
      rewrite <- (Hadd (key self) (region (objs w' q)) html (layout (objs w' q))
                    (on_navigate (objs w' q)) v1), Ha.
      reflexivity.
Qed.

Variables (self : PhantomSet) (nl : loc) (w1 : World V).
Hypothesis Hmd :
  forall o, In o (lists w1 (phantoms self)) -> class_ (objs w1 o) = mdpopups_Phantom.
Hypothesis Hwf_olds : forall o, In o (lists w1 (phantoms self)) -> (o < next_loc w1)%nat.
Hypothesis Hwf_news : forall p, In p (lists w1 nl) -> (p < next_loc w1)%nat.
(** No turn ends in the exception of [_debug]: every entry is one of the
    old records, or the debug level can be read should creation be
    disabled. *)
Hypothesis Hsafe :
  (forall p, In p (lists w1 nl) -> In p (lists w1 (phantoms self))) \/
  (settings_kept V /\
   (disabled (env w1) = true -> debug_readable env_int (env_prefs (env w1)))).

(** One turn keeps the loop where [reconciled] says it stands. *)
Lemma reconcile_entry_step (i : nat) w p :
  reconciled self nl w1 i w ->
  lists w nl !! i = Some p ->
  exists w' q,
    reconcile_entry self nl i p w = (Ok tt, w') /\
    reconciled self nl w1 (S i) w' /\
    lists w' nl = <[i:=q]> (lists w nl) /\
    (forall r, r <> q -> objs w' r = objs w r) /\
    (forall r, (r < next_loc w)%nat -> same_but_id (objs w' r) (objs w r)) /\
    ((class_ (objs w p) = mdpopups_Phantom /\ q = p) \/ q = next_loc w) /\
    entry_settled self q w w'.
Proof.
  intros [Hnext Holds Hlsts Hobjs Hlen Hrest Hdone Hcalls Hids Hprefs] Hp.
  assert (lists w1 nl !! i = Some p) as Hp1 by (rewrite <- Hrest; [exact Hp | lia]).
  assert (In p (lists w1 nl)) as Hp_in.
  { apply list_elem_of_In. eapply list_elem_of_lookup_2, Hp1. }
  assert (p < next_loc w1)%nat as Hp_lt by apply Hwf_news, Hp_in.
  assert (forall o, In o (lists w (phantoms self)) ->
                    class_ (objs w o) = mdpopups_Phantom) as Hmd_w.
  { rewrite Holds. intros o Ho.
    destruct (same_but_id_fields _ _ (Hobjs o (Hwf_olds o Ho))) as (-> & _).
    apply Hmd, Ho. }
  assert (forall o, In o (lists w (phantoms self)) -> (o < next_loc w)%nat) as Hwf_w.
  { rewrite Holds. intros o Ho. apply Hwf_olds in Ho. lia. }
  assert (In p (lists w (phantoms self)) \/
          (disabled (env w) = true -> debug_readable env_int (env_prefs (env w))))
    as Hsafe_w.
  { destruct Hsafe as [Hall|[Hkept Hread]].
    - left. rewrite Holds. apply Hall, Hp_in.
    - right. rewrite (disabled_prefs _ _ (Hprefs Hkept)), (Hprefs Hkept). exact Hread. }
  destruct (reconcile_entry_spec self nl i p w Hp Hmd_w Hwf_w Hsafe_w)
    as (w' & q & Hrun & Hl & Hcase & Hothers & Hsame & Hset).
  assert (forall r, (r < next_loc w)%nat -> same_but_id (objs w' r) (objs w r)) as Hframe.
  { intros r Hr. destruct (decide (r = q)) as [->|Hne].
    - destruct Hcase as [(Hc & -> & _)|(_ & -> & _)]; [|lia].
      unfold wrapped in Hsame. rewrite Hc in Hsame. exact Hsame.
    - rewrite Hothers by exact Hne. reflexivity. }
  assert ((next_loc w <= next_loc w')%nat) as Hnext'.
  { destruct Hcase as [(_ & _ & ->)|(_ & _ & ->)]; lia. }
  assert (lists w' nl = <[i:=q]> (lists w nl)) as Hl_nl.
  { rewrite Hl. destruct (decide (nl = nl)); [reflexivity | contradiction]. }
  exists w', q. split; [exact Hrun|]. split; [|split; [exact Hl_nl|]].
  2:{ split; [exact Hothers|]. split; [exact Hframe|]. split; [|exact Hset].
      destruct Hcase as [(Hc & -> & _)|(_ & -> & _)];
        [left; split; [exact Hc|reflexivity] | now right]. }
  constructor.
  - lia.
  - rewrite Hl. destruct (decide (phantoms self = nl)) as [Heq|]; [|exact Holds].
    rewrite <- Holds, Heq. apply list_insert_id.
    destruct Hcase as [(_ & -> & _)|(Hc & _ & _)]; [exact Hp|].
    exfalso. rewrite <- Heq in Hp.
    assert (In p (lists w (phantoms self))) as Hin.
    { apply list_elem_of_In. eapply list_elem_of_lookup_2, Hp. }
    apply Hmd_w in Hin. congruence.
  - intros l Hne. rewrite Hl. destruct (decide (l = nl)); [contradiction | apply Hlsts, Hne].
  - intros r Hr. eapply same_but_id_trans; [apply Hframe; lia | apply Hobjs, Hr].
  - rewrite Hl_nl, length_insert. exact Hlen.
  - intros j Hj. rewrite Hl_nl, list_lookup_insert_ne by lia. apply Hrest. lia.
  - intros j q' Hj Hq'. rewrite Hl_nl in Hq'.
    destruct (decide (j = i)) as [->|Hji].
    + rewrite list_lookup_insert_eq in Hq' by (eapply lookup_lt_Some, Hp).
      injection Hq' as <-. exists p. split; [exact Hp1|].
      assert (same_but_id (wrapped (objs w p)) (wrapped (objs w1 p))) as Hwr.
      { apply wrapped_same_but_id, Hobjs, Hp_lt. }
      destruct (same_but_id_fields _ _ (Hobjs p Hp_lt)) as (Hcls & _).
      split; [|split; [eapply same_but_id_trans; eassumption|]].
      * destruct Hcase as [(_ & -> & ->)|(_ & -> & ->)]; lia.
      * destruct Hcase as [(Hc & -> & _)|(Hc & -> & _)]; [left|right];
          (split; [congruence|]); [reflexivity | lia].
    + rewrite list_lookup_insert_ne in Hq' by lia.
      destruct (Hdone j q' ltac:(lia) Hq') as (p' & Hp' & Hlt & Hs & Hc).
      exists p'. split; [exact Hp'|]. split; [lia|]. split; [|exact Hc].
      eapply same_but_id_trans; [apply Hframe, Hlt | exact Hs].
  - destruct Hcalls as (adds & Hc & Hadds).
    destruct (entry_settled_calls _ _ _ _ Hset) as [->|(c & Hadd & ->)].
    + exists adds. split; assumption.
    + exists (adds ++ [c]). rewrite Hc, <- app_assoc. split; [reflexivity|].
      apply Forall_app. split; [exact Hadds | repeat constructor; exact Hadd].
  - intros r adds' Hr Hc'. destruct Hcalls as (adds & Hc & _).
    assert (exists more, adds' = adds ++ more /\ calls w' = calls w ++ more)
      as (more & -> & Hmore).
    { destruct (entry_settled_calls _ _ _ _ Hset) as [E|(c & _ & E)].
      - exists []. rewrite app_nil_r. split; [|rewrite app_nil_r; exact E].
        rewrite E, Hc in Hc'. exact (app_inv_head _ _ _ (eq_sym Hc')).
      - exists [c]. split; [|exact E].
        rewrite E, Hc, <- app_assoc in Hc'. exact (app_inv_head _ _ _ (eq_sym Hc')). }
    assert (forall x,
              In x (lists w1 (phantoms self)) \/
              (exists j, (j < i)%nat /\ lists w nl !! j = Some x) ->
              id_known (map (fun o => id (objs w1 o)) (lists w1 (phantoms self)))
                (adds ++ more) (id (objs w x))) as Hbefore.
    { intros x Hx. eapply id_known_more, (Hids x adds Hx Hc). }
    destruct (decide (r = q)) as [->|Hne].
    + unfold entry_settled in Hset. rewrite Holds in Hset.
      destruct (first_equal (objs w') (lists w1 (phantoms self)) 0 q) as [[k|]|e];
        [| |destruct Hset].
      * destruct Hset as ((o & Ho & ->) & _). apply Hbefore. left.
        apply list_elem_of_In. eapply list_elem_of_lookup_2, Ho.
      * destruct (disabled (env w)).
        -- destruct Hset as (-> & _). now left.
        -- destruct Hset as (html & v1 & n & _ & _ & -> & Hcs). right. right.
           rewrite Hcs in Hmore. apply app_inv_head in Hmore. subst more.
           do 6 eexists. split; [|reflexivity]. apply in_or_app. right. now left.
    + rewrite (Hothers r Hne). apply Hbefore.
      destruct Hr as [Hr|(j & Hj & Hr)]; [now left | right].
      rewrite Hl_nl in Hr. destruct (decide (j = i)) as [->|Hji].
      * rewrite list_lookup_insert_eq in Hr by (eapply lookup_lt_Some, Hp). congruence.
      * rewrite list_lookup_insert_ne in Hr by lia. exists j. split; [lia | exact Hr].
  - intros Hkept. rewrite (entry_settled_prefs _ _ _ _ Hkept Hset). apply Hprefs, Hkept.
Qed.

(** ... and where [assigned] says. *)
Lemma reconcile_entry_step_assigned (i : nat) w p w' q :
  reconciled self nl w1 i w ->
  reconciled self nl w1 (S i) w' ->
  assigned self nl w1 i w ->
  lists w nl !! i = Some p ->
  lists w' nl = <[i:=q]> (lists w nl) ->
  (forall r, r <> q -> objs w' r = objs w r) ->
  (forall r, (r < next_loc w)%nat -> same_but_id (objs w' r) (objs w r)) ->
  ((class_ (objs w p) = mdpopups_Phantom /\ q = p) \/ q = next_loc w) ->
  entry_settled self q w w' ->
  assigned self nl w1 (S i) w'.
Proof.
  intros [Hnext Holds Hlsts Hobjs Hlen Hrest Hdone (adds & Hcalls & _) _ _] Hinv'
         [Hfirsts (ids & Hsettle & Hlast) Hnodup] Hp Hl_nl Hothers Hframe Hcase Hset.
  set (olds := lists w1 (phantoms self)) in *.
  assert (i < length (lists w nl))%nat as Hi by (eapply lookup_lt_Some, Hp).
  assert (lists w1 nl !! i = Some p) as Hp1 by (rewrite <- Hrest; [exact Hp | lia]).
  assert (In p (lists w1 nl)) as Hp_in.
  { apply list_elem_of_In. eapply list_elem_of_lookup_2, Hp1. }
  assert (forall x, In x olds -> (x < next_loc w)%nat) as Hold_lt.
  { intros x Hx. apply Hwf_olds in Hx. lia. }
  assert (forall j q', (j < i)%nat -> lists w nl !! j = Some q' -> (q' < next_loc w)%nat)
    as Hbefore_lt.
  { intros j q' Hj Hq'. destruct (Hdone j q' Hj Hq') as (_ & _ & Hlt & _). exact Hlt. }
  assert (forall x, (x < next_loc w)%nat ->
            first_equal (objs w') olds 0 x = first_equal (objs w) olds 0 x) as Hfirst.
  { intros x Hx. apply first_equal_same_but_id.
    intros y [<-|Hy]; apply Hframe; [exact Hx | apply Hold_lt, Hy]. }
  assert (forall x, In x olds -> class_ (objs w' x) = mdpopups_Phantom) as Hmd'.
  { intros x Hx.
    destruct (same_but_id_fields _ _ (rc_objs _ _ _ _ _ Hinv' x (Hwf_olds x Hx))) as (-> & _).
    apply Hmd, Hx. }
  assert (lists w' nl !! i = Some q) as Hq_at.
  { rewrite Hl_nl. apply list_lookup_insert_eq, Hi. }
  assert (class_ (objs w' q) = mdpopups_Phantom) as Hq_md.
  { destruct (rc_done _ _ _ _ _ Hinv' i q ltac:(lia) Hq_at) as (p' & _ & _ & Hs & _).
    destruct (same_but_id_fields _ _ Hs) as (-> & _). apply wrapped_class. }
  assert (forall j q', (j < i)%nat -> lists w nl !! j = Some q' ->
            NoDup (lists w1 nl) -> q' <> q) as Hq_before.
  { intros j q' Hj Hq' Hnd. destruct (Hdone j q' Hj Hq') as (p' & Hp' & Hlt & _ & Hc).
    destruct Hcase as [(_ & ->)| ->]; [|lia].
    destruct Hc as [(_ & ->)|(_ & Hge)].
    - intros ->. pose proof (NoDup_lookup _ _ _ _ Hnd Hp' Hp1). lia.
    - apply Hwf_news in Hp_in. lia. }
  unfold entry_settled in Hset. rewrite Holds in Hset. fold olds in Hset.
  assert (take (S i) (lists w' nl) = take i (lists w nl) ++ [q]) as Htake.
  { rewrite Hl_nl. rewrite (take_S_r _ _ q) by (apply list_lookup_insert_eq, Hi).
    rewrite take_insert_ge by lia. reflexivity. }
  (* the turn, as [settle] tells it *)
  assert (settle_entry (key self) (objs w1) (objs w') olds q (env w) =
            (id (objs w' q), made w w', env w')) as Hturn.
  { unfold settle_entry. destruct (first_equal (objs w') olds 0 q) as [[k|]|e] eqn:Hf;
      [| |destruct Hset].
    - destruct Hset as ((o & Ho & Hid) & Hc & He). rewrite Ho, Hid, He.
      unfold made. rewrite Hc, drop_all.
      assert (In o olds) as Ho_in.
      { apply list_elem_of_In. eapply list_elem_of_lookup_2, Ho. }
      rewrite (Hfirsts k o Ho); [reflexivity|].
      rewrite <- (Hfirst o (Hold_lt o Ho_in)).
      exact (first_equal_first _ _ _ _ _ Hmd' Hq_md Hf Ho).
    - destruct (disabled (env w)).
      + destruct Hset as (Hid & Hc & He). rewrite Hid, He. unfold made.
        rewrite Hc, drop_all. reflexivity.
      + destruct Hset as (html & v1 & n & Hh & Ha & Hid & Hc). rewrite Hh, Ha, Hid.
        unfold made. rewrite Hc, drop_app_length. reflexivity. }
  constructor; fold olds.
  - intros k o Ho Hf'.
    assert (In o olds) as Ho_in.
    { apply list_elem_of_In. eapply list_elem_of_lookup_2, Ho. }
    assert (first_equal (objs w) olds 0 o = Ok (Some k)) as Hf.
    { rewrite <- (Hfirst o (Hold_lt o Ho_in)). exact Hf'. }
    rewrite <- (Hfirsts k o Ho Hf).
    destruct (decide (o = q)) as [->|Hne]; [|now rewrite Hothers].
    rewrite Hf' in Hset. destruct Hset as ((o' & Ho' & Hid) & _).
    rewrite Hid. congruence.
  - exists (ids ++ [id (objs w' q)]). split.
    + rewrite Htake, settle_app.
      rewrite (settle_same_but_id (key self) (objs w1) (objs w) (objs w') olds
                 (take i (lists w nl)) (env w1)).
      2:{ intros x [Hx|Hx]; apply Hframe; [|apply Hold_lt, Hx].
          apply list_elem_of_In, list_elem_of_lookup in Hx as [j Hj].
          pose proof (lookup_lt_Some _ _ _ Hj) as Hlt. rewrite length_take in Hlt.
          rewrite lookup_take_lt in Hj by lia. apply (Hbefore_lt j x); [lia | exact Hj]. }
      rewrite Hsettle. cbn [settle]. rewrite Hturn, app_nil_r.
      assert (exists cs, calls w' = calls w ++ cs) as [cs Hcs].
      { destruct (first_equal (objs w') olds 0 q) as [[k|]|e]; [| |destruct Hset].
        - exists []. rewrite app_nil_r. exact (proj1 (proj2 Hset)).
        - destruct (disabled (env w)).
          + exists []. rewrite app_nil_r. exact (proj1 (proj2 Hset)).
          + destruct Hset as (html & v1 & n & _ & _ & _ & Hc). eexists. exact Hc. }
      destruct (made_app w1 w w' adds cs Hcalls Hcs) as (-> & -> & ->). reflexivity.
    + intros j q' Hj Hq' Hlater.
      assert (length ids = i) as Hlen_ids.
      { rewrite (settle_length _ _ _ _ _ _ _ _ _ Hsettle), length_take. lia. }
      destruct (decide (j = i)) as [->|Hji].
      * rewrite Hq_at in Hq'. injection Hq' as <-.
        rewrite lookup_app_r by lia. rewrite Hlen_ids, Nat.sub_diag. reflexivity.
      * assert (q' <> q) as Hne.
        { intros ->. apply (Hlater i); [lia | exact Hq_at]. }
        rewrite Hl_nl, list_lookup_insert_ne in Hq' by lia.
        rewrite lookup_app_l by lia. rewrite (Hothers q' Hne).
        apply (Hlast j q'); [lia | exact Hq'|].
        intros j' Hj'. specialize (Hlater j' ltac:(lia)).
        rewrite Hl_nl, list_lookup_insert_ne in Hlater by lia. exact Hlater.
  - intros Hnd. rewrite Htake. apply NoDup_app. split; [exact (Hnodup Hnd)|].
    split; [|apply NoDup_singleton].
    intros x Hx Hxq. apply list_elem_of_singleton in Hxq. subst x.
    apply list_elem_of_lookup in Hx as [j Hj].
    pose proof (lookup_lt_Some _ _ _ Hj) as Hlt. rewrite length_take in Hlt.
    rewrite lookup_take_lt in Hj by lia.
    exact (Hq_before j q ltac:(lia) Hj Hnd eq_refl).
Qed.
End SecondLoop.

Section SecondLoopStart.
Context {V : Type} `{Environment V}.

Lemma reconciled_start (self : PhantomSet) (nl : loc) (w1 : World V) :
  reconciled self nl w1 0 w1.
Proof.
  constructor.
  - lia.
  - reflexivity.
  - reflexivity.
  - reflexivity.
  - reflexivity.
  - reflexivity.
  - intros j q Hj. lia.
  - exists []. rewrite app_nil_r. split; [reflexivity | constructor].
  - intros r adds [Hr|(j & Hj & _)] _; [|lia]. right. left.
    apply (in_map (fun o => id (objs w1 o))), Hr.
  - reflexivity.
Qed.

Lemma assigned_start (self : PhantomSet) (nl : loc) (w1 : World V) :
  assigned self nl w1 0 w1.
Proof.
  constructor.
  - reflexivity.
  - exists []. split; [|intros j q Hj; lia].
    rewrite take_0. unfold made. rewrite drop_all. reflexivity.
  - intros _. rewrite take_0. constructor.
Qed.
End SecondLoopStart.

Section SecondLoopRun.
Context {V : Type} `{Environment V}.
Implicit Types (w : World V) (p q : loc).
Variables (self : PhantomSet) (nl : loc) (w1 : World V).
Hypothesis Hmd :
  forall o, In o (lists w1 (phantoms self)) -> class_ (objs w1 o) = mdpopups_Phantom.
Hypothesis Hwf_olds : forall o, In o (lists w1 (phantoms self)) -> (o < next_loc w1)%nat.
Hypothesis Hwf_news : forall p, In p (lists w1 nl) -> (p < next_loc w1)%nat.
Hypothesis Hsafe :
  (forall p, In p (lists w1 nl) -> In p (lists w1 (phantoms self))) \/
  (settings_kept V /\
   (disabled (env w1) = true -> debug_readable env_int (env_prefs (env w1)))).

(** The second loop returns, having given every entry its turn. *)
Lemma reconcile_spec (fuel i : nat) w :
  reconciled self nl w1 i w ->
  (i + fuel = length (lists w1 nl))%nat ->
  exists w',
    reconcile self nl fuel i w = (Ok tt, w') /\
    reconciled self nl w1 (length (lists w1 nl)) w' /\
    (assigned self nl w1 i w -> assigned self nl w1 (length (lists w1 nl)) w').
Proof.
  revert i w. induction fuel as [|fuel IH]; intros i w Hinv Hi.
  - exists w. replace (length (lists w1 nl)) with i by lia.
    split; [reflexivity|]. split; [exact Hinv|]. intros Ha. exact Ha.
  - cbn [reconcile]. unfold bind at 1, list_items at 1.
    destruct (lists w nl !! i) as [p|] eqn:Hp.
    2:{ apply lookup_ge_None in Hp. rewrite (rc_len _ _ _ _ _ Hinv) in Hp. lia. }
    destruct (reconcile_entry_step self nl w1 Hmd Hwf_olds Hwf_news Hsafe i w p Hinv Hp)
      as (wa & q & Hrun & Hinv' & Hl & Hothers & Hframe & Hcase & Hset).
    unfold bind at 1. rewrite Hrun.
    destruct (IH (S i) wa Hinv' ltac:(lia)) as (w' & Hrun' & Hfin & Hassigned).
    exists w'. split; [exact Hrun'|]. split; [exact Hfin|].
    intros Ha. apply Hassigned.
    exact (reconcile_entry_step_assigned self nl w1 Hmd Hwf_olds Hwf_news
             i w p wa q Hinv Hinv' Ha Hp Hl Hothers Hframe Hcase Hset).
Qed.
End SecondLoopRun.

Section Update.
Context {V : Type} `{Environment V}.
Implicit Types (w : World V) (p q : loc).
Variables (self : PhantomSet) (nl : loc) (w0 : World V).
Hypothesis Hmd :
  forall o, In o (lists w0 (phantoms self)) -> class_ (objs w0 o) = mdpopups_Phantom.
Hypothesis Hwf_olds : forall o, In o (lists w0 (phantoms self)) -> (o < next_loc w0)%nat.
Hypothesis Hwf_news : forall p, In p (lists w0 nl) -> (p < next_loc w0)%nat.
Hypothesis Hquery :
  (length (env_query_phantoms (old_ids self w0) (env w0))
   <= length (lists w0 (phantoms self)))%nat.
Hypothesis Hsafe :
  (forall p, In p (lists w0 nl) -> In p (lists w0 (phantoms self))) \/
  (settings_kept V /\
   (disabled (env w0) = true -> debug_readable env_int (env_prefs (env w0)))).

(** [update] returns; its three loops leave the worlds [w1], [w2] and
    [w']. *)
Lemma update_spec :
  exists w1 w2 w',
    update self nl w0 = (Ok (set_phantoms nl self), w') /\
    (env w1 = env w0 /\ calls w1 = calls w0 ++ [QueryPhantoms (old_ids self w0)] /\
     lists w1 = lists w0 /\ next_loc w1 = next_loc w0 /\
     (forall q, same_but_region (objs w1 q) (objs w0 q)) /\
     (forall q, ~ In q (lists w0 (phantoms self)) -> objs w1 q = objs w0 q) /\
     (NoDup (lists w0 (phantoms self)) ->
      forall k o r,
        lists w0 (phantoms self) !! k = Some o ->
        env_query_phantoms (old_ids self w0) (env w0) !! k = Some r ->
        region (objs w1 o) = r)) /\
    reconciled self nl w1 (length (lists w0 nl)) w2 /\
    assigned self nl w1 (length (lists w0 nl)) w2 /\
    objs w' = objs w2 /\ lists w' = lists w2 /\ next_loc w' = next_loc w2 /\
    calls w' =
      calls w2 ++
      map (fun o => ErasePhantomById (id (objs w2 o)))
          (List.filter (to_erase (objs w2) (lists w2 nl)) (lists w0 (phantoms self))).
Proof.
  unfold update. unfold bind at 1, list_items at 1.
  unfold bind at 1. rewrite ids_of_pure. fold (old_ids self w0).
  unfold bind at 1, query_phantoms at 1.
  set (regions := env_query_phantoms (old_ids self w0) (env w0)) in *.
  set (wq := record_call (QueryPhantoms (old_ids self w0)) w0).
  destruct (refresh_regions_spec self regions 0 wq)
    as (w1 & Hrun1 & He1 & Hc1 & Hl1 & Hn1 & Hsame1 & Hout1 & Hreg1); [exact Hquery|].
  simpl in He1, Hc1, Hl1, Hn1, Hsame1, Hout1, Hreg1.
  unfold bind at 1. rewrite Hrun1.
  unfold bind at 1, list_items at 1. rewrite Hl1.
  assert (forall o, In o (lists w1 (phantoms self)) ->
                    class_ (objs w1 o) = mdpopups_Phantom) as Hmd1.
  { rewrite Hl1. intros o Ho.
    destruct (same_but_region_fields _ _ (Hsame1 o)) as (-> & _). apply Hmd, Ho. }
  destruct (reconcile_spec self nl w1 Hmd1
              ltac:(rewrite Hl1, Hn1; exact Hwf_olds)
              ltac:(rewrite Hl1, Hn1; exact Hwf_news)
              ltac:(rewrite Hl1, He1; exact Hsafe)
              (length (lists w0 nl)) 0 w1 (reconciled_start self nl w1)
              ltac:(rewrite Hl1; reflexivity))
    as (w2 & Hrun2 & Hinv & Hassigned).
  specialize (Hassigned (assigned_start self nl w1)).
  rewrite Hl1 in Hinv, Hassigned.
  unfold bind at 1. rewrite Hrun2.
  unfold bind at 1, list_items at 1.
  pose proof (rc_olds _ _ _ _ _ Hinv) as Holds2.
  rewrite Hl1 in Holds2. rewrite Holds2.
  destruct (cleanup_spec nl (lists w0 (phantoms self)) w2)
    as (w' & Hrun3 & Ho3 & Hl3 & Hn3 & Hc3).
  { intros o Ho. apply first_equal_returns.
    - destruct (same_but_id_fields _ _
                  (rc_objs _ _ _ _ _ Hinv o ltac:(rewrite Hn1; apply Hwf_olds, Ho)))
        as (-> & _).
      apply Hmd1. rewrite Hl1. exact Ho.
    - intros q Hq. apply list_elem_of_In, list_elem_of_lookup in Hq as [j Hj].
      pose proof (lookup_lt_Some _ _ _ Hj) as Hlt.
      rewrite (rc_len _ _ _ _ _ Hinv), Hl1 in Hlt.
      destruct (rc_done _ _ _ _ _ Hinv j q Hlt Hj) as (p & _ & _ & Hs & _).
      destruct (same_but_id_fields _ _ Hs) as (-> & _). apply wrapped_class. }
  unfold bind at 1. rewrite Hrun3.
  exists w1, w2, w'. split; [reflexivity|].
  split.
  { split; [exact He1|]. split; [exact Hc1|]. split; [exact Hl1|]. split; [exact Hn1|].
    split; [exact Hsame1|]. split.
    - intros q Hq. apply Hout1. intros k _ Hk. apply Hq.
      apply list_elem_of_In. eapply list_elem_of_lookup_2, Hk.
    - intros Hnd k o r Ho Hr. exact (Hreg1 Hnd k o r Ho Hr). }
  split; [exact Hinv|]. split; [exact Hassigned|].
  repeat split; assumption.
Qed.
End Update.

Lemma first_equal_all_false (st : loc -> Phantom) (items : list loc) (i : nat) (p : loc) :
  (forall o, In o items -> o <> p /\ Phantom__eq__ (st o) (st p) = Ok false) ->
  first_equal st items i p = Ok None.
Proof.
  revert i. induction items as [|item rest IH]; intros i Hall; [reflexivity|].
  cbn [first_equal]. destruct (Hall item (or_introl eq_refl)) as [Hne Hf].
  destruct (decide (item = p)); [contradiction|]. rewrite Hf.
  apply IH. intros o Ho. apply Hall. now right.
Qed.

Lemma absent_iff (st : loc -> Phantom) (items : list loc) (p : loc) :
  absent st items p = true <->
  forall o, In o items -> o <> p /\ Phantom__eq__ (st o) (st p) = Ok false.
Proof.
  unfold absent. split.
  - destruct (first_equal st items 0 p) as [[k|]|e] eqn:E; try discriminate.
    intros _. exact (first_equal_None _ _ _ _ E).
  - intros Hall. now rewrite first_equal_all_false.
Qed.

Lemma to_erase_iff (st : loc -> Phantom) (news : list loc) (o : loc) :
  to_erase st news o = true <->
  (forall q, In q news -> q <> o /\ Phantom__eq__ (st q) (st o) = Ok false) /\
  region (st o) <> region_deleted.
Proof.
  unfold to_erase. rewrite andb_true_iff, absent_iff, negb_true_iff, region_eqb_neq.
  reflexivity.
Qed.

Lemma same_but_region_and_id_fields (o o' : Phantom) :
  same_but_region_and_id o o' ->
  class_ o = class_ o' /\ content o = content o' /\ layout o = layout o' /\
  on_navigate o = on_navigate o' /\ md o = md o' /\ css o = css o' /\ nl2br o = nl2br o'.
Proof.
  destruct o, o'. unfold same_but_region_and_id, set_id, set_region. simpl.
  intros [=]. subst. repeat split.
Qed.

Lemma same_but_region_and_id_compose (o2 o1 o0 : Phantom) :
  same_but_id o2 o1 -> same_but_region o1 o0 -> same_but_region_and_id o2 o0.
Proof.
  destruct o2, o1, o0. unfold same_but_region_and_id, same_but_id, same_but_region,
    set_id, set_region. simpl. intros [=] [=]. subst. reflexivity.
Qed.

Section SettleIds.
Context {V : Type} `{Environment V}.

(** [settle] reads nothing but the ids from the store of the old ids. *)
Lemma settle_old_ids (key : string) (st0 st0' st : loc -> Phantom) (olds qs : list loc)
    (v : V) :
  (forall o, id (st0' o) = id (st0 o)) ->
  settle key st0' st olds qs v = settle key st0 st olds qs v.
Proof.
  intros Hids. revert v. induction qs as [|q rest IH]; intros v; [reflexivity|].
  cbn [settle].
  assert (settle_entry key st0' st olds q v = settle_entry key st0 st olds q v) as ->.
  { unfold settle_entry. destruct (first_equal st olds 0 q) as [[k|]|e]; try reflexivity.
    destruct (olds !! k); [rewrite Hids|]; reflexivity. }
  destruct (settle_entry key st0 st olds q v) as [[x cs] v1]. rewrite IH. reflexivity.
Qed.
End SettleIds.

Section UpdateFinal.
Context {V : Type} `{Environment V}.
Implicit Types (w : World V) (p q : loc).
Variables (self : PhantomSet) (nl : loc) (w0 : World V).
Hypothesis Hmd :
  forall o, In o (lists w0 (phantoms self)) -> class_ (objs w0 o) = mdpopups_Phantom.
Hypothesis Hwf_olds : forall o, In o (lists w0 (phantoms self)) -> (o < next_loc w0)%nat.
Hypothesis Hwf_news : forall p, In p (lists w0 nl) -> (p < next_loc w0)%nat.
Hypothesis Hquery :
  (length (env_query_phantoms (old_ids self w0) (env w0))
   <= length (lists w0 (phantoms self)))%nat.
Hypothesis Hsafe :
  (forall p, In p (lists w0 nl) -> In p (lists w0 (phantoms self))) \/
  (settings_kept V /\
   (disabled (env w0) = true -> debug_readable env_int (env_prefs (env w0)))).

(** [update] in terms of the world it starts in and the world it leaves. *)
Lemma update_final :
  exists w' adds ids v2,
    update self nl w0 = (Ok (set_phantoms nl self), w') /\
    calls w' =
      calls w0 ++ QueryPhantoms (old_ids self w0) :: adds ++
      removals (objs w') (lists w' nl) (lists w0 (phantoms self)) /\
    Forall is_add adds /\
    (next_loc w0 <= next_loc w')%nat /\
    (forall l, l <> nl -> lists w' l = lists w0 l) /\
    length (lists w' nl) = length (lists w0 nl) /\
    (forall r, (r < next_loc w0)%nat -> same_but_region_and_id (objs w' r) (objs w0 r)) /\
    (forall i p, lists w0 nl !! i = Some p ->
       exists q,
         lists w' nl !! i = Some q /\ (q < next_loc w')%nat /\
         same_but_id (objs w' q) (wrapped (objs w' p)) /\
         ((class_ (objs w0 p) = mdpopups_Phantom /\ q = p) \/
          (class_ (objs w0 p) = sublime_Phantom /\ (next_loc w0 <= q)%nat))) /\
    (forall q, In q (lists w' nl) ->
       id_known (old_ids self w0) adds (id (objs w' q))) /\
    (NoDup (lists w0 (phantoms self)) ->
     forall k o r,
       lists w0 (phantoms self) !! k = Some o ->
       env_query_phantoms (old_ids self w0) (env w0) !! k = Some r ->
       region (objs w' o) = r) /\
    (forall k o,
       lists w0 (phantoms self) !! k = Some o ->
       first_equal (objs w') (lists w0 (phantoms self)) 0 o = Ok (Some k) ->
       id (objs w' o) = id (objs w0 o)) /\
    settle (key self) (objs w0) (objs w') (lists w0 (phantoms self)) (lists w' nl) (env w0)
      = (ids, adds, v2) /\
    (forall j q, lists w' nl !! j = Some q ->
       (forall j', (j < j')%nat -> lists w' nl !! j' <> Some q) ->
       ids !! j = Some (id (objs w' q))) /\
    (NoDup (lists w0 nl) -> NoDup (lists w' nl)).
Proof.
  destruct (update_spec self nl w0 Hmd Hwf_olds Hwf_news Hquery Hsafe)
    as (w1 & w2 & w' & Hrun & (He1 & Hc1 & Hl1 & Hn1 & Hsame1 & Hout1 & Hreg1)
        & Hinv & Hassigned & Ho3 & Hl3 & Hn3 & Hc3).
  destruct Hinv as [Hnext Holds2 Hlsts Hobjs Hlen Hrest Hdone (adds & Hc2 & Hadds) Hids _].
  destruct Hassigned as [Hfirsts (ids & Hsettle & Hlast) Hnodup].
  rewrite Hl1 in Hlsts, Hlen, Hdone, Hfirsts, Hsettle, Hnodup.
  rewrite Hn1 in Hnext, Hobjs, Hdone. rewrite He1 in Hsettle.
  assert (made w1 w2 = adds) as Hmade.
  { unfold made. rewrite Hc2, drop_app_length. reflexivity. }
  rewrite Hmade in Hsettle.
  assert (forall o, id (objs w1 o) = id (objs w0 o)) as Hid1.
  { intros o.
    destruct (same_but_region_fields _ _ (Hsame1 o)) as (_ & _ & _ & _ & _ & _ & _ & Hid).
    exact Hid. }
  exists w', adds, ids, (env w2). rewrite Ho3, Hl3, Hn3. split; [exact Hrun|].
  split.
  { rewrite Hc3, Hc2, Hc1. unfold removals. rewrite <- !app_assoc. reflexivity. }
  split; [exact Hadds|]. split; [exact Hnext|]. split; [exact Hlsts|].
  split; [exact Hlen|].
  split.
  { intros r Hr. eapply same_but_region_and_id_compose; [apply Hobjs, Hr | apply Hsame1]. }
  assert (forall j q, lists w2 nl !! j = Some q ->
            exists p, lists w0 nl !! j = Some p /\ (q < next_loc w2)%nat /\
              same_but_id (objs w2 q) (wrapped (objs w1 p)) /\
              ((class_ (objs w1 p) = mdpopups_Phantom /\ q = p) \/
               (class_ (objs w1 p) = sublime_Phantom /\ (next_loc w0 <= q)%nat))) as Hentry.
  { intros j q Hq. apply (Hdone j q); [|exact Hq].
    rewrite <- Hlen. eapply lookup_lt_Some, Hq. }
  split.
  { intros i p Hp.
    destruct (lists w2 nl !! i) as [q|] eqn:Hq.
    2:{ apply lookup_ge_None in Hq. apply lookup_lt_Some in Hp. lia. }
    destruct (Hentry i q Hq) as (p' & Hp' & Hlt & Hs & Hcase).
    assert (p' = p) as -> by congruence.
    assert (p < next_loc w0)%nat as Hp_lt.
    { apply Hwf_news, list_elem_of_In. eapply list_elem_of_lookup_2, Hp. }
    destruct (same_but_region_fields _ _ (Hsame1 p)) as (Hcls & _).
    exists q. split; [reflexivity|]. split; [exact Hlt|]. split.
    - eapply same_but_id_trans; [exact Hs|].
      apply same_but_id_sym, wrapped_same_but_id, Hobjs, Hp_lt.
    - rewrite <- Hcls. exact Hcase. }
  split.
  { intros q Hq. apply list_elem_of_In, list_elem_of_lookup in Hq as [j Hj].
    assert (old_ids self w0 =
            map (fun o => id (objs w1 o)) (lists w1 (phantoms self))) as ->.
    { unfold old_ids. rewrite Hl1. apply map_ext. intros o. symmetry. apply Hid1. }
    apply Hids; [|exact Hc2]. right. exists j. split; [|exact Hj].
    rewrite <- Hlen. eapply lookup_lt_Some, Hj. }
  split.
  { intros Hnd k o r Ho Hr.
    assert (o < next_loc w0)%nat as Ho_lt.
    { apply Hwf_olds, list_elem_of_In. eapply list_elem_of_lookup_2, Ho. }
    destruct (same_but_id_fields _ _ (Hobjs o Ho_lt)) as (_ & -> & _).
    exact (Hreg1 Hnd k o r Ho Hr). }
  split.
  { intros k o Ho Hf. rewrite (Hfirsts k o Ho Hf). apply Hid1. }
  split.
  { rewrite <- (settle_old_ids (key self) (objs w0) (objs w1) (objs w2) _ _ _ Hid1).
    rewrite <- Hlen, take_ge in Hsettle by lia. exact Hsettle. }
  split.
  { intros j q Hq Hlater. apply (Hlast j q); [|exact Hq|].
    - rewrite <- Hlen. eapply lookup_lt_Some, Hq.
    - intros j' Hj'. apply Hlater. lia. }
  intros Hnd. specialize (Hnodup Hnd). rewrite <- Hlen, take_ge in Hnodup by lia.
  exact Hnodup.
Qed.
End UpdateFinal.

Section UpdateSettled.
Context {V : Type} `{Environment V}.
Implicit Types (w : World V) (p q : loc).
Variables (self : PhantomSet) (nl : loc) (w0 : World V).
Hypothesis Hmd :
  forall o, In o (lists w0 (phantoms self)) -> class_ (objs w0 o) = mdpopups_Phantom.
Hypothesis Hwf_olds : forall o, In o (lists w0 (phantoms self)) -> (o < next_loc w0)%nat.
Hypothesis Hwf_news : forall p, In p (lists w0 nl) -> (p < next_loc w0)%nat.
Hypothesis Hquery :
  (length (env_query_phantoms (old_ids self w0) (env w0))
   <= length (lists w0 (phantoms self)))%nat.
Hypothesis Hkept : settings_kept V.
Hypothesis Hreadable :
  disabled (env w0) = true -> debug_readable env_int (env_prefs (env w0)).

(** [update] returns, and every entry of the desired list is settled: it
    holds the id of the first old record equal to it, or, having no
    equal, [None] if creation is disabled and otherwise the answer to one
    of the calls made for it. *)
Lemma update_settled :
  exists w' adds ids v2,
    update self nl w0 = (Ok (set_phantoms nl self), w') /\
    calls w' =
      calls w0 ++ QueryPhantoms (old_ids self w0) :: adds ++
      removals (objs w') (lists w' nl) (lists w0 (phantoms self)) /\
    (next_loc w0 <= next_loc w')%nat /\
    (forall l, l <> nl -> lists w' l = lists w0 l) /\
    length (lists w' nl) = length (lists w0 nl) /\
    (forall r, (r < next_loc w0)%nat -> same_but_region_and_id (objs w' r) (objs w0 r)) /\
    (forall i p, lists w0 nl !! i = Some p ->
       exists q,
         lists w' nl !! i = Some q /\ (q < next_loc w')%nat /\
         same_but_id (objs w' q) (wrapped (objs w' p)) /\
         ((class_ (objs w0 p) = mdpopups_Phantom /\ q = p) \/
          (class_ (objs w0 p) = sublime_Phantom /\ (next_loc w0 <= q)%nat))) /\
    (NoDup (lists w0 (phantoms self)) ->
     forall k o r,
       lists w0 (phantoms self) !! k = Some o ->
       env_query_phantoms (old_ids self w0) (env w0) !! k = Some r ->
       region (objs w' o) = r) /\
    (forall k o,
       lists w0 (phantoms self) !! k = Some o ->
       first_equal (objs w') (lists w0 (phantoms self)) 0 o = Ok (Some k) ->
       id (objs w' o) = id (objs w0 o)) /\
    settle (key self) (objs w0) (objs w') (lists w0 (phantoms self)) (lists w' nl) (env w0)
      = (ids, adds, v2) /\
    (forall j q, lists w' nl !! j = Some q ->
       (forall j', (j < j')%nat -> lists w' nl !! j' <> Some q) ->
       ids !! j = Some (id (objs w' q))) /\
    (NoDup (lists w0 nl) -> NoDup (lists w' nl)) /\
    (forall o, In o (lists w0 (phantoms self)) -> class_ (objs w' o) = mdpopups_Phantom) /\
    (forall q, In q (lists w' nl) -> class_ (objs w' q) = mdpopups_Phantom) /\
    (forall q, In q (lists w' nl) ->
       match first_equal (objs w') (lists w0 (phantoms self)) 0 q with
       | Ok (Some k) =>
           exists o,
             lists w0 (phantoms self) !! k = Some o /\
             (o = q \/ Phantom__eq__ (objs w' o) (objs w' q) = Ok true) /\
             id (objs w' q) = id (objs w0 o)
       | Ok None =>
           (forall o, In o (lists w0 (phantoms self)) ->
              Phantom__eq__ (objs w' o) (objs w' q) = Ok false) /\
           if disabled (env w0) then id (objs w' q) = None
           else
             exists html n,
               In (AddPhantom (key self) (region (objs w' q)) html (layout (objs w' q))
                     (on_navigate (objs w' q)) n) adds /\
               id (objs w' q) = Some n
       | Raise _ => False
       end).
Proof.
  destruct (update_final self nl w0 Hmd Hwf_olds Hwf_news Hquery
              (or_intror (conj Hkept Hreadable)))
    as (w' & adds & ids & v2 & Hrun & Hcalls & _ & Hnext & Hlsts & Hlen & Hobjs & Hentries
        & _ & Hregions & Hfirsts & Hsettle & Hlast & Hnodup).
  exists w', adds, ids, v2.
  assert (forall o, In o (lists w0 (phantoms self)) ->
                    class_ (objs w' o) = mdpopups_Phantom) as Hmd'.
  { intros o Ho.
    destruct (same_but_region_and_id_fields _ _ (Hobjs o (Hwf_olds o Ho))) as (-> & _).
    apply Hmd, Ho. }
  assert (forall q, In q (lists w' nl) -> class_ (objs w' q) = mdpopups_Phantom) as Hmd_new.
  { intros q Hq. apply list_elem_of_In, list_elem_of_lookup in Hq as [j Hj].
    destruct (lists w0 nl !! j) as [p|] eqn:Hp.
    2:{ apply lookup_ge_None in Hp. apply lookup_lt_Some in Hj. lia. }
    destruct (Hentries j p Hp) as (q' & Hq' & _ & Hs & _).
    assert (q' = q) as -> by congruence.
    destruct (same_but_id_fields _ _ Hs) as (-> & _). apply wrapped_class. }
  do 12 (split; [assumption|]). split; [exact Hmd'|]. split; [exact Hmd_new|].
  intros q Hq.
  destruct (last_occurrence _ _ Hq) as (j & Hj & Hlater).
  pose proof (Hlast j q Hj Hlater) as Hid.
  destruct (settle_lookup _ _ _ _ _ _ _ _ _ j q Hkept Hsettle Hj) as (x & Hx & Hcase).
  assert (x = id (objs w' q)) as -> by congruence.
  destruct (first_equal_returns (objs w') (lists w0 (phantoms self)) 0 q
              (Hmd_new q Hq) Hmd') as [r Hr].
  rewrite Hr in Hcase |- *. destruct r as [k|].
  - destruct (first_equal_Some _ _ _ _ _ Hr) as (j0 & o & -> & Hj0 & Heq & _).
    simpl in Hcase |- *. rewrite Hj0 in Hcase. exists o. repeat split; assumption.
  - split; [|exact Hcase].
    intros o Ho. exact (proj2 (first_equal_None _ _ _ _ Hr o Ho)).
Qed.
End UpdateSettled.

Section UpdateTheorems.
Context {V : Type} `{Environment V}.
Implicit Types (w : World V) (p q : loc).

(** C10, amended. Let [update] run on a set whose list holds records of
    the subclass, in an environment that leaves the settings alone, and
    let the debug level be readable should [mdpopups.disable] be on.
    Then [update] returns and has changed the caller's list in place: the
    list keeps its length; an entry of the subclass stays the object it
    was; an entry of the editor's class is replaced, inside the list, by
    a new object of the subclass with the same region, content, layout
    and callback and with [md=False], [css=None], [nl2br=False]; no other
    list changes; and the set now refers to that very list object.  Every
    entry has been given its id, whatever it held before: the id that the
    first old record equal to it held when [update] was called, or else
    what [add_phantom] returned, [None] with [mdpopups.disable] on, and
    otherwise the answer to one of the [AddPhantom] calls that this
    update made with the entry's region, layout and callback.  Position
    by position, the ids given and the calls made are those that [settle]
    tells (an object that stands in the list more than once holds the id
    given at its last position). *)
Theorem update_in_place (self : PhantomSet) (new_phantoms : loc) (w : World V) :
  (forall o, In o (lists w (phantoms self)) -> class_ (objs w o) = mdpopups_Phantom) ->
  (forall o, In o (lists w (phantoms self)) -> (o < next_loc w)%nat) ->
  (forall p, In p (lists w new_phantoms) -> (p < next_loc w)%nat) ->
  (length (env_query_phantoms (old_ids self w) (env w))
   <= length (lists w (phantoms self)))%nat ->
  settings_kept V ->
  (disabled (env w) = true -> debug_readable env_int (env_prefs (env w))) ->
  exists self' w' adds ids v2,
    update self new_phantoms w = (Ok self', w') /\
    phantoms self' = new_phantoms /\ key self' = key self /\
    calls w' =
      calls w ++ QueryPhantoms (old_ids self w) :: adds ++
      removals (objs w') (lists w' new_phantoms) (lists w (phantoms self)) /\
    length (lists w' new_phantoms) = length (lists w new_phantoms) /\
    (forall l, l <> new_phantoms -> lists w' l = lists w l) /\
    (forall i p, lists w new_phantoms !! i = Some p ->
       exists q,
         lists w' new_phantoms !! i = Some q /\
         class_ (objs w' q) = mdpopups_Phantom /\
         match class_ (objs w p) with
         | mdpopups_Phantom => q = p
         | sublime_Phantom =>
             (next_loc w <= q < next_loc w')%nat /\
             region (objs w' q) = region (objs w' p) /\
             content (objs w' q) = content (objs w p) /\
             layout (objs w' q) = layout (objs w p) /\
             on_navigate (objs w' q) = on_navigate (objs w p) /\
             md (objs w' q) = false /\ css (objs w' q) = None /\
             nl2br (objs w' q) = false
         end) /\
    (forall q, In q (lists w' new_phantoms) ->
       match first_equal (objs w') (lists w (phantoms self)) 0 q with
       | Ok (Some k) =>
           exists o, lists w (phantoms self) !! k = Some o /\
                     id (objs w' q) = id (objs w o)
       | Ok None =>
           if disabled (env w) then id (objs w' q) = None
           else
             exists html n,
               In (AddPhantom (key self) (region (objs w' q)) html (layout (objs w' q))
                     (on_navigate (objs w' q)) n) adds /\
               id (objs w' q) = Some n
       | Raise _ => False
       end) /\
    settle (key self) (objs w) (objs w') (lists w (phantoms self)) (lists w' new_phantoms)
      (env w) = (ids, adds, v2) /\
    (forall j q, lists w' new_phantoms !! j = Some q ->
       (forall j', (j < j')%nat -> lists w' new_phantoms !! j' <> Some q) ->
       ids !! j = Some (id (objs w' q))).
Proof.
  intros Hmd Hwf_olds Hwf_news Hquery Hkept Hreadable.
  destruct (update_settled self new_phantoms w Hmd Hwf_olds Hwf_news Hquery Hkept Hreadable)
    as (w' & adds & ids & v2 & Hrun & Hcalls & Hnext & Hlsts & Hlen & Hobjs & Hentries
        & _ & _ & Hsettle & Hlast & _ & _ & _ & Hsettled).
  exists (set_phantoms new_phantoms self), w', adds, ids, v2.
  split; [exact Hrun|]. split; [reflexivity|]. split; [reflexivity|].
  split; [exact Hcalls|]. split; [exact Hlen|]. split; [exact Hlsts|].
  split; [|split; [|split; [exact Hsettle | exact Hlast]]].
  - intros i p Hp. destruct (Hentries i p Hp) as (q & Hq & Hlt & Hs & Hcase).
    assert (p < next_loc w)%nat as Hp_lt.
    { apply Hwf_news, list_elem_of_In. eapply list_elem_of_lookup_2, Hp. }
    destruct (same_but_region_and_id_fields _ _ (Hobjs p Hp_lt))
      as (Hcls & Hcon & Hlay & Hnav & _).
    destruct (same_but_id_fields _ _ Hs) as (Hc & Hr & Hco & Hl & Hn & Hm & Hcs & Hnl).
    exists q. split; [exact Hq|]. split; [rewrite Hc; apply wrapped_class|].
    destruct Hcase as [(Hp_cls & ->)|(Hp_cls & Hge)]; rewrite Hp_cls; [reflexivity|].
    unfold wrapped in Hr, Hco, Hl, Hn, Hm, Hcs, Hnl.
    rewrite Hcls, Hp_cls in Hr, Hco, Hl, Hn, Hm, Hcs, Hnl. simpl in *.
    repeat split; try assumption; try lia; congruence.
  - intros q Hq. specialize (Hsettled q Hq).
    destruct (first_equal (objs w') (lists w (phantoms self)) 0 q) as [[k|]|e];
      [| |exact Hsettled].
    + destruct Hsettled as (o & Ho & _ & Hid). exists o. split; assumption.
    + exact (proj2 Hsettled).
Qed.
End UpdateTheorems.

(** An entry of the editor's class is converted in place and created. *)
Lemma update_in_place_witness :
  exists self' w',
    update the_set 1%nat world_plain = (Ok self', w') /\
    phantoms self' = 1%nat /\
    length (lists w' 1%nat) = length (lists world_plain 1%nat).
Proof.
  assert (forall o, In o (lists world_plain (phantoms the_set)) ->
                    class_ (objs world_plain o) = mdpopups_Phantom) as H2
    by (intros o []).
  assert (forall o, In o (lists world_plain (phantoms the_set)) ->
                    (o < next_loc world_plain)%nat) as H3
    by (intros o []).
  assert (forall p, In p (lists world_plain 1%nat) -> (p < next_loc world_plain)%nat) as H4
    by (intros p [<-|[]]; simpl; lia).
  assert (length (env_query_phantoms (old_ids the_set world_plain) (env world_plain))
          <= length (lists world_plain (phantoms the_set)))%nat as H5
    by (simpl; lia).
  assert (settings_kept Editor) as H6 by (repeat split).
  assert (disabled (env world_plain) = true ->
          debug_readable env_int (env_prefs (env world_plain))) as H7
    by (intros _; exists 0; reflexivity).
  destruct (update_in_place the_set 1%nat world_plain H2 H3 H4 H5 H6 H7)
    as (self' & w' & adds & ids & v2 & Hrun & Hp & _ & _ & Hlen & _).
  exists self', w'. split; [exact Hrun|]. split; [exact Hp | exact Hlen].
Defined.

(** C10 as stated fails: not every call gets that far.  With
    [mdpopups.disable] on and [mdpopups.debug] set to a word that [int]
    rejects, [add_phantom] ends in the exception of [_debug], inside the
    [except] branch of [update]: the entry of the editor's class has been
    replaced in the caller's list (by the new object 1), but it has been
    given no id, and [update] ends in the exception before the set takes
    the list. *)
Lemma update_stops_at_unreadable_debug :
  let r := update the_set 1%nat world_unreadable in
  fst r = Raise LibraryError /\
  lists (snd r) 1%nat = [1%nat] /\
  class_ (objs (snd r) 1%nat) = mdpopups_Phantom /\
  id (objs (snd r) 1%nat) = None /\
  calls (snd r) = [QueryPhantoms []].
Proof. vm_compute. repeat split. Qed.

Section ReuseTheorem.
Context {V : Type} `{Environment V}.
Implicit Types (w : World V) (p q : loc).

(** With creation enabled, [settle] tells one call for every entry that
    has no equal among the old records, and none for any other. *)
Lemma settle_count (key : string) (st0 st : loc -> Phantom) (olds qs : list loc) (v v' : V)
    (ids : list pid) (cs : list call) :
  settings_kept V -> disabled v = false ->
  settle key st0 st olds qs v = (ids, cs, v') ->
  length cs = length (List.filter (absent st olds) qs).
Proof.
  intros Hkept. revert v ids cs v'. induction qs as [|q rest IH]; intros v ids cs v' Hen.
  - intros [= _ <- _]. reflexivity.
  - cbn [settle List.filter].
    destruct (settle_entry key st0 st olds q v) as [[x cs0] v1] eqn:E.
    destruct (settle key st0 st olds rest v1) as [[ids1 cs1] v2] eqn:E1.
    intros [= _ <- _]. rewrite length_app.
    pose proof (settle_entry_prefs _ _ _ _ _ _ _ _ _ Hkept E) as Hprefs.
    rewrite (IH v1 ids1 cs1 v2); [|now rewrite (disabled_prefs _ _ Hprefs)|exact E1].
    apply settle_entry_cases in E. unfold absent. rewrite Hen in E.
    destruct (first_equal st olds 0 q) as [[k|]|e].
    + destruct E as (_ & -> & _). reflexivity.
    + destruct E as (html & va & n & _ & _ & _ & ->). reflexivity.
    + destruct E as (_ & -> & _). reflexivity.
Qed.

(** C7, amended. Let [update] run on a set whose list holds records of
    the subclass, in an environment that leaves the settings alone, and
    let the debug level be readable should [mdpopups.disable] be on.
    Then [update] returns, and the calls it makes are the query, then the
    creations, then the removals.  The creations and the ids given are
    those that [settle] tells for the desired list as it stands
    afterwards, turn by turn from the environment in which [update]
    began: every entry holds the id listed for its position (for an
    object that stands in the list more than once, the one listed for its
    last position).  So a desired record that has an equal among the old
    records holds the id that the first of them held when [update] was
    called; no phantom is created for it and that old record is not
    removed.  A desired record without an equal is handed to
    [add_phantom]: with [mdpopups.disable] off, the document rendered
    from it (or [IDK]) goes to the display primitive in an [AddPhantom]
    call and the record holds the answer, and these calls are as many as
    there are such entries; with the setting on, nothing is created and
    the record holds [None]. *)
Theorem update_reuses_or_creates (self : PhantomSet) (new_phantoms : loc) (w : World V) :
  (forall o, In o (lists w (phantoms self)) -> class_ (objs w o) = mdpopups_Phantom) ->
  (forall o, In o (lists w (phantoms self)) -> (o < next_loc w)%nat) ->
  (forall p, In p (lists w new_phantoms) -> (p < next_loc w)%nat) ->
  (length (env_query_phantoms (old_ids self w) (env w))
   <= length (lists w (phantoms self)))%nat ->
  settings_kept V ->
  (disabled (env w) = true -> debug_readable env_int (env_prefs (env w))) ->
  exists w' adds ids v2,
    update self new_phantoms w = (Ok (set_phantoms new_phantoms self), w') /\
    calls w' =
      calls w ++ QueryPhantoms (old_ids self w) :: adds ++
      removals (objs w') (lists w' new_phantoms) (lists w (phantoms self)) /\
    settle (key self) (objs w) (objs w') (lists w (phantoms self)) (lists w' new_phantoms)
      (env w) = (ids, adds, v2) /\
    (forall j q, lists w' new_phantoms !! j = Some q ->
       (forall j', (j < j')%nat -> lists w' new_phantoms !! j' <> Some q) ->
       ids !! j = Some (id (objs w' q))) /\
    (forall q, In q (lists w' new_phantoms) ->
       match first_equal (objs w') (lists w (phantoms self)) 0 q with
       | Ok (Some k) =>
           exists o,
             lists w (phantoms self) !! k = Some o /\
             (o = q \/ Phantom__eq__ (objs w' o) (objs w' q) = Ok true) /\
             id (objs w' q) = id (objs w o) /\
             to_erase (objs w') (lists w' new_phantoms) o = false
       | Ok None =>
           (forall o, In o (lists w (phantoms self)) ->
              Phantom__eq__ (objs w' o) (objs w' q) = Ok false) /\
           if disabled (env w) then id (objs w' q) = None
           else
             exists html n,
               In (AddPhantom (key self) (region (objs w' q)) html (layout (objs w' q))
                     (on_navigate (objs w' q)) n) adds /\
               id (objs w' q) = Some n
       | Raise _ => False
       end) /\
    (if disabled (env w) then adds = []
     else length adds =
          length (List.filter (absent (objs w') (lists w (phantoms self)))
                    (lists w' new_phantoms))).
Proof.
  intros Hmd Hwf_olds Hwf_news Hquery Hkept Hreadable.
  destruct (update_settled self new_phantoms w Hmd Hwf_olds Hwf_news Hquery Hkept Hreadable)
    as (w' & adds & ids & v2 & Hrun & Hcalls & _ & _ & _ & _ & _ & _ & _ & Hsettle & Hlast
        & _ & Hmd' & Hmd_new & Hsettled).
  exists w', adds, ids, v2. split; [exact Hrun|]. split; [exact Hcalls|].
  split; [exact Hsettle|]. split; [exact Hlast|]. split.
  - intros q Hq. specialize (Hsettled q Hq).
    destruct (first_equal (objs w') (lists w (phantoms self)) 0 q) as [[k|]|e];
      [|exact Hsettled|exact Hsettled].
    destruct Hsettled as (o & Ho & Heq & Hid). exists o.
    split; [exact Ho|]. split; [exact Heq|]. split; [exact Hid|].
    destruct (to_erase (objs w') (lists w' new_phantoms) o) eqn:He; [|reflexivity].
    apply to_erase_iff in He as [Hall _]. destruct (Hall q Hq) as [Hne Hfalse].
    destruct Heq as [->|Heq]; [contradiction|].
    assert (In o (lists w (phantoms self))) as Ho_in.
    { apply list_elem_of_In. eapply list_elem_of_lookup_2, Ho. }
    rewrite (Phantom__eq__sym _ _ (Hmd' o Ho_in) (Hmd_new q Hq) Heq) in Hfalse.
    discriminate.
  - destruct (disabled (env w)) eqn:Hd.
    + exact (proj1 (settle_disabled _ _ _ _ _ _ _ _ _ Hd Hsettle)).
    + exact (settle_count _ _ _ _ _ _ _ _ _ Hkept Hd Hsettle).
Qed.
End ReuseTheorem.

Section RemovalTheorem.
Context {V : Type} `{Environment V}.
Implicit Types (w : World V) (p q : loc).

End RemovalTheorem.

(** *** The examples of the specification, run *)

(** Old set [{id=1, region=[0,5], content="a"}], desired [{region=[0,5],
    content="a"}]: the desired record takes the id 1 and the only call is
    the query. *)
Example update_unchanged_reuses_id :
  let r := update the_set 1%nat world_unchanged in
  fst r = Ok (mkPhantomSet "key" 1%nat) /\
  calls (snd r) = [QueryPhantoms [Some 1]] /\
  map (fun q => id (objs (snd r) q)) (lists (snd r) 1%nat) = [Some 1].
Proof. vm_compute. repeat split. Qed.

(** Desired [{region=[0,5], content="b"}]: a phantom is created, the old
    one is removed. *)
Example update_changed_replaces :
  let r := update the_set 1%nat world_changed in
  fst r = Ok (mkPhantomSet "key" 1%nat) /\
  calls (snd r) =
    [QueryPhantoms [Some 1];
     AddPhantom "key" (mkRegion 0 5) (cp "<style></style>b") 0 None 2;
     ErasePhantomById (Some 1)] /\
  map (fun q => id (objs (snd r) q)) (lists (snd r) 1%nat) = [Some 2].
Proof. vm_compute. repeat split. Qed.

(** A desired list that holds one record twice, from an empty set: both
    turns create a phantom, and the record keeps the id of the second. *)
Example update_repeated_entry :
  let r := update the_set 1%nat world_repeated in
  fst r = Ok (mkPhantomSet "key" 1%nat) /\
  calls (snd r) =
    [QueryPhantoms [];
     AddPhantom "key" (mkRegion 0 5) (cp "<style></style>a") 0 None 1;
     AddPhantom "key" (mkRegion 0 5) (cp "<style></style>a") 0 None 2] /\
  map (fun q => id (objs (snd r) q)) (lists (snd r) 1%nat) = [Some 2; Some 2].
Proof. vm_compute. repeat split. Qed.

(** The settings have to stay as they are while [update] runs: in an
    environment whose theme sets [mdpopups.disable] and a debug level that
    [int] rejects, the first record is created and the turn of the second
    ends in the exception of [_debug]. *)
Example update_under_changing_settings :
  disabled (env world_meddled) = false /\
  (let r := update the_set 1%nat world_meddled in
   fst r = Raise LibraryError /\
   calls (snd r) =
     [QueryPhantoms [];
      AddPhantom "key" (mkRegion 0 5) (cp "<style></style>a") 0 None 1]).
Proof. vm_compute. repeat split. Qed.

Lemma update_reuses_or_creates_witness :
  exists w' adds,
    update the_set 1%nat world_unchanged = (Ok (set_phantoms 1%nat the_set), w') /\
    calls w' =
      calls world_unchanged ++ QueryPhantoms (old_ids the_set world_unchanged) :: adds ++
      removals (objs w') (lists w' 1%nat) (lists world_unchanged (phantoms the_set)).
Proof.
  assert (forall o, In o (lists world_unchanged (phantoms the_set)) ->
                    class_ (objs world_unchanged o) = mdpopups_Phantom) as H2
    by (intros o [<-|[]]; reflexivity).
  assert (forall o, In o (lists world_unchanged (phantoms the_set)) ->
                    (o < next_loc world_unchanged)%nat) as H3
    by (intros o [<-|[]]; simpl; lia).
  assert (forall p, In p (lists world_unchanged 1%nat) ->
                    (p < next_loc world_unchanged)%nat) as H4
    by (intros p [<-|[]]; simpl; lia).
  assert (length (env_query_phantoms (old_ids the_set world_unchanged) (env world_unchanged))
          <= length (lists world_unchanged (phantoms the_set)))%nat as H5
    by (simpl; lia).
  assert (settings_kept Editor) as H6 by (repeat split).
  assert (disabled (env world_unchanged) = true ->
          debug_readable env_int (env_prefs (env world_unchanged))) as H7
    by (intros _; exists 0; reflexivity).
  destruct (update_reuses_or_creates the_set 1%nat world_unchanged H2 H3 H4 H5 H6 H7)
    as (w' & adds & ids & v2 & Hrun & Hcalls & _).
  exists w', adds. split; [exact Hrun | exact Hcalls].
Defined.

(** C7 as stated fails: with [mdpopups.disable] on, a desired record that
    has no equal among the old ones is not materialized and receives no id.
    The set is empty, the desired list holds one record; after [update] the
    record holds [None] and the display primitive has been asked nothing
    but the query.  And if [mdpopups.debug] then holds a word that [int]
    rejects, [update] ends in the exception of [_debug], having asked
    nothing but the query. *)
Lemma update_disabled_creates_nothing :
  (let r := update the_set 1%nat world_disabled in
   fst r = Ok (mkPhantomSet "key" 1%nat) /\
   lists (snd r) 1%nat = [0%nat] /\
   absent (objs (snd r)) (lists world_disabled (phantoms the_set)) 0%nat = true /\
   id (objs (snd r) 0%nat) = None /\
   calls (snd r) = [QueryPhantoms []]) /\
  (let r := update the_set 1%nat world_unreadable in
   fst r = Raise LibraryError /\ calls (snd r) = [QueryPhantoms []]).
Proof. vm_compute. repeat split. Qed.



(** * Further properties *)

(** ** The caches: what is stored is found *)

(** X1. A scheme that a lookup has converted and stored is what the next lookup
    for the same colour scheme returns, stylesheet included, without
    converting again and without touching the caches, as long as the entry
    has not expired by then and the highlighter setting still is the one the
    object was built for. *)
Theorem scheme_lookup_after_store (h h' : Host) (c c' : Caches)
    (r : option Scheme2CSS * string) (evs : list cache_event) :
  _get_scheme h c = (r, c', evs) ->
  stored evs ->
  color_scheme h' = color_scheme h ->
  exists obj css,
    r = (Some obj, css) /\
    (_is_cache_expired h' (time_at_store h) = false ->
     pygments_changed h' obj = false ->
     _get_scheme h' c' = (r, c', [])).
Proof.
  unfold _get_scheme. intros Hrun [s Hs] Hsame.
  destruct (color_scheme h) as [scheme|] eqn:Hcs.
  2:{ injection Hrun as <- <- <-. destruct Hs. }
  destruct (match od_get scheme (_scheme_cache c) with
            | Some (obj, user_css, t) =>
                if _is_cache_expired h t || pygments_changed h obj
                then (None, ""%string) else (Some obj, user_css)
            | None => (None, ""%string)
            end) as [[cached|] css0] eqn:Hcached.
  { injection Hrun as <- <- <-. destruct Hs. }
  destruct (new_Scheme2CSS h scheme) as [obj|].
  2:{ injection Hrun as <- <- <-. destruct Hs as [[=]|[]]. }
  destruct (_prune_cache h c) as [c1|].
  2:{ injection Hrun as <- <- <-. destruct Hs as [[=]|[]]. }
  destruct (user_css_loaded h) as [css|].
  2:{ injection Hrun as <- <- <-. destruct Hs as [[=]|[[=]|[]]]. }
  injection Hrun as <- <- <-. exists obj, css. split; [reflexivity|].
  intros Hfresh Hsetting. rewrite Hsame. cbn [_scheme_cache].
  rewrite od_get_set, Hfresh, Hsetting. reflexivity.
Qed.

(** A second lookup one minute later, with the default refresh time. *)
Lemma scheme_lookup_after_store_witness :
  exists obj css c',
    fst (_get_scheme (host_at "C" 0 no_prefs) caches_A_B) = ((Some obj, css), c') /\
    _get_scheme (host_at "C" 60 no_prefs) c' = ((Some obj, css), c', []).
Proof.
  destruct (_get_scheme (host_at "C" 0 no_prefs) caches_A_B) as [[r c'] evs] eqn:Hrun.
  assert (stored evs) as Hst.
  { vm_compute in Hrun. injection Hrun as <- <- <-. exists "C"%string. right. right. now left. }
  destruct (scheme_lookup_after_store (host_at "C" 0 no_prefs) (host_at "C" 60 no_prefs)
              caches_A_B c' r evs Hrun Hst eq_refl) as (obj & css & -> & Hnext).
  exists obj, css, c'. split; [reflexivity|].
  vm_compute in Hrun. injection Hrun as <- <- <- <-.
  apply Hnext; reflexivity.
Defined.

(** X2. The same for the native highlighter: the object stored by a lookup is
    returned by the next lookup for the same colour scheme, without a new
    object being made, as long as the entry has not expired. *)
Theorem highlighter_lookup_after_store (h h' : Host) (c c' : Caches)
    (r : option SublimeHighlight) (evs : list cache_event) :
  _get_sublime_highlighter h c = (r, c', evs) ->
  stored evs ->
  color_scheme h' = color_scheme h ->
  exists obj,
    r = Some obj /\
    (_is_cache_expired h' (time_at_store h) = false ->
     _get_sublime_highlighter h' c' = (r, c', [])).
Proof.
  unfold _get_sublime_highlighter. intros Hrun [s Hs] Hsame.
  destruct (color_scheme h) as [scheme|] eqn:Hcs.
  2:{ injection Hrun as <- <- <-. destruct Hs. }
  destruct (match od_get scheme (_highlighter_cache c) with
            | Some (obj, t) => if _is_cache_expired h t then None else Some obj
            | None => None
            end) as [cached|] eqn:Hcached.
  { injection Hrun as <- <- <-. destruct Hs. }
  destruct (new_SublimeHighlight h scheme) as [obj|].
  2:{ injection Hrun as <- <- <-. destruct Hs as [[=]|[]]. }
  destruct (_prune_cache h c) as [c1|].
  2:{ injection Hrun as <- <- <-. destruct Hs as [[=]|[]]. }
  injection Hrun as <- <- <-. exists obj. split; [reflexivity|].
  intros Hfresh. rewrite Hsame. cbn [_highlighter_cache].
  rewrite od_get_set, Hfresh. reflexivity.
Qed.

Lemma highlighter_lookup_after_store_witness :
  exists obj c',
    fst (_get_sublime_highlighter (host_at "C" 0 no_prefs) caches_A_B) = (Some obj, c') /\
    _get_sublime_highlighter (host_at "C" 60 no_prefs) c' = (Some obj, c', []).
Proof.
  destruct (_get_sublime_highlighter (host_at "C" 0 no_prefs) caches_A_B)
    as [[r c'] evs] eqn:Hrun.
  assert (stored evs) as Hst.
  { vm_compute in Hrun. injection Hrun as <- <- <-. exists "C"%string. right. right. now left. }
  destruct (highlighter_lookup_after_store (host_at "C" 0 no_prefs) (host_at "C" 60 no_prefs)
              caches_A_B c' r evs Hrun Hst eq_refl) as (obj & -> & Hnext).
  exists obj, c'. split; [reflexivity|].
  vm_compute in Hrun. injection Hrun as <- <-.
  apply Hnext; reflexivity.
Defined.

(** ** The console *)

Lemma _debug_at_level {S : Type} (int_of_str : string -> option Z) (p : settings)
    (msg : printed) (level n : Z) (x : Logged S) :
  debug_level int_of_str p = Ok n ->
  _debug int_of_str p msg level x
    = (Ok tt, mkLogged (state x) (console x ++ debug_line n msg level)).
Proof.
  intros Hn. unfold _debug, debug_line. rewrite Hn.
  destruct (n >=? level); [reflexivity|].
  unfold ret. rewrite app_nil_r. destruct x as [w0 out0]; reflexivity.
Qed.

Lemma _debug_unreadable {S : Type} (int_of_str : string -> option Z) (p : settings)
    (msg : printed) (level : Z) (e : exn) (x : Logged S) :
  debug_level int_of_str p = Raise e ->
  _debug int_of_str p msg level x = (Raise e, x).
Proof. intros Hn. unfold _debug. rewrite Hn. reflexivity. Qed.

Lemma with_env_same {V : Type} (w : World V) : with_env (env w) w = w.
Proof. destruct w; reflexivity. Qed.

Section ConsoleEntry.
Context {V : Type} `{Environment V}.
Variable int_of_str : string -> option Z.
Implicit Types (x : Logged (World V)) (w : World V).

Lemma in_world_debug_now (msg : printed) (level : Z) x :
  Console.in_world (Console.debug_now int_of_str msg level) x =
    match debug_level int_of_str (env_prefs (env (state x))) with
    | Ok n => (Ok tt, mkLogged (state x) (console x ++ debug_line n msg level))
    | Raise e => (Raise e, x)
    end.
Proof.
  unfold Console.in_world, Console.debug_now. cbn [state console].
  destruct (debug_level int_of_str (env_prefs (env (state x)))) as [n|e] eqn:Hn.
  - rewrite (_debug_at_level _ _ _ _ n) by exact Hn. cbn [state console].
    rewrite with_env_same. reflexivity.
  - rewrite (_debug_unreadable _ _ _ _ e) by exact Hn. cbn [state console].
    rewrite with_env_same. destruct x as [w0 out0]; reflexivity.
Qed.

(** X3. With [mdpopups.disable] set, none of the three entry points
    renders anything or calls a display primitive: the world stays as it
    is.  Each calls [_debug] with a message at level [WARNING], so the
    message is printed if the debug level is 2 or more, and the call raises
    if the debug setting is not a number; [add_phantom] returns [None]. *)
Theorem entry_points_when_disabled (content : text) (md : bool) (css : option text)
    (nl2br : bool) x :
  truthy (_get_setting (env_prefs (env (state x))) "mdpopups.disable" (PyBool false)) = true ->
  match debug_level int_of_str (env_prefs (env (state x))) with
  | Ok n =>
      Console.update_popup int_of_str content md css nl2br x =
        (Ok tt,
         mkLogged (state x) (console x ++ debug_line n (Line "Popups disabled") WARNING)) /\
      (forall flags location max_width max_height on_navigate on_hide,
         Console.show_popup int_of_str content md css flags location max_width max_height
           on_navigate on_hide nl2br x =
           (Ok tt,
            mkLogged (state x)
              (console x ++ debug_line n (Line "Popups disabled") WARNING))) /\
      (forall key region layout on_navigate,
         Console.add_phantom int_of_str key region content layout md css on_navigate
           nl2br x =
           (Ok None,
            mkLogged (state x)
              (console x ++ debug_line n (Line "Phantoms disabled") WARNING)))
  | Raise e =>
      Console.update_popup int_of_str content md css nl2br x = (Raise e, x) /\
      (forall flags location max_width max_height on_navigate on_hide,
         Console.show_popup int_of_str content md css flags location max_width max_height
           on_navigate on_hide nl2br x = (Raise e, x)) /\
      (forall key region layout on_navigate,
         Console.add_phantom int_of_str key region content layout md css on_navigate
           nl2br x = (Raise e, x))
  end.
Proof.
  intros Hdis.
  assert (forall A (k : pyval -> M (Logged (World V)) A),
            bind (quietly (in_env (get_setting "mdpopups.disable" (PyBool false)))) k x =
            k (_get_setting (env_prefs (env (state x))) "mdpopups.disable" (PyBool false)) x)
    as Hread.
  { intros A k. unfold bind, quietly, in_env, get_setting. cbn [state console].
    rewrite with_env_same. destruct x as [w0 out0]; reflexivity. }
  pose proof (in_world_debug_now (Line "Popups disabled") WARNING x) as Hpop.
  pose proof (in_world_debug_now (Line "Phantoms disabled") WARNING x) as Hph.
  destruct (debug_level int_of_str (env_prefs (env (state x)))) as [n|e].
  - split; [|split].
    + unfold Console.update_popup. rewrite Hread, Hdis. exact Hpop.
    + intros. unfold Console.show_popup. rewrite Hread, Hdis. exact Hpop.
    + intros. unfold Console.add_phantom. rewrite Hread, Hdis.
      unfold bind at 1. rewrite Hph. reflexivity.
  - split; [|split].
    + unfold Console.update_popup. rewrite Hread, Hdis. exact Hpop.
    + intros. unfold Console.show_popup. rewrite Hread, Hdis. exact Hpop.
    + intros. unfold Console.add_phantom. rewrite Hread, Hdis.
      unfold bind at 1. rewrite Hph. reflexivity.
Qed.

(** X4. When popups are not disabled and [_can_show] refuses the location,
    [show_popup] returns at once: nothing is rendered, nothing is printed,
    no display primitive is called and no setting other than
    [mdpopups.disable] is read, so the call cannot raise. *)
Theorem show_popup_off_screen (content : text) (md : bool) (css : option text)
    (flags location max_width max_height : Z) (on_navigate on_hide : callback)
    (nl2br : bool) x :
  truthy (_get_setting (env_prefs (env (state x))) "mdpopups.disable" (PyBool false))
    = false ->
  _can_show (env_viewport (env (state x))) location = false ->
  Console.show_popup int_of_str content md css flags location max_width max_height
    on_navigate on_hide nl2br x = (Ok tt, x).
Proof.
  intros Hen Hshow. unfold Console.show_popup.
  unfold bind at 1, quietly at 1, in_env, get_setting. cbn [state console].
  rewrite with_env_same, Hen.
  unfold bind at 1, quietly at 1. cbn [state console]. rewrite Hshow. cbn [negb].
  destruct x as [w0 out0]; reflexivity.
Qed.

End ConsoleEntry.

(** *** Dropping the console changes nothing else *)

Section Forget.
Context {S : Type}.

Lemma forget_bind {A B : Type} (m : M (Logged S) A) (m' : M S A)
    (k : A -> M (Logged S) B) (k' : A -> M S B) :
  (forall x, forget (m x) = m' (state x)) ->
  (forall a x, forget (k a x) = k' a (state x)) ->
  forall x, forget (bind m k x) = bind m' k' (state x).
Proof.
  intros Hm Hk x. unfold bind. specialize (Hm x). unfold forget in Hm.
  rewrite <- Hm. destruct (m x) as [[a|e] y]; cbn [fst snd]; [apply Hk | reflexivity].
Qed.

Lemma forget_try_except {A : Type} (m handler : M (Logged S) A) (m' handler' : M S A) :
  (forall x, forget (m x) = m' (state x)) ->
  (forall x, forget (handler x) = handler' (state x)) ->
  forall x, forget (try_except m handler x) = try_except m' handler' (state x).
Proof.
  intros Hm Hh x. unfold try_except. specialize (Hm x). unfold forget in Hm.
  rewrite <- Hm. destruct (m x) as [[a|e] y]; cbn [fst snd]; [reflexivity | apply Hh].
Qed.

Lemma forget_quietly {A : Type} (m : M S A) (x : Logged S) :
  forget (quietly m x) = m (state x).
Proof. unfold forget, quietly. destruct (m (state x)) as [r s]. reflexivity. Qed.

Lemma forget_debug (int_of_str : string -> option Z) (p : settings) (msg : printed)
    (level : Z) (x : Logged S) :
  forget (_debug int_of_str p msg level x) =
    match debug_level int_of_str p with
    | Ok _ => (Ok tt, state x)
    | Raise e => (Raise e, state x)
    end.
Proof.
  unfold _debug. destruct (debug_level int_of_str p) as [n|e]; [|reflexivity].
  destruct (n >=? level); reflexivity.
Qed.
End Forget.

Section Agreement.
Context {V : Type} `{Environment V}.
Implicit Types (x : Logged (World V)) (y : Logged V).

Lemma forget_debug_now (msg : printed) (level : Z) y :
  forget (Console.debug_now env_int msg level y) = debug_now msg level (state y).
Proof. unfold Console.debug_now. rewrite forget_debug, debug_now_spec. reflexivity. Qed.

Lemma forget_debug_dump (debug : pyval) (title : string) (document : text) y :
  forget (Console.debug_dump env_int debug title document y) =
    debug_dump debug title document (state y).
Proof.
  unfold Console.debug_dump, debug_dump. destruct (truthy debug); [|reflexivity].
  apply forget_bind; intros; apply forget_debug_now.
Qed.

Lemma forget_create_html (content : text) (md : bool) (css : option text)
    (kind : css_kind) (nl2br : bool) y :
  forget (Console._create_html env_int content md css kind nl2br y) =
    _create_html content md css kind nl2br (state y).
Proof.
  unfold Console._create_html, _create_html.
  apply forget_bind; [intros; rewrite forget_quietly; reflexivity|]. intros debug y1.
  apply forget_bind; [intros; apply forget_debug_dump|]. intros _ y2.
  apply forget_bind; [intros; rewrite forget_quietly; reflexivity|]. intros style y3.
  apply forget_bind; [intros; apply forget_debug_dump|]. intros _ y4.
  apply forget_bind.
  { intros y5. destruct md; [apply forget_quietly | reflexivity]. }
  intros content' y5.
  apply forget_bind; [intros; apply forget_debug_dump|]. intros _ y6.
  destruct (_remove_entities env_stdlib content'); reflexivity.
Qed.

Lemma forget_html_or_IDK (content : text) (md : bool) (css : option text)
    (kind : css_kind) (nl2br : bool) y :
  forget (Console.html_or_IDK env_int content md css kind nl2br y) =
    html_or_IDK content md css kind nl2br (state y).
Proof.
  unfold Console.html_or_IDK, html_or_IDK.
  apply forget_try_except; [intros; apply forget_create_html|].
  intros y1. reflexivity.
Qed.

Lemma forget_in_world {A : Type} (m : M (Logged V) A) (m' : M V A) :
  (forall y, forget (m y) = m' (state y)) ->
  forall x, forget (Console.in_world m x) = in_env m' (state x).
Proof.
  intros Hm x. unfold Console.in_world, in_env.
  specialize (Hm (mkLogged (env (state x)) (console x))). unfold forget in Hm.
  cbn [state] in Hm. rewrite <- Hm.
  destruct (m (mkLogged (env (state x)) (console x))) as [r y]. reflexivity.
Qed.

(** X5. Leaving the console aside, the three entry points do what their
    embedding without the console does, whatever the settings are: the
    same result or the same exception, and the same world. *)
Theorem entry_points_agree (content : text) (md : bool) (css : option text)
    (nl2br : bool) x :
  update_popup content md css nl2br (state x) =
    forget (Console.update_popup env_int content md css nl2br x) /\
  (forall flags location max_width max_height on_navigate on_hide,
     show_popup content md css flags location max_width max_height on_navigate on_hide
       nl2br (state x) =
     forget (Console.show_popup env_int content md css flags location max_width
               max_height on_navigate on_hide nl2br x)) /\
  (forall key region layout on_navigate,
     add_phantom key region content layout md css on_navigate nl2br (state x) =
     forget (Console.add_phantom env_int key region content layout md css on_navigate
               nl2br x)).
Proof.
  split; [|split].
  - symmetry. unfold Console.update_popup, update_popup.
    apply forget_bind; [intros; rewrite forget_quietly; reflexivity|]. intros disabled x1.
    destruct (truthy disabled).
    + apply forget_in_world. intros. apply forget_debug_now.
    + apply forget_bind; [|intros; rewrite forget_quietly; reflexivity].
      apply forget_in_world. intros. apply forget_html_or_IDK.
  - intros flags location max_width max_height nav hide. symmetry.
    unfold Console.show_popup, show_popup.
    apply forget_bind; [intros; rewrite forget_quietly; reflexivity|]. intros disabled x1.
    destruct (truthy disabled).
    + apply forget_in_world. intros. apply forget_debug_now.
    + apply forget_bind; [intros; rewrite forget_quietly; reflexivity|]. intros view x2.
      destruct (negb (_can_show view location)); [reflexivity|].
      apply forget_bind; [|intros; rewrite forget_quietly; reflexivity].
      apply forget_in_world. intros. apply forget_html_or_IDK.
  - intros k r l nav. symmetry. unfold Console.add_phantom, add_phantom.
    apply forget_bind; [intros; rewrite forget_quietly; reflexivity|]. intros disabled x1.
    destruct (truthy disabled).
    + apply forget_bind; [|reflexivity].
      apply forget_in_world. intros. apply forget_debug_now.
    + apply forget_bind; [|intros; rewrite forget_quietly; reflexivity].
      apply forget_in_world. intros. apply forget_html_or_IDK.
Qed.
End Agreement.


(** With popups disabled and the debug level unset, [update_popup] does
    nothing at all. *)
Lemma entry_points_when_disabled_witness :
  Console.update_popup (fun _ => None) (cp "hello") true None true
    (mkLogged world_disabled []) = (Ok tt, mkLogged world_disabled []).
Proof.
  assert (truthy (_get_setting (env_prefs (env (state (mkLogged world_disabled []))))
                    "mdpopups.disable" (PyBool false)) = true) as Hdis by reflexivity.
  exact (proj1 (entry_points_when_disabled (fun _ => None) (cp "hello") true None true
                  (mkLogged world_disabled []) Hdis)).
Defined.

(** Location 150 is outside the viewport [10, 100]. *)
Lemma show_popup_off_screen_witness :
  Console.show_popup (fun _ => None) (cp "hello") true None 0 150 320 240 None None true
    (mkLogged (world_of editor_without_theme) [])
  = (Ok tt, mkLogged (world_of editor_without_theme) []).
Proof.
  apply show_popup_off_screen; reflexivity.
Defined.

(** With [mdpopups.disable] on and [mdpopups.debug] set to a word, either
    embedding of [add_phantom] ends in the exception of [_debug]. *)
Example add_phantom_unreadable :
  add_phantom "key" (mkRegion 0 5) (cp "a") 0 true None None true world_unreadable =
    (Raise LibraryError, world_unreadable) /\
  Console.add_phantom py33_int "key" (mkRegion 0 5) (cp "a") 0 true None None true
    (mkLogged world_unreadable []) = (Raise LibraryError, mkLogged world_unreadable []).
Proof. split; reflexivity. Qed.

(** ** Reconciliation against the list the set already holds *)

Section SameListLoop.
Context {V : Type} `{Environment V}.
Implicit Types (w : World V) (p q : loc).
Variables (self : PhantomSet) (w1 : World V).
Hypothesis Hmd :
  forall o, In o (lists w1 (phantoms self)) -> class_ (objs w1 o) = mdpopups_Phantom.
Hypothesis Hwf_olds : forall o, In o (lists w1 (phantoms self)) -> (o < next_loc w1)%nat.

(** Every entry finds itself in the old list, so no turn of the second
    loop calls [add_phantom]. *)
Lemma reconcile_same_list (fuel i : nat) w :
  reconciled self (phantoms self) w1 i w ->
  (i + fuel = length (lists w1 (phantoms self)))%nat ->
  exists w',
    reconcile self (phantoms self) fuel i w = (Ok tt, w') /\
    reconciled self (phantoms self) w1 (length (lists w1 (phantoms self))) w' /\
    calls w' = calls w.
Proof.
  revert i w. induction fuel as [|fuel IH]; intros i w Hinv Hi.
  - exists w. replace (length (lists w1 (phantoms self))) with i by lia.
    split; [reflexivity|]. split; [exact Hinv | reflexivity].
  - cbn [reconcile]. unfold bind at 1, list_items at 1.
    destruct (lists w (phantoms self) !! i) as [p|] eqn:Hp.
    2:{ apply lookup_ge_None in Hp. rewrite (rc_len _ _ _ _ _ Hinv) in Hp. lia. }
    destruct (reconcile_entry_step self (phantoms self) w1 Hmd Hwf_olds Hwf_olds
                (or_introl (fun p Hp => Hp)) i w p Hinv Hp)
      as (wa & q & Hrun & Hinv' & Hl & _ & _ & _ & Hset).
    unfold bind at 1. rewrite Hrun.
    destruct (IH (S i) wa Hinv' ltac:(lia)) as (w' & Hrun' & Hfin & Hcalls).
    exists w'. split; [exact Hrun'|]. split; [exact Hfin|]. rewrite Hcalls.
    assert (q = p) as ->.
    { pose proof (rc_olds _ _ _ _ _ Hinv') as Ha. rewrite Hl in Ha.
      rewrite <- (rc_olds _ _ _ _ _ Hinv) in Ha.
      assert (<[i:=q]> (lists w (phantoms self)) !! i = Some q) as Hq
        by (apply list_lookup_insert_eq; eapply lookup_lt_Some, Hp).
      rewrite Ha, Hp in Hq. congruence. }
    unfold entry_settled in Hset.
    destruct (first_equal (objs wa) (lists w (phantoms self)) 0 p) as [[k|]|e] eqn:Hf.
    + destruct Hset as (_ & Hc & _). exact Hc.
    + exfalso. destruct (first_equal_None _ _ _ _ Hf p) as [Hne _]; [|now apply Hne].
      apply list_elem_of_In. eapply list_elem_of_lookup_2, Hp.
    + destruct Hset.
Qed.
End SameListLoop.

Section SameList.
Context {V : Type} `{Environment V}.
Implicit Types (w : World V) (p q : loc).

Lemma update_same_list_calls (self : PhantomSet) w :
  (forall o, In o (lists w (phantoms self)) -> class_ (objs w o) = mdpopups_Phantom) ->
  (forall o, In o (lists w (phantoms self)) -> (o < next_loc w)%nat) ->
  (length (env_query_phantoms (old_ids self w) (env w))
   <= length (lists w (phantoms self)))%nat ->
  exists w',
    update self (phantoms self) w = (Ok (set_phantoms (phantoms self) self), w') /\
    calls w' = calls w ++ [QueryPhantoms (old_ids self w)].
Proof.
  intros Hmd Hwf Hquery.
  unfold update. unfold bind at 1, list_items at 1.
  unfold bind at 1. rewrite ids_of_pure. fold (old_ids self w).
  unfold bind at 1, query_phantoms at 1.
  set (regions := env_query_phantoms (old_ids self w) (env w)) in *.
  set (wq := record_call (QueryPhantoms (old_ids self w)) w).
  destruct (refresh_regions_spec self regions 0 wq)
    as (w1 & Hrun1 & He1 & Hc1 & Hl1 & Hn1 & Hsame1 & _); [exact Hquery|].
  simpl in He1, Hc1, Hl1, Hn1, Hsame1.
  unfold bind at 1. rewrite Hrun1.
  unfold bind at 1, list_items at 1. rewrite Hl1.
  assert (forall o, In o (lists w1 (phantoms self)) ->
                    class_ (objs w1 o) = mdpopups_Phantom) as Hmd1.
  { rewrite Hl1. intros o Ho.
    destruct (same_but_region_fields _ _ (Hsame1 o)) as (-> & _). apply Hmd, Ho. }
  destruct (reconcile_same_list self w1 Hmd1 ltac:(rewrite Hl1, Hn1; exact Hwf)
              (length (lists w (phantoms self))) 0 w1
              (reconciled_start self (phantoms self) w1) ltac:(rewrite Hl1; reflexivity))
    as (w2 & Hrun2 & Hinv & Hc2).
  unfold bind at 1. rewrite Hrun2.
  unfold bind at 1, list_items at 1.
  pose proof (rc_olds _ _ _ _ _ Hinv) as Holds2. rewrite Hl1 in Holds2. rewrite Holds2.
  assert (forall o, In o (lists w (phantoms self)) ->
            exists k, first_equal (objs w2) (lists w2 (phantoms self)) 0 o = Ok (Some k))
    as Hfound.
  { intros o Ho.
    destruct (first_equal_returns (objs w2) (lists w2 (phantoms self)) 0 o) as [[k|] Hr].
    - destruct (same_but_id_fields _ _
                  (rc_objs _ _ _ _ _ Hinv o ltac:(rewrite Hn1; apply Hwf, Ho))) as (-> & _).
      apply Hmd1. rewrite Hl1. exact Ho.
    - rewrite Holds2. intros q Hq.
      destruct (same_but_id_fields _ _
                  (rc_objs _ _ _ _ _ Hinv q ltac:(rewrite Hn1; apply Hwf, Hq))) as (-> & _).
      apply Hmd1. rewrite Hl1. exact Hq.
    - eauto.
    - exfalso. destruct (first_equal_None _ _ _ _ Hr o) as [Hne _]; [|now apply Hne].
      rewrite Holds2. exact Ho. }
  destruct (cleanup_spec (phantoms self) (lists w (phantoms self)) w2)
    as (w' & Hrun3 & _ & _ & _ & Hc3).
  { intros o Ho. destruct (Hfound o Ho) as [k Hk]. eauto. }
  unfold bind at 1. rewrite Hrun3.
  exists w'. split; [reflexivity|]. rewrite Hc3, Hc2, Hc1.
  replace (List.filter (to_erase (objs w2) (lists w2 (phantoms self)))
             (lists w (phantoms self))) with (@nil loc).
  { simpl. rewrite app_nil_r. reflexivity. }
  rewrite (List.filter_ext_in _ (fun _ => false)); [now rewrite List.filter_false|].
  intros o Ho. destruct (Hfound o Ho) as [k Hk]. unfold to_erase, absent.
  rewrite Hk. reflexivity.
Qed.

(** X7. Calling [update] with the very list the set holds creates nothing
    and erases nothing: the editor is asked for the regions, and that is
    the only call.  The list keeps its entries, the objects keep
    everything but their region and id, and the set is returned as it
    was. *)
Theorem update_same_list (self : PhantomSet) w :
  (forall o, In o (lists w (phantoms self)) -> class_ (objs w o) = mdpopups_Phantom) ->
  (forall o, In o (lists w (phantoms self)) -> (o < next_loc w)%nat) ->
  (length (env_query_phantoms (old_ids self w) (env w))
   <= length (lists w (phantoms self)))%nat ->
  exists w',
    update self (phantoms self) w = (Ok self, w') /\
    calls w' = calls w ++ [QueryPhantoms (old_ids self w)] /\
    (forall l, lists w' l = lists w l) /\
    (forall r, (r < next_loc w)%nat -> same_but_region_and_id (objs w' r) (objs w r)).
Proof.
  intros Hmd Hwf Hquery.
  destruct (update_same_list_calls self w Hmd Hwf Hquery) as (w' & Hrun & Hcalls).
  destruct (update_final self (phantoms self) w Hmd Hwf Hwf Hquery
              (or_introl (fun p Hp => Hp)))
    as (w'' & adds & ids & v2 & Hrun' & _ & _ & _ & Hlsts & Hlen & Hobjs & Hentries & _).
  rewrite Hrun in Hrun'. injection Hrun' as <-.
  exists w'. split; [destruct self; exact Hrun|]. split; [exact Hcalls|].
  split; [|exact Hobjs].
  intros l. destruct (decide (l = phantoms self)) as [->|Hne]; [|apply Hlsts, Hne].
  apply list_eq. intros i.
  destruct (lists w (phantoms self) !! i) as [p|] eqn:Hp.
  - destruct (Hentries i p Hp) as (q & Hq & _ & _ & [(_ & ->)|(Hc & _)]); [exact Hq|].
    assert (In p (lists w (phantoms self))) as Hin
      by (apply list_elem_of_In; eapply list_elem_of_lookup_2, Hp).
    rewrite (Hmd p Hin) in Hc. discriminate.
  - apply lookup_ge_None. rewrite Hlen. apply lookup_ge_None, Hp.
Qed.
End SameList.

(** The set of the example, updated with the list it holds: the phantom
    with id 1 stays, and only the regions are asked for. *)
Lemma update_same_list_witness :
  exists w',
    update the_set 0%nat world_unchanged = (Ok the_set, w') /\
    calls w' = [QueryPhantoms [Some 1]].
Proof.
  assert (forall o, In o (lists world_unchanged (phantoms the_set)) ->
                    class_ (objs world_unchanged o) = mdpopups_Phantom) as H2
    by (intros o [<-|[]]; reflexivity).
  assert (forall o, In o (lists world_unchanged (phantoms the_set)) ->
                    (o < next_loc world_unchanged)%nat) as H3
    by (intros o [<-|[]]; simpl; lia).
  assert (length (env_query_phantoms (old_ids the_set world_unchanged)
                    (env world_unchanged))
          <= length (lists world_unchanged (phantoms the_set)))%nat as H4
    by (simpl; lia).
  destruct (update_same_list the_set world_unchanged H2 H3 H4) as (w' & Hrun & Hc & _).
  exists w'. split; [exact Hrun | exact Hc].
Defined.

(** ** Deleting a set *)

Section DeleteFacts.
Context {V : Type} `{Environment V}.
Implicit Types (w : World V) (p q : loc).

Lemma erase_all_spec (items : list loc) w :
  exists w',
    erase_all items w = (Ok tt, w') /\
    calls w' = calls w ++ map (fun p => ErasePhantomById (id (objs w p))) items /\
    objs w' = objs w /\ lists w' = lists w /\ next_loc w' = next_loc w.
Proof.
  revert w. induction items as [|p rest IH]; intros w.
  - exists w. simpl. rewrite app_nil_r. repeat split.
  - cbn [erase_all]. unfold bind at 1, get_obj at 1.
    unfold bind at 1, erase_phantom_by_id at 1.
    set (wa := record_call _ _).
    destruct (IH wa) as (w' & Hrun & Hc & Ho & Hl & Hn).
    exists w'. split; [exact Hrun|]. simpl in Hc, Ho, Hl, Hn.
    rewrite Hc, <- app_assoc. repeat split; assumption.
Qed.

Lemma PhantomSet__del__spec (self : PhantomSet) w :
  exists w',
    PhantomSet__del__ self w = (Ok tt, w') /\
    calls w' =
      calls w ++ map (fun p => ErasePhantomById (id (objs w p))) (lists w (phantoms self)) /\
    objs w' = objs w /\ lists w' = lists w /\ next_loc w' = next_loc w.
Proof.
  unfold PhantomSet__del__, bind, list_items. apply erase_all_spec.
Qed.

(** X8. Deleting a set asks the editor to erase the phantom of every
    record in its list, one request per record and in the order of the
    list; unlike [update] it does so for a record whose phantom is already
    gone, and for one that never got an id.  Nothing in the store changes. *)
Theorem del_erases_every_record (self : PhantomSet) w :
  exists w',
    PhantomSet__del__ self w = (Ok tt, w') /\
    calls w' =
      calls w ++ map (fun p => ErasePhantomById (id (objs w p))) (lists w (phantoms self)) /\
    objs w' = objs w /\ lists w' = lists w /\ next_loc w' = next_loc w.
Proof.
  apply PhantomSet__del__spec.
Qed.

(** X9. No phantom that [update] creates outlives the set, if the desired
    list holds no object twice: when the set that [update] returns is
    deleted, every id the editor answered to an [AddPhantom] call during
    the update is erased.  (The environment is taken to leave the settings
    alone, and the debug level to be readable should [mdpopups.disable] be
    on, so that [update] returns.) *)
Theorem update_then_del_erases_created (self : PhantomSet) (new_phantoms : loc) w :
  (forall o, In o (lists w (phantoms self)) -> class_ (objs w o) = mdpopups_Phantom) ->
  (forall o, In o (lists w (phantoms self)) -> (o < next_loc w)%nat) ->
  (forall p, In p (lists w new_phantoms) -> (p < next_loc w)%nat) ->
  (length (env_query_phantoms (old_ids self w) (env w))
   <= length (lists w (phantoms self)))%nat ->
  settings_kept V ->
  (disabled (env w) = true -> debug_readable env_int (env_prefs (env w))) ->
  NoDup (lists w new_phantoms) ->
  exists self' w1 w2 adds,
    update self new_phantoms w = (Ok self', w1) /\
    PhantomSet__del__ self' w1 = (Ok tt, w2) /\
    calls w1 =
      calls w ++ QueryPhantoms (old_ids self w) :: adds ++
      removals (objs w1) (lists w1 new_phantoms) (lists w (phantoms self)) /\
    Forall is_add adds /\
    calls w2 =
      calls w1 ++ map (fun p => ErasePhantomById (id (objs w1 p))) (lists w1 new_phantoms) /\
    (forall key r html l nav n,
       In (AddPhantom key r html l nav n) adds ->
       In (ErasePhantomById (Some n))
          (map (fun p => ErasePhantomById (id (objs w1 p))) (lists w1 new_phantoms))).
Proof.
  intros Hmd Hwf_olds Hwf_news Hquery Hkept Hreadable Hnd.
  destruct (update_settled self new_phantoms w Hmd Hwf_olds Hwf_news Hquery Hkept Hreadable)
    as (w1 & adds & ids & v2 & Hrun & Hcalls & _ & _ & _ & _ & _ & _ & _ & Hsettle & Hlast
        & Hnodup & _).
  destruct (PhantomSet__del__spec (set_phantoms new_phantoms self) w1)
    as (w2 & Hdel & Hc2 & _).
  exists (set_phantoms new_phantoms self), w1, w2, adds.
  split; [exact Hrun|]. split; [exact Hdel|]. split; [exact Hcalls|].
  split; [exact (settle_calls_are_adds _ _ _ _ _ _ _ _ _ Hsettle)|].
  split; [exact Hc2|].
  intros key r html l nav n Hin.
  destruct (settle_call_held _ _ _ _ _ _ _ _ _ _ _ _ _ _ _ Hsettle Hin) as [j Hj].
  pose proof (lookup_lt_Some _ _ _ Hj) as Hlt.
  pose proof (settle_length _ _ _ _ _ _ _ _ _ Hsettle) as Hlen.
  destruct (lookup_lt_is_Some_2 (lists w1 new_phantoms) j) as [q Hq].
  { rewrite <- Hlen. exact Hlt. }
  assert (ids !! j = Some (id (objs w1 q))) as Hid.
  { apply (Hlast j q Hq). intros j' Hj' Hq'.
    pose proof (NoDup_lookup _ _ _ _ (Hnodup Hnd) Hq Hq'). lia. }
  pose proof (eq_trans (eq_sym Hj) Hid) as Hn. injection Hn as Hn. rewrite Hn.
  apply (in_map (fun p => ErasePhantomById (id (objs w1 p)))).
  apply list_elem_of_In. eapply list_elem_of_lookup_2, Hq.
Qed.
End DeleteFacts.

(** The desired record is created with id 1, and deleting the set erases
    phantom 1. *)
Lemma update_then_del_erases_created_witness :
  exists self' w1 w2,
    update the_set 1%nat world_plain = (Ok self', w1) /\
    PhantomSet__del__ self' w1 = (Ok tt, w2) /\
    In (ErasePhantomById (Some 1)) (calls w2).
Proof.
  assert (forall o, In o (lists world_plain (phantoms the_set)) ->
                    class_ (objs world_plain o) = mdpopups_Phantom) as H2
    by (intros o []).
  assert (forall o, In o (lists world_plain (phantoms the_set)) ->
                    (o < next_loc world_plain)%nat) as H3
    by (intros o []).
  assert (forall p, In p (lists world_plain 1%nat) -> (p < next_loc world_plain)%nat) as H4
    by (intros p [<-|[]]; simpl; lia).
  assert (length (env_query_phantoms (old_ids the_set world_plain) (env world_plain))
          <= length (lists world_plain (phantoms the_set)))%nat as H5
    by (simpl; lia).
  assert (settings_kept Editor) as H6 by (repeat split).
  assert (disabled (env world_plain) = true ->
          debug_readable env_int (env_prefs (env world_plain))) as H7
    by (intros _; exists 0; reflexivity).
  assert (NoDup (lists world_plain 1%nat)) as H8 by apply NoDup_singleton.
  destruct (update_then_del_erases_created the_set 1%nat world_plain H2 H3 H4 H5 H6 H7 H8)
    as (self' & w1 & w2 & adds & Hrun & Hdel & Hc1 & _ & Hc2 & Hall).
  exists self', w1, w2. split; [exact Hrun|]. split; [exact Hdel|].
  rewrite Hc2. apply in_or_app. right.
  assert (exists html, In (AddPhantom "key" (mkRegion 0 5) html 0 None 1) adds) as [html Hin].
  { vm_compute in Hrun. injection Hrun as _ <-. cbn [calls] in Hc1.
    injection Hc1 as Hc1. destruct adds as [|c adds]; [discriminate|].
    injection Hc1 as <- _. eexists. now left. }
  exact (Hall _ _ _ _ _ _ Hin).
Defined.

(** A desired list that holds one record twice makes [update] create two
    phantoms, of which the record keeps the second: deleting the set
    erases phantom 2 twice, and phantom 1 stays on display. *)
Example update_then_del_repeated_entry :
  let r := (do self' <- update the_set 1%nat; PhantomSet__del__ self') world_repeated in
  fst r = Ok tt /\
  calls (snd r) =
    [QueryPhantoms [];
     AddPhantom "key" (mkRegion 0 5) (cp "<style></style>a") 0 None 1;
     AddPhantom "key" (mkRegion 0 5) (cp "<style></style>a") 0 None 2;
     ErasePhantomById (Some 2); ErasePhantomById (Some 2)] /\
  ed_on_display (env (snd r)) = [(1, mkRegion 0 5)].
Proof. vm_compute. repeat split. Qed.

(** ** The language of a view *)

Lemma listed_In (syntax : string) (l : list string) : listed syntax l = true <-> In syntax l.
Proof.
  unfold listed. rewrite existsb_exists. split.
  - intros (x & Hx & E). apply String.eqb_eq in E. now subst.
  - intros Hin. exists syntax. split; [exact Hin | apply String.eqb_refl].
Qed.

Section LanguageFacts.
Variable lang_map : list (string * (list string * list string)).
Variable syntax_name : string -> string.
Variable user_map : list (string * list (list string)).

Lemma first_language_step (syntax key : string) (rest : list string) :
  user_map_complete user_map ->
  (lists_syntax lang_map user_map key syntax /\
   first_language lang_map user_map syntax (key :: rest) = Ok (Some key)) \/
  (~ lists_syntax lang_map user_map key syntax /\
   first_language lang_map user_map syntax (key :: rest) =
     first_language lang_map user_map syntax rest).
Proof.
  intros Hwf. cbn [first_language].
  assert (exists v1 v2,
            match od_get key lang_map with Some (_, v1) => v1 | None => [] end = v1 /\
            match od_get key user_map with
            | Some entry => entry !! 1%nat
            | None => Some []
            end = Some v2 /\
            (lists_syntax lang_map user_map key syntax <-> In syntax (v2 ++ v1)))
    as (v1 & v2 & -> & -> & Hiff).
  { unfold lists_syntax.
    destruct (od_get key lang_map) as [[names v1]|] eqn:E1;
      destruct (od_get key user_map) as [entry|] eqn:E2.
    - destruct (Hwf key entry E2) as [v2 Hv2]. exists v1, v2.
      split; [reflexivity|]. split; [exact Hv2|]. rewrite in_app_iff. split.
      + intros [(? & ? & [= <- <-] & Hin)|(? & ? & [= <-] & Hv & Hin)]; [now right|].
        left. congruence.
      + intros [Hin|Hin]; [right | left]; eauto 6.
    - exists v1, []. split; [reflexivity|]. split; [reflexivity|]. cbn [app]. split.
      + intros [(? & ? & [= <- <-] & Hin)|(? & ? & [=] & _)]. exact Hin.
      + intros Hin. left. eauto.
    - destruct (Hwf key entry E2) as [v2 Hv2]. exists [], v2.
      split; [reflexivity|]. split; [exact Hv2|]. rewrite app_nil_r. split.
      + intros [(? & ? & [=] & _)|(? & ? & [= <-] & Hv & Hin)]. congruence.
      + intros Hin. right. eauto.
    - exists [], []. split; [reflexivity|]. split; [reflexivity|]. split.
      + intros [(? & ? & [=] & _)|(? & ? & [=] & _)].
      + intros []. }
  destruct (listed syntax (v2 ++ v1)) eqn:El.
  - left. split; [|reflexivity]. apply Hiff, listed_In, El.
  - right. split; [|reflexivity]. intros Hl. apply Hiff, listed_In in Hl. congruence.
Qed.

(** The loop returns the first key, in the order of the iteration, that
    lists the syntax. *)
Lemma first_language_spec (syntax : string) (keys : list string) :
  user_map_complete user_map ->
  (exists before key after,
     keys = before ++ key :: after /\
     lists_syntax lang_map user_map key syntax /\
     (forall k, In k before -> ~ lists_syntax lang_map user_map k syntax) /\
     first_language lang_map user_map syntax keys = Ok (Some key)) \/
  ((forall k, In k keys -> ~ lists_syntax lang_map user_map k syntax) /\
   first_language lang_map user_map syntax keys = Ok None).
Proof.
  intros Hwf. induction keys as [|key rest IH].
  - right. split; [intros k [] | reflexivity].
  - destruct (first_language_step syntax key rest Hwf) as [[Hl ->]|[Hn ->]].
    + left. exists [], key, rest. split; [reflexivity|]. split; [exact Hl|].
      split; [intros k [] | reflexivity].
    + destruct IH as [(before & k' & after & -> & Hl & Hb & ->)|[Hnone ->]].
      * left. exists (key :: before), k', after. split; [reflexivity|]. split; [exact Hl|].
        split; [|reflexivity]. intros k [<-|Hk]; [exact Hn | apply Hb, Hk].
      * right. split; [|reflexivity]. intros k [<-|Hk]; [exact Hn | apply Hnone, Hk].
Qed.

(** X10. [get_language_from_view] answers with a language that lists the
    view's syntax file (in the built-in map or in the user's), namely the
    first such in the order in which the keys are gone through, and with
    [None] exactly when no language lists it; a view without a syntax
    setting is an [AttributeError].  (Every entry of the user's map is
    taken to have its second item; without one the loop ends in an
    [IndexError] when it reaches the entry.) *)
Theorem language_is_first_listed (syntax : option string) (keys : list string) :
  user_map_complete user_map ->
  match syntax with
  | None => get_language_from_view lang_map syntax_name user_map syntax keys
            = Raise AttributeError
  | Some s =>
      exists r,
        get_language_from_view lang_map syntax_name user_map syntax keys = Ok r /\
        (forall key, r = Some key ->
           lists_syntax lang_map user_map key (syntax_name s) /\
           exists before after,
             keys = before ++ key :: after /\
             forall k, In k before -> ~ lists_syntax lang_map user_map k (syntax_name s)) /\
        (r = None <->
         forall key, In key keys -> ~ lists_syntax lang_map user_map key (syntax_name s))
  end.
Proof.
  intros Hwf. destruct syntax as [s|]; [|reflexivity]. cbn [get_language_from_view].
  destruct (first_language_spec (syntax_name s) keys Hwf)
    as [(before & key & after & -> & Hl & Hb & ->)|[Hnone ->]].
  - exists (Some key). split; [reflexivity|]. split.
    + intros k [= <-]. split; [exact Hl|]. exists before, after. split; [reflexivity | exact Hb].
    + split; [discriminate|]. intros Hall. exfalso. apply (Hall key); [|exact Hl].
      apply in_or_app. right. now left.
  - exists None. split; [reflexivity|]. split; [discriminate|]. split; [intros _; exact Hnone|].
    reflexivity.
Qed.

(** X11. The keys of the two maps are gone through as a set, in no
    particular order.  When at most one language lists the view's syntax
    file, the answer does not depend on that order. *)
Theorem language_in_any_order (s : string) (keys keys' : list string) :
  user_map_complete user_map ->
  (forall k, In k keys <-> In k keys') ->
  (forall k k', In k keys -> In k' keys ->
     lists_syntax lang_map user_map k (syntax_name s) ->
     lists_syntax lang_map user_map k' (syntax_name s) -> k = k') ->
  get_language_from_view lang_map syntax_name user_map (Some s) keys =
  get_language_from_view lang_map syntax_name user_map (Some s) keys'.
Proof.
  intros Hwf Hsame Huniq. cbn [get_language_from_view].
  destruct (first_language_spec (syntax_name s) keys Hwf)
    as [(before & key & after & Hk & Hl & Hb & ->)|[Hnone ->]];
    destruct (first_language_spec (syntax_name s) keys' Hwf)
      as [(before' & key' & after' & Hk' & Hl' & Hb' & ->)|[Hnone' ->]].
  - f_equal. f_equal. apply Huniq; try assumption.
    + rewrite Hk. apply in_or_app. right. now left.
    + apply Hsame. rewrite Hk'. apply in_or_app. right. now left.
  - exfalso. apply (Hnone' key); [|exact Hl].
    apply Hsame. rewrite Hk. apply in_or_app. right. now left.
  - exfalso. apply (Hnone key'); [|exact Hl'].
    apply Hsame. rewrite Hk'. apply in_or_app. right. now left.
  - reflexivity.
Qed.
End LanguageFacts.

(** Two languages; the user adds a syntax file to the first. *)
Lemma language_is_first_listed_witness :
  get_language_from_view two_languages (fun s => s) user_adds_python
    (Some "MagicPython/grammars/MagicPython"%string) ["css"; "python"]%string
  = Ok (Some "python"%string).
Proof.
  assert (user_map_complete user_adds_python) as Hwf.
  { intros key entry. unfold user_adds_python. cbn [od_get].
    destruct (String.eqb key "python"); [|discriminate]. intros [= <-]. eexists. reflexivity. }
  destruct (language_is_first_listed two_languages (fun s => s) user_adds_python
              (Some "MagicPython/grammars/MagicPython"%string) ["css"; "python"]%string Hwf)
    as (r & Hrun & _).
  rewrite Hrun. vm_compute in Hrun. symmetry. exact Hrun.
Defined.

Lemma language_in_any_order_witness :
  get_language_from_view two_languages (fun s => s) [] (Some "CSS/CSS"%string)
    ["css"; "python"]%string =
  get_language_from_view two_languages (fun s => s) [] (Some "CSS/CSS"%string)
    ["python"; "css"]%string.
Proof.
  apply language_in_any_order.
  - intros key entry [=].
  - intros k. simpl. tauto.
  - intros k k' Hk Hk' Hl Hl'.
    assert (forall x, In x ["css"; "python"]%string ->
              lists_syntax two_languages [] x "CSS/CSS" -> x = "css"%string) as Hcss.
    { intros x [<-|[<-|[]]] Hx; [reflexivity|].
      destruct Hx as [(names & v1 & [= <- <-] & [[=]|[]])|(? & ? & [=] & _)]. }
    rewrite (Hcss k Hk Hl), (Hcss k' Hk' Hl'). reflexivity.
Defined.

(** ** The cache lookups and their console output *)

Section ConsoleLookups.
Variable int_of_str : string -> option Z.
Implicit Types (x : Logged Globals) (h : Host).

Lemma after_lookup_at_level {A : Type} h (failure : string) (r : A) (c : Caches)
    (evs : list cache_event) (n : Z) x :
  debug_level int_of_str (prefs h) = Ok n ->
  Console.after_lookup int_of_str h failure r c evs x =
    (Ok r,
     mkLogged (mkGlobals c (base_css (state x)))
       (console x ++
        if handler_ran evs then Line failure :: debug_line n Traceback ERROR else [])).
Proof.
  intros Hn. unfold Console.after_lookup. destruct (handler_ran evs).
  - unfold bind, _log. cbn [state console].
    rewrite (_debug_at_level _ _ _ _ n) by exact Hn. cbn [state console].
    unfold ret. rewrite <- app_assoc. reflexivity.
  - rewrite app_nil_r. reflexivity.
Qed.

Lemma after_lookup_unreadable {A : Type} h (failure : string) (r : A) (c : Caches)
    (evs : list cache_event) (e : exn) x :
  debug_level int_of_str (prefs h) = Raise e ->
  handler_ran evs = true ->
  Console.after_lookup int_of_str h failure r c evs x =
    (Raise e, mkLogged (mkGlobals c (base_css (state x))) (console x ++ [Line failure])).
Proof.
  intros Hn Hran. unfold Console.after_lookup. rewrite Hran.
  unfold bind, _log. cbn [state console].
  rewrite (_debug_unreadable _ _ _ _ e) by exact Hn. reflexivity.
Qed.

Lemma after_lookup_quiet {A : Type} h (failure : string) (r : A) (c : Caches)
    (evs : list cache_event) x :
  handler_ran evs = false ->
  Console.after_lookup int_of_str h failure r c evs x =
    (Ok r, mkLogged (mkGlobals c (base_css (state x))) (console x)).
Proof. intros Hran. unfold Console.after_lookup. rewrite Hran. reflexivity. Qed.

(** With a readable debug level the lookups return what the lookups
    without the console return, and leave the caches as those do. *)
Lemma _get_sublime_highlighter_readable h x :
  debug_readable int_of_str (prefs h) ->
  exists out,
    Console._get_sublime_highlighter int_of_str h x =
      (Ok (fst (fst (_get_sublime_highlighter h (caches (state x))))),
       mkLogged
         (mkGlobals (snd (fst (_get_sublime_highlighter h (caches (state x)))))
            (base_css (state x)))
         (console x ++ out)).
Proof.
  intros [n Hn]. unfold Console._get_sublime_highlighter.
  destruct (_get_sublime_highlighter h (caches (state x))) as [[obj c] evs].
  rewrite (after_lookup_at_level _ _ _ _ _ n) by exact Hn. cbn [fst snd]. eauto.
Qed.

Lemma _get_scheme_readable h x :
  debug_readable int_of_str (prefs h) ->
  exists out,
    Console._get_scheme int_of_str h x =
      (Ok (fst (fst (_get_scheme h (caches (state x))))),
       mkLogged
         (mkGlobals (snd (fst (_get_scheme h (caches (state x))))) (base_css (state x)))
         (console x ++ out)).
Proof.
  intros [n Hn]. unfold Console._get_scheme.
  destruct (_get_scheme h (caches (state x))) as [[obj c] evs].
  rewrite (after_lookup_at_level _ _ _ _ _ n) by exact Hn. cbn [fst snd]. eauto.
Qed.
End ConsoleLookups.

(** ** Markdown *)

Lemma replace_line_feed (t : text) :
  str_replace [10%N] [] t = List.filter (fun c => negb (c =? 10)%N) t.
Proof.
  unfold str_replace. induction t as [|c t IH]; [reflexivity|].
  cbn [replace_from starts_with List.filter length Nat.sub app].
  rewrite N.eqb_sym. destruct (c =? 10)%N; cbn [andb negb]; [exact IH | now rewrite IH].
Qed.

(** X12. Whatever [md2html] returns has no line feed in it: it is the
    document that the Markdown library made of the markup, for the
    extensions of [md_extensions] and the highlighter setting of the moment,
    with every [&quot;] turned into a quotation mark and every line feed
    taken out afterwards. *)
Theorem md2html_has_no_line_feed (int_of_str : string -> option Z)
    (convert : list string -> bool * option SublimeHighlight -> text -> option text)
    (h : Host) (markup : text) (nl2br : bool) (x x' : Logged Globals) (html : text) :
  md2html int_of_str convert h markup nl2br x = (Ok html, x') ->
  ~ In 10%N html /\
  exists highlighter converted,
    convert (md_extensions nl2br)
      (truthy (_get_setting (prefs h) "mdpopups.use_sublime_highlighter" PyNone),
       highlighter) markup = Some converted /\
    html =
      List.filter (fun c => negb (c =? 10)%N) (str_replace (cp "&quot;") [34%N] converted).
Proof.
  unfold md2html. intros Hrun.
  apply bind_inv in Hrun as [(hl & x1 & Hhl & Hrun)|(e & _ & [=])].
  assert (fst hl = truthy (_get_setting (prefs h) "mdpopups.use_sublime_highlighter" PyNone))
    as Hfst.
  { destruct (truthy _).
    - apply bind_inv in Hhl as [(o & x2 & _ & [= <- _])|(e & _ & [=])]. reflexivity.
    - injection Hhl as <- _. reflexivity. }
  destruct (convert (md_extensions nl2br) hl markup) as [converted|] eqn:Hc; [|discriminate].
  rewrite replace_line_feed in Hrun. injection Hrun as <- _. split.
  - intros Hin. apply List.filter_In in Hin as [_ Hin]. discriminate.
  - exists (snd hl), converted. rewrite <- Hfst, <- surjective_pairing.
    split; [exact Hc | reflexivity].
Qed.

(** A conversion that hands the markup back: the line feed is taken out. *)
Lemma md2html_has_no_line_feed_witness :
  exists x',
    md2html (fun _ => None) (fun _ _ t => Some t) (host_at "C" 0 no_prefs)
      [97%N; 10%N; 98%N] true (mkLogged (mkGlobals caches_A_B None) [])
      = (Ok [97%N; 98%N], x') /\
    ~ In 10%N [97%N; 98%N].
Proof.
  eexists. split; [reflexivity|].
  eapply (md2html_has_no_line_feed (fun _ => None) (fun _ _ t => Some t)
            (host_at "C" 0 no_prefs) [97%N; 10%N; 98%N] true
            (mkLogged (mkGlobals caches_A_B None) [])).
  reflexivity.
Defined.

(** ** Markdown extensions *)

Section ExtensionFacts.
Variable int_of_str : string -> option Z.
Variables (Md Extension Config : Type).
Variable no_config : Config.
Variable build_extension : string -> Config -> M Md (built Extension).
Variable extendMarkdown : Extension -> M Md unit.
Variable p : settings.
Variable configs : string -> option Config.

Lemma register_returns (ext : listed_extension Extension) (x : Logged Md) :
  debug_readable int_of_str p ->
  exists x',
    register int_of_str no_config build_extension extendMarkdown p configs ext x
      = (Ok tt, x').
Proof.
  intros [n Hn]. unfold register, try_except.
  match goal with |- context [match ?m x with _ => _ end] => destruct (m x) as [[[]|e] x1] end.
  - eauto.
  - unfold bind, _log. cbn [state console].
    rewrite (_debug_at_level _ _ _ _ n) by exact Hn. eauto.
Qed.

Lemma registerExtensions_app (exts1 exts2 : list (listed_extension Extension))
    (x : Logged Md) :
  registerExtensions int_of_str no_config build_extension extendMarkdown p configs
    (exts1 ++ exts2) x =
  bind (registerExtensions int_of_str no_config build_extension extendMarkdown p configs exts1)
    (fun _ =>
       registerExtensions int_of_str no_config build_extension extendMarkdown p configs exts2)
    x.
Proof.
  revert x. induction exts1 as [|ext exts1 IH]; intros x; [reflexivity|].
  cbn [app registerExtensions]. unfold bind.
  destruct (register int_of_str no_config build_extension extendMarkdown p configs ext x)
    as [[[]|e] x1]; [|reflexivity].
  rewrite IH. reflexivity.
Qed.

(** An attempt that raises ends in what [load_failed] says. *)
Lemma load_failed_handler (s : Md) (out : list printed) :
  bind (_log (Line "Failed to load markdown module!"))
    (fun _ => _debug int_of_str p Traceback ERROR) (mkLogged s out) =
  load_failed int_of_str p s out.
Proof.
  unfold bind, _log, _debug, load_failed, debug_line. cbn [state console].
  destruct (debug_level int_of_str p) as [n|e]; [|reflexivity].
  destruct (n >=? ERROR); unfold _log, ret; cbn [state console].
  - rewrite <- app_assoc. reflexivity.
  - reflexivity.
Qed.

(** One turn of the loop, case by case. *)
Lemma register_cases (ext : listed_extension Extension) (x : Logged Md) :
  register int_of_str no_config build_extension extendMarkdown p configs ext x =
    let extend e s :=
      match extendMarkdown e s with
      | (Ok _, s') => (Ok tt, mkLogged s' (console x))
      | (Raise _, s') => load_failed int_of_str p s' (console x)
      end in
    match ext with
    | ByName name =>
        match build_extension name
                (match configs name with Some c => c | None => no_config end) (state x) with
        | (Ok (AnExtension e), s) => extend e s
        | (Ok NoExtension, s) => (Ok tt, mkLogged s (console x))
        | (Ok NotAnExtension, s) => load_failed int_of_str p s (console x)
        | (Raise _, s) => load_failed int_of_str p s (console x)
        end
    | Given (AnExtension e) => extend e (state x)
    | Given NoExtension => (Ok tt, x)
    | Given NotAnExtension => load_failed int_of_str p (state x) (console x)
    end.
Proof.
  unfold register, try_except. destruct x as [s out]. cbn [state console].
  destruct ext as [name|[e| |]].
  - unfold bind at 1, quietly at 1. cbn [state console].
    destruct (build_extension name _ s) as [[[e| |]|err] s1].
    + unfold quietly. cbn [state console].
      destruct (extendMarkdown e s1) as [[[]|err] s2]; [reflexivity|].
      apply load_failed_handler.
    + reflexivity.
    + apply load_failed_handler.
    + apply load_failed_handler.
  - unfold bind at 1, ret at 1, quietly. cbn [state console].
    destruct (extendMarkdown e s) as [[[]|err] s2]; [reflexivity|].
    apply load_failed_handler.
  - reflexivity.
  - apply load_failed_handler.
Qed.

(** X13. [registerExtensions] takes the extensions in order.  An item that
    is a name is built first; an [Extension] is then registered with the
    instance by its [extendMarkdown], [None] is passed over, and anything
    else is a [TypeError].  Whatever raises on the way is caught: the
    instance stays as the failed attempt left it, the message is printed
    (and the traceback, at debug level 1 or more), and the loop goes on
    with the next item.  So with a debug level that [_debug] can read the
    call returns, and registering a list is registering its first part and
    then the rest; if [int] rejects the debug level, the first failure ends
    the loop in that exception. *)
Theorem registerExtensions_goes_on :
  (forall ext x,
     register int_of_str no_config build_extension extendMarkdown p configs ext x =
       let extend e s :=
         match extendMarkdown e s with
         | (Ok _, s') => (Ok tt, mkLogged s' (console x))
         | (Raise _, s') => load_failed int_of_str p s' (console x)
         end in
       match ext with
       | ByName name =>
           match build_extension name
                   (match configs name with Some c => c | None => no_config end)
                   (state x) with
           | (Ok (AnExtension e), s) => extend e s
           | (Ok NoExtension, s) => (Ok tt, mkLogged s (console x))
           | (Ok NotAnExtension, s) => load_failed int_of_str p s (console x)
           | (Raise _, s) => load_failed int_of_str p s (console x)
           end
       | Given (AnExtension e) => extend e (state x)
       | Given NoExtension => (Ok tt, x)
       | Given NotAnExtension => load_failed int_of_str p (state x) (console x)
       end) /\
  (forall x,
     registerExtensions int_of_str no_config build_extension extendMarkdown p configs [] x
       = (Ok tt, x)) /\
  (forall ext rest x,
     registerExtensions int_of_str no_config build_extension extendMarkdown p configs
       (ext :: rest) x =
       match register int_of_str no_config build_extension extendMarkdown p configs ext x
       with
       | (Ok _, x') =>
           registerExtensions int_of_str no_config build_extension extendMarkdown p configs
             rest x'
       | (Raise e, x') => (Raise e, x')
       end) /\
  (debug_readable int_of_str p ->
   forall exts1 exts2 x,
     exists x1 x2,
       registerExtensions int_of_str no_config build_extension extendMarkdown p configs
         exts1 x = (Ok tt, x1) /\
       registerExtensions int_of_str no_config build_extension extendMarkdown p configs
         exts2 x1 = (Ok tt, x2) /\
       registerExtensions int_of_str no_config build_extension extendMarkdown p configs
         (exts1 ++ exts2) x = (Ok tt, x2)).
Proof.
  split; [exact register_cases|]. split; [reflexivity|]. split; [reflexivity|].
  intros Hr exts1 exts2 x.
  assert (forall exts y,
            exists y',
              registerExtensions int_of_str no_config build_extension extendMarkdown p
                configs exts y = (Ok tt, y')) as Hret.
  { induction exts as [|ext exts IH]; intros y; [eexists; reflexivity|].
    cbn [registerExtensions]. unfold bind.
    destruct (register_returns ext y Hr) as [y1 ->]. apply IH. }
  destruct (Hret exts1 x) as [x1 H1]. destruct (Hret exts2 x1) as [x2 H2].
  exists x1, x2. split; [exact H1|]. split; [exact H2|].
  rewrite registerExtensions_app. unfold bind. rewrite H1. exact H2.
Qed.
End ExtensionFacts.

(** The second extension is registered although the first has failed. *)
Lemma registerExtensions_goes_on_witness :
  registerExtensions (fun _ => None) tt no_builder counting_extend no_prefs (fun _ => None)
    ([Given (AnExtension false)] ++ [Given (AnExtension true)]) (mkLogged 0%nat [])
  = (Ok tt, mkLogged 1%nat [Line "Failed to load markdown module!"]).
Proof.
  assert (debug_readable (fun _ => None) no_prefs) as Hr by (exists 0; reflexivity).
  destruct (proj2 (proj2 (proj2
              (registerExtensions_goes_on (fun _ => None) nat bool unit tt no_builder
                 counting_extend no_prefs (fun _ => None)))) Hr
              [Given (AnExtension false)] [Given (AnExtension true)]
              (mkLogged 0%nat [])) as (x1 & x2 & H1 & H2 & H12).
  rewrite H12. vm_compute in H12. symmetry. exact H12.
Defined.

(** ** Images *)

Section ImageFacts.
Variable int_of_str : string -> option Z.
Variable load_binary_resource : string -> option (list Byte.byte).
Variable imagetint_tint :
  list Byte.byte -> string -> Z -> option Z -> option Z -> option text.
Variable imagetint_tint_raw : list Byte.byte -> string -> Z -> option (list Byte.byte).

(** X14. Given the name of a resource that cannot be loaded, [tint] and
    [tint_raw] return the empty string without calling [imagetint]; they
    print that the file could not be opened and pass the traceback to
    [_debug].  Given bytes, they load nothing. *)
Theorem tint_without_image {S : Type} (p : settings) (path : string) (color : string)
    (opacity : Z) (height width : option Z) (n : Z) (x : Logged S) :
  load_binary_resource path = None ->
  debug_level int_of_str p = Ok n ->
  tint int_of_str load_binary_resource imagetint_tint p (inl path) color opacity height
    width x =
    (Ok [],
     mkLogged (state x)
       (console x ++ Line "Could not open binary file!" :: debug_line n Traceback ERROR)) /\
  tint_raw int_of_str load_binary_resource imagetint_tint_raw p (inl path) color opacity x =
    (Ok (inl []),
     mkLogged (state x)
       (console x ++ Line "Could not open binary file!" :: debug_line n Traceback ERROR)) /\
  (forall data,
     tint int_of_str load_binary_resource imagetint_tint p (inr data) color opacity height
       width x =
       match imagetint_tint data color opacity height width with
       | Some r => (Ok r, x)
       | None => (Raise LibraryError, x)
       end).
Proof.
  intros Hload Hn.
  assert (open_image int_of_str load_binary_resource p (inl path) x =
            (Ok None,
             mkLogged (state x)
               (console x ++ Line "Could not open binary file!"
                  :: debug_line n Traceback ERROR))) as Hopen.
  { unfold open_image. rewrite Hload. unfold bind, _log. cbn [state console].
    rewrite (_debug_at_level _ _ _ _ n) by exact Hn. cbn [state console].
    unfold ret. rewrite <- app_assoc. reflexivity. }
  split; [|split].
  - unfold tint, bind. rewrite Hopen. reflexivity.
  - unfold tint_raw, bind. rewrite Hopen. reflexivity.
  - intros data. unfold tint, bind, open_image, ret.
    destruct (imagetint_tint data color opacity height width); reflexivity.
Qed.
End ImageFacts.

Lemma tint_without_image_witness :
  tint (fun _ => None) (fun _ => None) (fun _ _ _ _ _ => None) no_prefs
    (inl "Packages/User/missing.png"%string) "#ff0000"%string 255 None None
    (mkLogged tt []) =
  (Ok [], mkLogged tt [Line "Could not open binary file!"]).
Proof.
  exact (proj1 (tint_without_image (fun _ => None) (fun _ => None) (fun _ _ _ _ _ => None)
                  (fun _ _ _ => None) no_prefs "Packages/User/missing.png"%string
                  "#ff0000"%string 255 None None 0 (mkLogged tt []) eq_refl eq_refl)).
Defined.

(** ** Highlighting *)

Section HighlightFacts.
Variable int_of_str : string -> option Z.
Variable highlighter_syntax_highlight :
  SublimeHighlight -> text -> option string -> bool -> option text.
Variable pyg_syntax_hl : text -> option string -> bool -> option text.
Variable guess_style : Scheme2CSS -> string -> bool -> bool -> option StyleObject.
Implicit Types (x : Logged Globals) (h : Host).

(** X15. [syntax_highlight] never raises as long as [_debug] can read its
    level: what it returns is the code as highlighted by the highlighter
    the settings select, or else the source itself, unchanged.  In
    particular it is the source when the native highlighter is selected
    and none can be had for the view. *)
Theorem syntax_highlight_falls_back h (src : text) (language : option string)
    (inline : bool) x :
  debug_readable int_of_str (prefs h) ->
  exists code x',
    syntax_highlight int_of_str highlighter_syntax_highlight pyg_syntax_hl h src language
      inline x = (Ok code, x') /\
    (if truthy (_get_setting (prefs h) "mdpopups.use_sublime_highlighter" PyNone) then
       match fst (fst (_get_sublime_highlighter h (caches (state x)))) with
       | Some hl =>
           code = match highlighter_syntax_highlight hl src language inline with
                  | Some c => c
                  | None => src
                  end
       | None => code = src /\ In (Line "Failed to highlight code!") (console x')
       end
     else
       code = match pyg_syntax_hl src language inline with
              | Some c => c
              | None => src
              end).
Proof.
  intros Hr. pose proof Hr as [n Hn]. unfold syntax_highlight, try_except.
  assert (forall y : Logged Globals, (run _log (Line "Failed to highlight code!");
                     run _debug int_of_str (prefs h) Traceback ERROR;
                     ret src) y =
                    (Ok src,
                     mkLogged (state y)
                       (console y ++ Line "Failed to highlight code!"
                          :: debug_line n Traceback ERROR))) as Hhandler.
  { intros y. unfold bind, _log. cbn [state console].
    rewrite (_debug_at_level _ _ _ _ n) by exact Hn. cbn [state console].
    unfold ret. rewrite <- app_assoc. reflexivity. }
  destruct (truthy _).
  - unfold bind at 1.
    destruct (_get_sublime_highlighter_readable int_of_str h x Hr) as [out ->].
    destruct (fst (fst (_get_sublime_highlighter h (caches (state x))))) as [hl|].
    + destruct (highlighter_syntax_highlight hl src language inline) as [c|].
      * eexists _, _. split; reflexivity.
      * unfold raise. rewrite Hhandler. eexists _, _. split; reflexivity.
    + unfold raise. rewrite Hhandler. eexists _, _. split; [reflexivity|].
      split; [reflexivity|]. cbn [console]. apply in_or_app. right. now left.
  - destruct (pyg_syntax_hl src language inline) as [c|].
    + eexists _, _. split; reflexivity.
    + unfold raise. rewrite Hhandler. eexists _, _. split; reflexivity.
Qed.

(** X16. [scope2style] needs a scheme object: for a view without a colour
    scheme, or whose scheme cannot be converted, it ends in an
    [AttributeError], after [_get_scheme] has done to the caches what it
    does.  (With an unreadable debug level the exception of [_debug] comes
    first.) *)
Theorem scope2style_needs_scheme h (scope : string) (selected explicit_background : bool) x :
  debug_readable int_of_str (prefs h) ->
  fst (fst (fst (_get_scheme h (caches (state x))))) = None ->
  exists out,
    scope2style int_of_str guess_style h scope selected explicit_background x =
      (Raise AttributeError,
       mkLogged
         (mkGlobals (snd (fst (_get_scheme h (caches (state x))))) (base_css (state x)))
         (console x ++ out)).
Proof.
  intros Hr Hnone. unfold scope2style, bind.
  destruct (_get_scheme_readable int_of_str h x Hr) as [out ->].
  rewrite Hnone. exists out. reflexivity.
Qed.
End HighlightFacts.

(** The native highlighter is selected, the view has no colour scheme. *)
Lemma syntax_highlight_falls_back_witness :
  exists x',
    syntax_highlight (fun _ => None) (fun _ _ _ _ => None) (fun _ _ _ => None)
      (mkHost (one_pref "mdpopups.use_sublime_highlighter" (PyBool true)) None 0 0
         (fun _ => None) (fun _ => None) None)
      (cp "x = 1") None false (mkLogged (mkGlobals _clear_cache None) [])
    = (Ok (cp "x = 1"), x').
Proof.
  assert (debug_readable (fun _ => None)
            (one_pref "mdpopups.use_sublime_highlighter" (PyBool true))) as Hr
    by (exists 0; reflexivity).
  destruct (syntax_highlight_falls_back (fun _ => None) (fun _ _ _ _ => None)
              (fun _ _ _ => None)
              (mkHost (one_pref "mdpopups.use_sublime_highlighter" (PyBool true)) None 0 0
                 (fun _ => None) (fun _ => None) None)
              (cp "x = 1") None false (mkLogged (mkGlobals _clear_cache None) []) Hr)
    as (code & x' & Hrun & Hcode).
  exists x'. cbn in Hcode. destruct Hcode as [-> _]. exact Hrun.
Defined.

Lemma scope2style_needs_scheme_witness :
  exists x',
    scope2style (fun _ => None) (fun _ _ _ _ => None)
      (mkHost no_prefs None 0 0 (fun _ => None) (fun _ => None) None)
      "comment"%string false false (mkLogged (mkGlobals _clear_cache None) [])
    = (Raise AttributeError, x').
Proof.
  assert (debug_readable (fun _ => None) no_prefs) as Hr by (exists 0; reflexivity).
  destruct (scope2style_needs_scheme (fun _ => None) (fun _ _ _ _ => None)
              (mkHost no_prefs None 0 0 (fun _ => None) (fun _ => None) None)
              "comment"%string false false (mkLogged (mkGlobals _clear_cache None) [])
              Hr eq_refl) as [out Hrun].
  eexists. exact Hrun.
Defined.

(** ** Stylesheets *)

Section StylesheetFacts.
Variable int_of_str : string -> option Z.
Variable load_resource : string -> option string.
Variable clean_css : string -> option string.
Variable apply_template : Scheme2CSS -> string -> css_kind -> pyval -> option string.
Implicit Types (x : Logged Globals) (h : Host).

(** X17. A user stylesheet that cannot be had never breaks the lookup: as
    long as the package's default stylesheet loads and cleans,
    [_get_user_css] returns, whatever [mdpopups.user_css] is set to (a
    missing file, a number, [null]).  It returns the user's stylesheet if
    that loads and cleans, the default otherwise. *)
Theorem user_css_falls_back_to_default (p : settings) (default : string) :
  load_clean load_resource clean_css (PyStr DEFAULT_CSS) = Some default ->
  _get_user_css load_resource clean_css p =
    Ok match load_clean load_resource clean_css
               (_get_setting p "mdpopups.user_css" (PyStr DEFAULT_USER_CSS)) with
       | Some css => css
       | None => default
       end.
Proof.
  intros Hd. unfold _get_user_css.
  destruct (load_clean load_resource clean_css
              (_get_setting p "mdpopups.user_css" (PyStr DEFAULT_USER_CSS)));
    [reflexivity|].
  rewrite Hd. reflexivity.
Qed.

(** X18. [_get_theme] raises only when the base stylesheet cannot be had
    (given that [_debug] can read its level): then it raises before anything
    else is done.  Otherwise it returns, keeps the base stylesheet in
    [base_css] (so it is loaded once), and leaves the caches as
    [_get_scheme] leaves them; the stylesheet returned is empty when there
    is no scheme object, and when the template raises. *)
Theorem theme_needs_only_base_css h (font_size : pyval) (css : option string)
    (kind : css_kind) x :
  debug_readable int_of_str (prefs h) ->
  match base_css_now load_resource clean_css x with
  | None =>
      _get_theme int_of_str load_resource clean_css apply_template h font_size css kind x
        = (Raise LibraryError, x)
  | Some base =>
      exists x',
        _get_theme int_of_str load_resource clean_css apply_template h font_size css kind x
          = (Ok match fst (fst (_get_scheme h (caches (state x)))) with
                | (Some obj, user_css) =>
                    match apply_template obj
                            (base ++ get_css obj
                               ++ match css with Some s => s | None => "" end
                               ++ user_css)%string kind font_size with
                    | Some style => style
                    | None => ""%string
                    end
                | (None, _) => ""%string
                end,
             x') /\
        base_css (state x') = Some base /\
        caches (state x') = snd (fst (_get_scheme h (caches (state x))))
  end.
Proof.
  intros Hr. pose proof Hr as [n Hn]. unfold base_css_now.
  assert (forall base y,
            caches (state y) = caches (state x) ->
            base_css (state y) = Some base ->
            exists x',
              (do found <- Console._get_scheme int_of_str h;
               let '(obj, user_css) := found in
               match obj with
               | None => ret ""%string
               | Some obj =>
                   let css := match css with Some s => s | None => ""%string end in
                   match apply_template obj (base ++ get_css obj ++ css ++ user_css)%string
                           kind font_size with
                   | Some style => ret style
                   | None =>
                       run _log (Line "Failed to retrieve scheme CSS!");
                       run _debug int_of_str (prefs h) Traceback ERROR;
                       ret ""%string
                   end
               end) y =
              (Ok match fst (fst (_get_scheme h (caches (state x)))) with
                  | (Some obj, user_css) =>
                      match apply_template obj
                              (base ++ get_css obj
                                 ++ match css with Some s => s | None => "" end
                                 ++ user_css)%string kind font_size with
                      | Some style => style
                      | None => ""%string
                      end
                  | (None, _) => ""%string
                  end,
               x') /\
              base_css (state x') = Some base /\
              caches (state x') = snd (fst (_get_scheme h (caches (state x))))) as Hrest.
  { intros base y Hc Hb. unfold bind at 1.
    destruct (_get_scheme_readable int_of_str h y Hr) as [out ->]. rewrite Hc, Hb.
    destruct (fst (fst (_get_scheme h (caches (state x))))) as [[obj|] user_css].
    - cbv zeta. destruct (apply_template obj _ kind font_size).
      + eexists. split; [reflexivity|]. split; reflexivity.
      + unfold bind, _log. cbn [state console].
        rewrite (_debug_at_level _ _ _ _ n) by exact Hn.
        eexists. split; [reflexivity|]. split; reflexivity.
    - eexists. split; [reflexivity|]. split; reflexivity. }
  destruct (base_css (state x)) as [base|] eqn:Hb.
  - unfold _get_theme. unfold bind at 1, load_base_css. rewrite Hb.
    apply Hrest; [reflexivity | exact Hb].
  - destruct (load_clean load_resource clean_css (PyStr BASE_CSS)) as [base|] eqn:Hl.
    + unfold _get_theme. unfold bind at 1, load_base_css. rewrite Hb, Hl.
      apply Hrest; reflexivity.
    + unfold _get_theme. unfold bind at 1, load_base_css. rewrite Hb, Hl. reflexivity.
Qed.
End StylesheetFacts.



(** [mdpopups.user_css] names a file that is not there. *)
Lemma user_css_falls_back_to_default_witness :
  _get_user_css package_resources clean_nothing
    (one_pref "mdpopups.user_css" (PyStr "Packages/User/gone.css")) = Ok "div {}"%string.
Proof.
  exact (user_css_falls_back_to_default package_resources clean_nothing
           (one_pref "mdpopups.user_css" (PyStr "Packages/User/gone.css")) "div {}"%string
           eq_refl).
Defined.

(** A view without a colour scheme: the stylesheet is empty, and the base
    stylesheet has been loaded and kept. *)
Lemma theme_needs_only_base_css_witness :
  exists x',
    _get_theme (fun _ => None) package_resources clean_nothing (fun _ _ _ _ => None)
      (mkHost no_prefs None 0 0 (fun _ => None) (fun _ => None) None) (PyInt 12) None POPUP
      (mkLogged (mkGlobals _clear_cache None) []) = (Ok ""%string, x') /\
    base_css (state x') = Some "html {}"%string.
Proof.
  assert (debug_readable (fun _ => None) no_prefs) as Hr by (exists 0; reflexivity).
  destruct (theme_needs_only_base_css (fun _ => None) package_resources clean_nothing
              (fun _ _ _ _ => None)
              (mkHost no_prefs None 0 0 (fun _ => None) (fun _ => None) None) (PyInt 12)
              None POPUP (mkLogged (mkGlobals _clear_cache None) []) Hr)
    as (x' & Hrun & Hbase & _).
  exists x'. split; [exact Hrun | exact Hbase].
Defined.

(** ** The sanitizer and the library behind it *)

Section SanitizerTotal.
Variable lib : Stdlib.

Lemma _remove_entities_by_length (P : text -> Prop) :
  P [] ->
  (forall c t, match_entity lib (c :: t) = None -> P t -> P (c :: t)) ->
  (forall t m rest, match_entity lib t = Some (m, rest) -> P rest -> P t) ->
  forall t, P t.
Proof.
  intros Hnil Hcopy Hmatch t.
  assert (forall n t, (length t <= n)%nat -> P t) as Hall.
  { induction n as [|n IH]; intros t0 Hlen.
    - destruct t0; [exact Hnil | simpl in Hlen; lia].
    - destruct t0 as [|c t']; [exact Hnil|].
      destruct (match_entity lib (c :: t')) as [[m rest]|] eqn:E.
      + apply (Hmatch _ m rest E). apply IH.
        destruct (match_entity_prefix lib _ _ _ E) as [Ht [body ->]].
        apply (f_equal (@length N)) in Ht. rewrite length_app in Ht.
        simpl in Ht, Hlen. lia.
      + apply Hcopy; [exact E|]. apply IH. simpl in Hlen. lia. }
  apply (Hall (length t)). lia.
Qed.
End SanitizerTotal.

(** X20. The sanitizer fails only where [unescape] does: with a library
    whose [unescape] returns for every reference it returns for every
    text, and with one that hands every reference back as it is (no name
    known, no number decoded) it hands the text back as it is. *)
Theorem sanitizer_returns_when_unescape_does (lib : Stdlib) :
  ((forall m, unescape lib m <> None) ->
   forall t, exists r, _remove_entities lib t = Some r) /\
  ((forall m, unescape lib m = Some m) ->
   forall t, _remove_entities lib t = Some t).
Proof.
  split; intros Hu.
  - apply (_remove_entities_by_length lib).
    + exists []. reflexivity.
    + intros c t E [r Hr]. rewrite _remove_entities_no_match by exact E.
      rewrite Hr. eexists. reflexivity.
    + intros t m rest E [r Hr]. rewrite (_remove_entities_at_match lib t m rest E), Hr.
      destruct (unescape lib m) as [u|] eqn:Eu; [eexists; reflexivity|].
      now apply Hu in Eu.
  - apply (_remove_entities_by_length lib).
    + reflexivity.
    + intros c t E Hr. rewrite _remove_entities_no_match by exact E.
      rewrite Hr. reflexivity.
    + intros t m rest E Hr. rewrite (_remove_entities_at_match lib t m rest E), Hr, Hu.
      destruct (match_entity_prefix lib _ _ _ E) as [-> _]. reflexivity.
Qed.

Lemma sanitizer_returns_when_unescape_does_witness :
  _remove_entities unescape_nothing (cp "&copy; 2016 &amp; &#65;")
    = Some (cp "&copy; 2016 &amp; &#65;").
Proof.
  apply (proj2 (sanitizer_returns_when_unescape_does unescape_nothing)).
  reflexivity.
Defined.

(** X21. A hexadecimal reference is no match of the pattern, whatever the
    library: after [&#] the pattern wants a decimal digit, so [&#x...;] and
    [&#X...;] stay in the document as they are written (what follows is
    sanitized as usual). *)
Theorem sanitizer_keeps_hexadecimal (lib : Stdlib) (rest : text) :
  _remove_entities lib (cp "&#x" ++ rest) = app (cp "&#x") <$> _remove_entities lib rest /\
  _remove_entities lib (cp "&#X" ++ rest) = app (cp "&#X") <$> _remove_entities lib rest.
Proof.
  unfold _remove_entities. split; cbn; destruct (sub_entities lib 0 rest); reflexivity.
Qed.

(** ** Equality of phantoms *)

(** X22. On records of the subclass [__eq__] never raises and is an
    equivalence: a record equals itself, the order of the two sides does
    not matter, and equality carries over.  Against a record of the
    editor's class it raises an [AttributeError] when the four fields that
    both classes have agree (the next attribute read is [md]), and is
    [False] otherwise. *)
Theorem phantom_equality_is_equivalence :
  (forall p, class_ p = mdpopups_Phantom -> Phantom__eq__ p p = Ok true) /\
  (forall p q,
     class_ p = mdpopups_Phantom -> class_ q = mdpopups_Phantom ->
     Phantom__eq__ p q = Phantom__eq__ q p) /\
  (forall p q r,
     class_ p = mdpopups_Phantom -> class_ q = mdpopups_Phantom ->
     class_ r = mdpopups_Phantom ->
     Phantom__eq__ p q = Ok true -> Phantom__eq__ q r = Ok true ->
     Phantom__eq__ p r = Ok true) /\
  (forall p q,
     class_ p <> class_ q ->
     (same_display p q -> Phantom__eq__ p q = Raise AttributeError) /\
     (~ same_display p q -> Phantom__eq__ p q = Ok false)).
Proof.
  split; [|split; [|split]].
  - intros p Hp. destruct (Phantom__eq__decides p p Hp Hp) as [[E _]|[_ Hn]]; [exact E|].
    exfalso. apply Hn. repeat split.
  - intros p q Hp Hq.
    destruct (Phantom__eq__decides p q Hp Hq) as [[-> Hd]|[-> Hd]];
      destruct (Phantom__eq__decides q p Hq Hp) as [[-> Hd']|[-> Hd']]; try reflexivity.
    + exfalso. apply Hd', same_description_sym, Hd.
    + exfalso. apply Hd, same_description_sym, Hd'.
  - intros p q r. apply Phantom__eq__trans.
  - intros p q Hc. unfold same_display, Phantom__eq__.
    destruct (region_eqb (region p) (region q)) eqn:E1;
      destruct (bool_decide (content p = content q)) eqn:E2;
      destruct (layout p =? layout q) eqn:E3;
      destruct (bool_decide (on_navigate p = on_navigate q)) eqn:E4; cbn [andb];
      try (split; [|reflexivity]; intros (H1 & H2 & H3 & H4); exfalso;
           first [ apply region_eqb_neq in E1; contradiction
                 | apply bool_decide_eq_false in E2; contradiction
                 | apply Z.eqb_neq in E3; contradiction
                 | apply bool_decide_eq_false in E4; contradiction ]).
    split.
    + intros _. destruct (class_ p), (class_ q); try reflexivity; contradiction.
    + intros Hn. exfalso. apply Hn. apply region_eqb_eq in E1.
      apply bool_decide_eq_true in E2, E4. apply Z.eqb_eq in E3. repeat split; assumption.
Qed.

(** The record of the example and its copy from the editor's class. *)
Lemma phantom_equality_is_equivalence_witness :
  Phantom__eq__ (phantom_a (Some 1)) (phantom_a None) = Ok true /\
  Phantom__eq__ (phantom_a None) plain_a = Raise AttributeError.
Proof.
  split.
  - rewrite (proj1 (proj2 phantom_equality_is_equivalence)
               (phantom_a (Some 1)) (phantom_a None) eq_refl eq_refl).
    reflexivity.
  - apply (proj2 (proj2 (proj2 phantom_equality_is_equivalence))); [discriminate|].
    repeat split.
Defined.

(** ** A debug level that cannot be read *)

Section Unreadable.
Context {V : Type} `{Environment V}.
Variable int_of_str : string -> option Z.

(** X6. A debug setting that is true but no number (a word, a list) makes
    [_create_html] raise at its first [_debug] call, before anything is
    rendered: the document that reaches the display primitive is [IDK], and
    the traceback is printed. *)
Theorem unreadable_debug_level_shows_fallback (content : text) (md : bool)
    (css : option text) (kind : css_kind) (nl2br : bool) (e : exn) (x : Logged V) :
  truthy (_get_setting (env_prefs (state x)) "mdpopups.debug" (PyInt NODEBUG)) = true ->
  debug_level int_of_str (env_prefs (state x)) = Raise e ->
  Console.html_or_IDK int_of_str content md css kind nl2br x =
    (Ok IDK, mkLogged (state x) (console x ++ [Traceback])).
Proof.
  intros Ht Hn. unfold Console.html_or_IDK, try_except, Console._create_html.
  unfold bind at 1, quietly at 1, get_setting. cbn [state console].
  unfold bind at 1. unfold Console.debug_dump at 1. rewrite Ht.
  unfold bind at 1, Console.debug_now at 1. cbn [state console].
  rewrite (_debug_unreadable _ _ _ _ e) by exact Hn.
  unfold bind, _log, ret. destruct x as [v out]. reflexivity.
Qed.
End Unreadable.

(** [mdpopups.debug] set to a word. *)
Lemma unreadable_debug_level_shows_fallback_witness :
  Console.html_or_IDK (fun _ => None) (cp "hello") true None POPUP true
    (mkLogged (editor_showing (one_pref "mdpopups.debug" (PyStr "verbose")) 1 []) [])
  = (Ok IDK,
     mkLogged (editor_showing (one_pref "mdpopups.debug" (PyStr "verbose")) 1 [])
       [Traceback]).
Proof.
  exact (unreadable_debug_level_shows_fallback (fun _ => None) (cp "hello") true None POPUP
           true LibraryError
           (mkLogged (editor_showing (one_pref "mdpopups.debug" (PyStr "verbose")) 1 []) [])
           eq_refl eq_refl).
Defined.
